(** * CoGraphiQL hypergraph kernels: tree enumeration, B-series, grip, ontogenesis

    A shallow embedding of the kernel generator of
    [packages/cographiql-hypergraph] (elementary differentials, B-series
    engine, grip optimizer, universal kernel generator, ontogenesis engine)
    and the properties of it that the specification states.

    Conventions of the embedding.
    - A JavaScript [number] that holds a count, an order or an index is a
      [Z]; every other [number] is an exact rational [Q]: rounding is not
      modelled.  [NaN] and the infinities have no counterpart: where the
      source adds to [undefined] ([mutate] on an index outside the array)
      the embedding stops with [NaNOperand]; a quotient by the length of
      an empty array, [NaN] in the source, is 0 in [Q], and no statement
      below rests on one.
    - [Math.sqrt], [Math.exp], [Math.sin] and [Math.PI] are not rational
      functions: they are the fields of the class [MathLib].  [Math.pow]
      with an integer exponent is [Qpower]; the one power with a
      fractional exponent, in the learning rate of the optimizer, is the
      field of [MathPow].  [Math.floor] is [Qfloor].
    - [Math.random], [Date.now], the expansion objects, which kernels
      share and the engine writes through [kernel.bSeries], and the static
      operation history live in a [World] that the ontogenesis engine
      threads through its calls.  Genomes and states are values (see
      [OntogeneticKernel]). *)

From Stdlib Require Import ZArith QArith Qround Qabs Qminmax Lia Lqa String List.
From Stdlib Require Import Sorted Ascii.
From stdpp Require Import gmap strings list pretty.

(** ** Numbers and arrays *)

Class MathLib := {
  Math_sqrt : Q → Q;
  Math_exp : Q → Q;
  Math_sin : Q → Q;
  Math_PI : Q
}.

(** [a < b] and [a >= b] on numbers, as booleans. *)
Definition Qltb (a b : Q) : bool := negb (Qle_bool b a).
Definition Qgeb (a b : Q) : bool := Qle_bool b a.

(** [arr.length] as a number. *)
Definition len {A} (l : list A) : Z := Z.of_nat (length l).

(** [arr[i]] for an integer [i]: [None] is [undefined]. *)
Definition array_get {A} (l : list A) (i : Z) : option A :=
  if (i <? 0)%Z then None else l !! Z.to_nat i.

(** [arr.slice(start, end)] for integers, negative arguments counting from
    the end as [Array.prototype.slice] does. *)
Definition slice_index {A} (l : list A) (i : Z) : nat :=
  if (i <? 0)%Z then Z.to_nat (Z.max (len l + i) 0) else Z.to_nat (Z.min i (len l)).

Definition slice {A} (l : list A) (start stop : Z) : list A :=
  let s := slice_index l start in
  let e := slice_index l stop in
  take (e - s) (drop s l).

(** [arr.slice(start)]. *)
Definition slice_from {A} (l : list A) (start : Z) : list A :=
  drop (slice_index l start) l.

(** The integers [lo, lo+1, ..., hi] of a counting [for] loop. *)
Definition range (lo hi : Z) : list Z :=
  List.map (fun k => (lo + Z.of_nat k)%Z) (seq 0 (Z.to_nat (hi - lo + 1))).

(** [arr.reduce((a, b) => a + b, 0)]. *)
Definition Qsum (l : list Q) : Q := fold_left Qplus l 0%Q.

(** ** Data model (types.ts) *)

#[warnings="-register-all"]
Inductive RootedTree : Type :=
  mkTree (order : Z) (label : string) (children : list RootedTree).

Definition tree_order (t : RootedTree) : Z := let (o, _, _) := t in o.
Definition tree_label (t : RootedTree) : string := let (_, l, _) := t in l.
Definition tree_children (t : RootedTree) : list RootedTree := let (_, _, c) := t in c.

Record ButcherTableau := {
  tab_order : Z;
  tab_stages : Z;
  tab_a : list (list Q);
  tab_b : list Q;
  tab_c : list Q
}.

Record GripMetric := {
  contact : Q;
  coverage : Q;
  efficiency : Q;
  stability : Q;
  overall : Q
}.

Inductive DomainType := physics | chemistry | biology | computing | consciousness.

Record DomainSpecification := {
  dom_type : DomainType;
  dom_order : Z;
  dom_treeType : string;
  dom_symmetry : string;
  dom_preserves : list string
}.

Record BSeriesTerm := {
  term_tree : RootedTree;
  term_coefficient : Q;
  term_grip : Q;
  term_order : Z
}.

Record BSeriesExpansion := {
  bs_domain : DomainSpecification;
  bs_terms : list BSeriesTerm;
  bs_convergenceOrder : Z;
  bs_grip : GripMetric
}.

Inductive DifferentialOperator := chain | product | quotient.

Inductive OptimizationGoal := speed | accuracy | goal_stability | balanced.

(** [n <= 1 ? 1 : n * factorial(n - 1)], the helper that both the tree
    generator and the B-series engine carry. *)
Definition factorial (n : Z) : Z :=
  if (n <=? 1)%Z then 1%Z else Z.of_nat (fact (Z.to_nat n)).

(** ** ElementaryDifferentialsGenerator (elementary-differentials) *)

Module ElementaryDifferentialsGenerator.

Definition leaf : RootedTree := mkTree 1 "f" [].
Definition tree2 : RootedTree := mkTree 2 "f'(f)" [leaf].

(** [generatePartitions(n)]; the recursive call is on [n - i < n], so
    [fuel] = [n] is enough. *)
Fixpoint generatePartitions_fuel (fuel : nat) (n : Z) : list (list Z) :=
  if (n =? 0)%Z then [[]]
  else if (n =? 1)%Z then [[1%Z]]
  else match fuel with
       | O => []
       | S fuel' =>
           flat_map (fun i =>
             let remaining := (n - i)%Z in
             if (remaining =? 0)%Z then [[i]]
             else flat_map (fun sub =>
                    match sub with
                    | [] => [i :: sub]
                    | s0 :: _ => if (i <=? s0)%Z then [i :: sub] else []
                    end)
                  (generatePartitions_fuel fuel' remaining))
           (range 1 n)
       end.

Definition generatePartitions (n : Z) : list (list Z) :=
  generatePartitions_fuel (Z.to_nat n) n.

Definition primes (k : nat) : string := String.concat "" (replicate k "'"%string).

Definition generateLabel (subtrees : list RootedTree) : string :=
  match subtrees with
  | [] => "f"
  | [t] => "f'(" +:+ tree_label t +:+ ")"
  | _ => "f" +:+ primes (length subtrees - 1) +:+ "("
         +:+ String.concat ", " (List.map tree_label subtrees) +:+ ")"
  end.

Definition catalog3 : list RootedTree :=
  [ mkTree 3 "f''(f, f)" [leaf; leaf];
    mkTree 3 "f'(f'(f))" [tree2] ].

Definition catalog4 : list RootedTree :=
  [ mkTree 4 "f'''(f, f, f)" [leaf; leaf; leaf];
    mkTree 4 "f''(f'(f), f)" [tree2; leaf];
    mkTree 4 "f''(f, f'(f))" [leaf; tree2];
    mkTree 4 "f'(f''(f, f))" [mkTree 3 "f''(f, f)" [leaf; leaf]];
    mkTree 4 "f'(f'(f'(f)))" [mkTree 3 "f'(f'(f))" [tree2]] ].

(** [generate(order)] with [generateRecursive] inlined for orders above
    4: one tree per partition of [order - 1], whose children are the
    first trees of the parts' orders.  The parts are below [order]. *)
Fixpoint generate_fuel (fuel : nat) (order : Z) : list RootedTree :=
  if (order <=? 0)%Z then []
  else if (order =? 1)%Z then [leaf]
  else if (order =? 2)%Z then [tree2]
  else if (order =? 3)%Z then catalog3
  else if (order =? 4)%Z then catalog4
  else match fuel with
       | O => []
       | S fuel' =>
           flat_map (fun partition =>
             let subtrees :=
               flat_map (fun p => match generate_fuel fuel' p with
                                  | [] => []
                                  | t :: _ => [t]
                                  end) partition in
             match subtrees with
             | [] => []
             | _ => [mkTree order (generateLabel subtrees) subtrees]
             end)
           (generatePartitions (order - 1))
       end.

Definition generate (order : Z) : list RootedTree :=
  generate_fuel (Z.to_nat order) order.

Definition generateRecursive (n : Z) : list RootedTree :=
  flat_map (fun partition =>
    let subtrees :=
      flat_map (fun p => match generate p with [] => [] | t :: _ => [t] end) partition in
    match subtrees with
    | [] => []
    | _ => [mkTree n (generateLabel subtrees) subtrees]
    end)
  (generatePartitions (n - 1)).

Definition a000081 : list Z :=
  [0; 1; 1; 2; 4; 9; 20; 48; 115; 286; 719; 1842; 4766; 12486; 32973]%Z.

(** [count(n)] for an integer [n]; [None] is the [undefined] that the
    table lookup gives below index 0. *)
Definition count `{MathLib} (n : Z) : option Z :=
  if (n <? len a000081)%Z then array_get a000081 n
  else Some (Qfloor (Qpower 2.9557652856 n / Math_sqrt (inject_Z n))).

(** Structural equality of trees: two children have the same
    [JSON.stringify] image exactly when they are equal field by field. *)
Fixpoint tree_eqb (t1 t2 : RootedTree) : bool :=
  match t1, t2 with
  | mkTree o1 l1 c1, mkTree o2 l2 c2 =>
      (o1 =? o2)%Z && String.eqb l1 l2 &&
      (fix all2 (a b : list RootedTree) : bool :=
         match a, b with
         | [], [] => true
         | x :: a', y :: b' => tree_eqb x y && all2 a' b'
         | _, _ => false
         end) c1 c2
  end.

(** [childCounts[key] = (childCounts[key] || 0) + 1], keys kept in
    insertion order. *)
Fixpoint bump (key : RootedTree) (counts : list (RootedTree * Z)) : list (RootedTree * Z) :=
  match counts with
  | [] => [(key, 1%Z)]
  | (k, c) :: rest =>
      if tree_eqb k key then (k, (c + 1)%Z) :: rest else (k, c) :: bump key rest
  end.

Definition childCounts (children : list RootedTree) : list (RootedTree * Z) :=
  fold_left (fun counts child => bump child counts) children [].

Fixpoint symmetryFactor (tree : RootedTree) : Z :=
  match tree with
  | mkTree _ _ [] => 1%Z
  | mkTree _ _ children =>
      let factor := fold_left (fun f kc => (f * factorial (snd kc))%Z) (childCounts children) 1%Z in
      fold_left Z.mul (List.map symmetryFactor children) factor
  end.

End ElementaryDifferentialsGenerator.


(** ** BSeriesEngine (b-series) *)

Module BSeriesEngine.
Import ElementaryDifferentialsGenerator.

Definition getButcherTableau (domain : DomainSpecification) : ButcherTableau :=
  let o := dom_order domain in
  if (o =? 1)%Z then
    {| tab_order := 1; tab_stages := 1; tab_a := [[0%Q]]; tab_b := [1%Q]; tab_c := [0%Q] |}
  else if (o =? 2)%Z then
    {| tab_order := 2; tab_stages := 2;
       tab_a := [[0; 0]; [1 / 2; 0]]%Q;
       tab_b := [0; 1]%Q; tab_c := [0; 1 / 2]%Q |}
  else if (o =? 3)%Z then
    {| tab_order := 3; tab_stages := 3;
       tab_a := [[0; 0; 0]; [1 / 2; 0; 0]; [-1; 2; 0]]%Q;
       tab_b := [1 / 6; 2 / 3; 1 / 6]%Q; tab_c := [0; 1 / 2; 1]%Q |}
  else
    {| tab_order := 4; tab_stages := 4;
       tab_a := [[0; 0; 0; 0]; [1 / 2; 0; 0; 0]; [0; 1 / 2; 0; 0]; [0; 0; 1; 0]]%Q;
       tab_b := [1 / 6; 1 / 3; 1 / 3; 1 / 6]%Q; tab_c := [0; 1 / 2; 1 / 2; 1]%Q |}.

(** The loop runs over the indices of [b]; the four tableaux have [b]
    and [c] of one length, so the pairs of [combine] are its steps. *)
Definition computeCoefficient (tree : RootedTree) (tableau : ButcherTableau) : Q :=
  let order := tree_order tree in
  let symmetry := symmetryFactor tree in
  let coefficient :=
    fold_left (fun acc bc => acc + fst bc * Qpower (snd bc) (order - 1))%Q
              (combine (tab_b tableau) (tab_c tableau)) 0%Q in
  (coefficient / inject_Z (symmetry * order))%Q.

Fixpoint computeTreeDepth (tree : RootedTree) : Z :=
  match tree with
  | mkTree _ _ [] => 1%Z
  | mkTree _ _ (c :: cs) =>
      (1 + fold_left Z.max (List.map computeTreeDepth cs) (computeTreeDepth c))%Z
  end.

Definition computeTreeBalance (tree : RootedTree) : Q :=
  match tree_children tree with
  | [] => 1%Q
  | c :: cs =>
      let depths := List.map computeTreeDepth cs in
      let maxDepth := fold_left Z.max depths (computeTreeDepth c) in
      let minDepth := fold_left Z.min depths (computeTreeDepth c) in
      (inject_Z minDepth / inject_Z maxDepth)%Q
  end.

Definition computeGrip (tree : RootedTree) (gripMetric : GripMetric) : Q :=
  let depthFactor := (inject_Z (computeTreeDepth tree) / inject_Z (tree_order tree))%Q in
  let balanceFactor := computeTreeBalance tree in
  ((contact gripMetric * depthFactor +
    coverage gripMetric * balanceFactor +
    efficiency gripMetric * (1 / inject_Z (tree_order tree)) +
    stability gripMetric * 0.8) / 4)%Q.

Definition generateExpansion (domain : DomainSpecification) (gripMetric : GripMetric)
  : BSeriesExpansion :=
  let trees := generate (dom_order domain) in
  let tableau := getButcherTableau domain in
  let terms := List.map (fun tree =>
    {| term_tree := tree;
       term_coefficient := computeCoefficient tree tableau;
       term_grip := computeGrip tree gripMetric;
       term_order := tree_order tree |}) trees in
  {| bs_domain := domain; bs_terms := terms;
     bs_convergenceOrder := dom_order domain; bs_grip := gripMetric |}.

Definition generateRungeKutta (order : Z) : BSeriesExpansion :=
  let domain :=
    {| dom_type := computing; dom_order := order; dom_treeType := "recursion";
       dom_symmetry := "time-reversible"; dom_preserves := ["energy"; "momentum"] |} in
  let gripMetric :=
    {| contact := 1.0; coverage := 1.0; efficiency := 0.9; stability := 1.0;
       overall := 0.975 |} in
  generateExpansion domain gripMetric.

Fixpoint findCoefficient (tree : RootedTree) (terms : list BSeriesTerm) : Q :=
  match terms with
  | [] => 0%Q
  | t :: rest =>
      if String.eqb (tree_label (term_tree t)) (tree_label tree)
      then term_coefficient t
      else findCoefficient tree rest
  end.

Definition chainCompose (f g : BSeriesExpansion) : BSeriesExpansion :=
  let maxOrder := Z.max (bs_convergenceOrder f) (bs_convergenceOrder g) in
  let trees := generate maxOrder in
  let terms := List.map (fun tree =>
    let fCoeff := findCoefficient tree (bs_terms f) in
    let gCoeff := findCoefficient tree (bs_terms g) in
    {| term_tree := tree;
       term_coefficient := (fCoeff * gCoeff)%Q;
       term_grip := ((overall (bs_grip f) + overall (bs_grip g)) / 2)%Q;
       term_order := tree_order tree |}) trees in
  {| bs_domain := bs_domain f;
     bs_terms := terms;
     bs_convergenceOrder := maxOrder;
     bs_grip :=
       {| contact := (contact (bs_grip f) + contact (bs_grip g)) / 2;
          coverage := (coverage (bs_grip f) + coverage (bs_grip g)) / 2;
          efficiency := efficiency (bs_grip f) * efficiency (bs_grip g);
          stability := Qmin (stability (bs_grip f)) (stability (bs_grip g));
          overall := (overall (bs_grip f) + overall (bs_grip g)) / 2 |}%Q |}.

Definition productCompose (f g : BSeriesExpansion) : BSeriesExpansion :=
  let maxOrder := Z.max (bs_convergenceOrder f) (bs_convergenceOrder g) in
  let trees := generate maxOrder in
  let terms := List.map (fun tree =>
    let fCoeff := findCoefficient tree (bs_terms f) in
    let gCoeff := findCoefficient tree (bs_terms g) in
    {| term_tree := tree;
       term_coefficient := (fCoeff + gCoeff)%Q;
       term_grip := Qmax (overall (bs_grip f)) (overall (bs_grip g));
       term_order := tree_order tree |}) trees in
  {| bs_domain := bs_domain f;
     bs_terms := terms;
     bs_convergenceOrder := maxOrder;
     bs_grip :=
       {| contact := Qmax (contact (bs_grip f)) (contact (bs_grip g));
          coverage := (coverage (bs_grip f) + coverage (bs_grip g)) / 2;
          efficiency := (efficiency (bs_grip f) + efficiency (bs_grip g)) / 2;
          stability := Qmin (stability (bs_grip f)) (stability (bs_grip g));
          overall := (overall (bs_grip f) + overall (bs_grip g)) / 2 |}%Q |}.

(** The sum of the coefficients of the terms of one order: the
    [filter] and [reduce] of [verifyOrderConditions]. *)
Definition orderSum (expansion : BSeriesExpansion) (order : Z) : Q :=
  let termsOfOrder :=
    List.filter (fun t => (term_order t =? order)%Z) (bs_terms expansion) in
  fold_left (fun acc t => acc + term_coefficient t)%Q termsOfOrder 0%Q.

(** One pass of the loop body: [false] is the early [return false]. *)
Definition orderConditionHolds (expansion : BSeriesExpansion) (order : Z) : bool :=
  let sum := orderSum expansion order in
  let expected := (1 / inject_Z (factorial order))%Q in
  let tolerance := 1e-10%Q in
  negb (Qltb tolerance (Qabs (sum - expected))).

Definition verifyOrderConditions (expansion : BSeriesExpansion) : bool :=
  forallb (orderConditionHolds expansion) (range 1 (bs_convergenceOrder expansion)).

End BSeriesEngine.

(** ** GripOptimizer (grip-optimizer.ts) *)

Module GripOptimizer.
Section WithMath.
Context `{MathLib}.

Definition vectorNorm (v : list Q) : Q :=
  Math_sqrt (fold_left (fun sum x => sum + x * x)%Q v 0%Q).

Definition computeVariance (v : list Q) : Q :=
  let mean := (Qsum v / inject_Z (len v))%Q in
  (fold_left (fun sum x => sum + Qpower (x - mean) 2)%Q v 0%Q / inject_Z (len v))%Q.

Definition getDomainWeights (domain : DomainSpecification) : list Q :=
  let order := dom_order domain in
  let idx := range 0 (order - 1) in
  match dom_type domain with
  | physics => List.map (fun i => Qpower (-1) i / inject_Z (i + 1))%Q idx
  | chemistry => List.map (fun i => Math_exp (- inject_Z i / 2))%Q idx
  | biology => List.map (fun i => 1 / inject_Z (1 + i * i))%Q idx
  | computing => List.map (fun i => 1 / Qpower 2 i)%Q idx
  | consciousness =>
      List.map (fun i => Math_sin (inject_Z i * Math_PI / inject_Z order))%Q idx
  end.

Definition computeContact (coeffs : list Q) (domain : DomainSpecification) : Q :=
  let domainWeights := getDomainWeights domain in
  let dotProduct :=
    fold_left (fun acc cw => acc + fst cw * snd cw)%Q (combine coeffs domainWeights) 0%Q in
  let coeffNorm := vectorNorm coeffs in
  let weightNorm := vectorNorm domainWeights in
  if Qeq_bool coeffNorm 0 || Qeq_bool weightNorm 0 then 0%Q
  else Qabs (dotProduct / (coeffNorm * weightNorm)).

Definition computeCoverage (coeffs : list Q) : Q :=
  let nonZero := List.filter (fun c => Qltb 1e-10 (Qabs c)) coeffs in
  (inject_Z (len nonZero) / inject_Z (len coeffs))%Q.

Definition computeEfficiency (coeffs : list Q) : Q :=
  let sparsity :=
    (inject_Z (len (List.filter (fun c => Qltb (Qabs c) 1e-10) coeffs))
     / inject_Z (len coeffs))%Q in
  let magnitude := vectorNorm coeffs in
  (0.5 * sparsity + 0.5 / (1 + magnitude))%Q.

(** [Math.max(...coeffs.map(Math.abs))]; for an empty array the maximum
    is [-Infinity] and [1 / (1 + maxCoeff)] is zero. *)
Definition computeStability (coeffs : list Q) : Q :=
  let variance := computeVariance coeffs in
  let boundedness :=
    match List.map Qabs coeffs with
    | [] => 0%Q
    | a :: rest => (1 / (1 + fold_left Qmax rest a))%Q
    end in
  let smoothness := (1 / (1 + variance))%Q in
  ((boundedness + smoothness) / 2)%Q.

Definition measureGrip (coeffs : list Q) (domain : DomainSpecification) : GripMetric :=
  let contact := computeContact coeffs domain in
  let coverage := computeCoverage coeffs in
  let efficiency := computeEfficiency coeffs in
  let stability := computeStability coeffs in
  let overall := (0.3 * contact + 0.3 * coverage + 0.2 * efficiency + 0.2 * stability)%Q in
  {| contact := contact; coverage := coverage; efficiency := efficiency;
     stability := stability; overall := overall |}.

End WithMath.

Definition isSufficientGrip (grip : GripMetric) (threshold : Q) : bool :=
  Qgeb (overall grip) threshold.

End GripOptimizer.

(** ** UniversalKernelGenerator (generator.ts) *)

Record Metadata := {
  generatedAt : Z;
  version : string;
  optimizationIterations : Z
}.

Record GeneratedKernel := {
  k_domain : DomainSpecification;
  k_order : Z;
  k_trees : list RootedTree;
  k_coefficients : list Q;
  k_grip : GripMetric;
  k_bSeries : BSeriesExpansion;
  k_metadata : Metadata
}.

Record OperatorApplication := {
  oa_operator : DifferentialOperator;
  oa_leftOperand : GeneratedKernel;
  oa_rightOperand : GeneratedKernel;
  oa_result : GeneratedKernel
}.

Module UniversalKernelGenerator.

Definition VERSION : string := "1.0.0".

(** [initializeGrip(context)] reads [context.optimizationGoal] only. *)
Definition initializeGrip (optimizationGoal : OptimizationGoal) : GripMetric :=
  let '(c, v, e, s) :=
    match optimizationGoal with
    | speed => (0.6, 0.7, 1.0, 0.6)
    | accuracy => (1.0, 1.0, 0.5, 0.9)
    | goal_stability => (0.8, 0.8, 0.6, 1.0)
    | balanced => (0.8, 0.8, 0.8, 0.8)
    end%Q in
  {| contact := c; coverage := v; efficiency := e; stability := s;
     overall := ((c + v + e + s) / 4)%Q |}.

(** [now] is the value of [new Date()] at the call. *)
Definition fresh_metadata (now : Z) : Metadata :=
  {| generatedAt := now; version := VERSION; optimizationIterations := 0 |}.

Definition chainCompose (now : Z) (f g : GeneratedKernel) : GeneratedKernel :=
  let composed := BSeriesEngine.chainCompose (k_bSeries f) (k_bSeries g) in
  {| k_domain := k_domain f;
     k_order := Z.max (k_order f) (k_order g);
     k_trees := List.map term_tree (bs_terms composed);
     k_coefficients := List.map term_coefficient (bs_terms composed);
     k_grip := bs_grip composed;
     k_bSeries := composed;
     k_metadata := fresh_metadata now |}.

Definition productCompose (now : Z) (f g : GeneratedKernel) : GeneratedKernel :=
  let composed := BSeriesEngine.productCompose (k_bSeries f) (k_bSeries g) in
  {| k_domain := k_domain f;
     k_order := Z.max (k_order f) (k_order g);
     k_trees := List.map term_tree (bs_terms composed);
     k_coefficients := List.map term_coefficient (bs_terms composed);
     k_grip := bs_grip composed;
     k_bSeries := composed;
     k_metadata := fresh_metadata now |}.

(** [i < arr.length ? arr[i] : 0], the operand of [quotientCompose] at
    position [i]. *)
Definition coeffAt (coefficients : list Q) (i : nat) : Q :=
  match coefficients !! i with Some c => c | None => 0%Q end.

(** [coefficients] has one entry per tree, so [coefficients[i]] in the
    terms of the result is the [i]th pair of [zip_with]. *)
Definition quotientCompose (now : Z) (f g : GeneratedKernel) : GeneratedKernel :=
  let maxOrder := Z.max (k_order f) (k_order g) in
  let trees := ElementaryDifferentialsGenerator.generate maxOrder in
  let coefficients := imap (fun i _ =>
    let fCoeff := coeffAt (k_coefficients f) i in
    let gCoeff := coeffAt (k_coefficients g) i in
    ((fCoeff - gCoeff) / (1 + Qabs gCoeff))%Q) trees in
  let grip :=
    {| contact := (contact (k_grip f) + contact (k_grip g)) / 2;
       coverage := Qmin (coverage (k_grip f)) (coverage (k_grip g));
       efficiency := efficiency (k_grip f) * efficiency (k_grip g);
       stability := Qmin (stability (k_grip f)) (stability (k_grip g)) * 0.9;
       overall := (overall (k_grip f) + overall (k_grip g)) / 2.2 |}%Q in
  {| k_domain := k_domain f;
     k_order := maxOrder;
     k_trees := trees;
     k_coefficients := coefficients;
     k_grip := grip;
     k_bSeries :=
       {| bs_domain := k_domain f;
          bs_terms := zip_with (fun tree c =>
            {| term_tree := tree;
               term_coefficient := c;
               term_grip := overall grip;
               term_order := tree_order tree |}) trees coefficients;
          bs_convergenceOrder := maxOrder;
          bs_grip := grip |};
     k_metadata := fresh_metadata now |}.

(** The [switch] has a [default] that throws; the three constructors of
    [DifferentialOperator] are its three cases. *)
Definition applyOperator (now : Z) (operator : DifferentialOperator)
    (left right : GeneratedKernel) : OperatorApplication :=
  let result :=
    match operator with
    | chain => chainCompose now left right
    | product => productCompose now left right
    | quotient => quotientCompose now left right
    end in
  {| oa_operator := operator; oa_leftOperand := left;
     oa_rightOperand := right; oa_result := result |}.

Definition generateRungeKutta (now : Z) (order : Z) : GeneratedKernel :=
  let bSeries := BSeriesEngine.generateRungeKutta order in
  {| k_domain := bs_domain bSeries;
     k_order := order;
     k_trees := List.map term_tree (bs_terms bSeries);
     k_coefficients := List.map term_coefficient (bs_terms bSeries);
     k_grip := bs_grip bSeries;
     k_bSeries := bSeries;
     k_metadata := fresh_metadata now |}.

End UniversalKernelGenerator.

(** ** Ontogenesis types (ontogenesis-types.ts) *)

(** [`kernel-${Date.now()}-${Math.random().toString(36).substr(2, 9)}`]:
    an id is kept as the two values its text is printed from. *)
Definition KernelId : Type := Z * Q.

Definition id_eqb (a b : KernelId) : bool :=
  (fst a =? fst b)%Z && Qeq_bool (snd a) (snd b).

Inductive GeneType := gene_operator | gene_coefficient | gene_symmetry | gene_preservation.

Inductive GeneValue := GNumber (q : Q) | GString (s : string).

Record KernelGene := {
  gene_type : GeneType;
  gene_value : GeneValue;
  expressionStrength : Q;
  mutable : bool
}.

Record KernelGenome := {
  id : KernelId;
  generation : Z;
  lineage : list KernelId;
  genes : list KernelGene;
  fitness : Q;
  age : Z
}.

Inductive DevelopmentStage := embryonic | juvenile | mature | senescent.

Record MutationRecord := {
  mr_timestamp : Z;
  geneIndex : Z;
  oldValue : Q;
  newValue : Q;
  impact : Q
}.

Inductive EventType := ev_mutation | ev_crossover | ev_optimization | ev_stage_transition.

Record DevelopmentEvent := {
  ev_timestamp : Z;
  ev_type : EventType;
  description : string;
  fitnessChange : Q
}.

Record OntogeneticState := {
  stage : DevelopmentStage;
  maturity : Q;
  reproductiveCapability : Q;
  mutations : list MutationRecord;
  developmentHistory : list DevelopmentEvent
}.

(** A kernel object of the ontogenesis layer.  [bSeries] is a reference:
    [{ ...kernel }] copies it, so parent and offspring reach one expansion
    object, and the engine assigns to [kernel.bSeries.grip].  The other
    fields are values: the engine replaces them on a fresh object
    ([mutate], [clone], [createOffspring]) or, in
    [updateDevelopmentStage], updates them on the kernel it is given,
    which the embedding returns.

    In the source the genome and the development history are objects
    too, and [{ ...kernel }] in [mutate] and [selfOptimize] copies the
    references to them.  As values they are what a call reads and what
    it leaves in the kernel it returns; a later [age++] or [push] through
    another kernel that shares the object is not followed.  The
    statements below on ages, stages and histories are therefore about
    one call, or about individuals that share no genome with another. *)
Record OntogeneticKernel := {
  domain : DomainSpecification;
  order : Z;
  trees : list RootedTree;
  coefficients : list Q;
  grip : GripMetric;
  bSeries : nat;
  metadata : Metadata;
  genome : KernelGenome;
  ontogeneticState : OntogeneticState
}.

Record KernelPopulation := {
  pop_generation : Z;
  individuals : list OntogeneticKernel;
  pop_populationSize : Z;
  averageFitness : Q;
  (** [Math.max(...fitness)]: [None] is the [-Infinity] of an empty array. *)
  bestFitness : option Q;
  diversity : Q
}.

Record EvolutionParameters := {
  populationSize : Z;
  mutationRate : Q;
  crossoverRate : Q;
  elitismRate : Q;
  maxGenerations : Z;
  fitnessThreshold : Q;
  diversityPressure : Q
}.

Record Scores := {
  score_grip : Q;
  score_stability : Q;
  score_efficiency : Q;
  score_novelty : Q;
  score_symmetry : Q
}.

Record FitnessEvaluation := {
  fe_kernel : OntogeneticKernel;
  fe_scores : Scores;
  fe_overall : Q;
  fe_rank : Z
}.

Inductive ReproductionMethod := crossover_method | mutation_method | cloning_method.

Record ReproductionResult := {
  parents : OntogeneticKernel * OntogeneticKernel;
  offspring : list OntogeneticKernel;
  method : ReproductionMethod
}.

Inductive OperationType := self_generate | self_optimize | self_reproduce | self_mutate.

Record OntogeneticOperation := {
  op_type : OperationType;
  op_input : OntogeneticKernel;
  op_output : list OntogeneticKernel;
  op_timestamp : Z
}.

(** ** The world of the ontogenesis engine *)

Record World := {
  (** the expansion objects that kernels refer to *)
  heap : gmap nat BSeriesExpansion;
  (** the successive values of [Math.random()] and how many were drawn *)
  random_source : nat → Q;
  drawn : nat;
  (** the value of [Date.now()] and [new Date()] *)
  clock : Z;
  (** [OntogenesisEngine.operationHistory] *)
  operationHistory : list OntogeneticOperation
}.

(** Why a computation stops without a value.  [TypeError] is the
    exception of the source.  [NaNOperand] marks the point where the
    source goes on with [NaN], which the numbers of the embedding do not
    have.  [DanglingReference] and [OutOfFuel] cannot happen in the
    source: a reference there always has its object, and the loop of
    [evolve] is given the fuel it needs. *)
Inductive Reason := TypeError | NaNOperand | DanglingReference | OutOfFuel.

Inductive Outcome (A : Type) : Type :=
| Ok (a : A) (w : World)
| Abort (r : Reason).
Arguments Ok {A} a w.
Arguments Abort {A} r.

Definition M (A : Type) : Type := World → Outcome A.

#[global] Instance M_ret : MRet M := fun A a w => Ok a w.

#[global] Instance M_bind : MBind M := fun A B f m w =>
  match m w with
  | Ok a w' => f a w'
  | Abort r => Abort r
  end.

Definition abort {A} (r : Reason) : M A := fun _ => Abort r.

Definition with_heap (h : gmap nat BSeriesExpansion) (w : World) : World :=
  {| heap := h; random_source := random_source w; drawn := drawn w;
     clock := clock w; operationHistory := operationHistory w |}.

Definition Math_random : M Q := fun w =>
  Ok (random_source w (drawn w))
     {| heap := heap w; random_source := random_source w; drawn := S (drawn w);
        clock := clock w; operationHistory := operationHistory w |}.

Definition Date_now : M Z := fun w => Ok (clock w) w.

(** A new expansion object. *)
Definition alloc (bs : BSeriesExpansion) : M nat := fun w =>
  let l := fresh (dom (heap w)) in
  Ok l (with_heap (<[l := bs]> (heap w)) w).

(** [kernel.bSeries], read. *)
Definition deref (l : nat) : M BSeriesExpansion := fun w =>
  match heap w !! l with
  | Some bs => Ok bs w
  | None => Abort DanglingReference
  end.

Definition with_grip (g : GripMetric) (bs : BSeriesExpansion) : BSeriesExpansion :=
  {| bs_domain := bs_domain bs; bs_terms := bs_terms bs;
     bs_convergenceOrder := bs_convergenceOrder bs; bs_grip := g |}.

(** [kernel.bSeries.grip = g]. *)
Definition assign_bSeries_grip (l : nat) (g : GripMetric) : M unit := fun w =>
  match heap w !! l with
  | Some bs => Ok tt (with_heap (<[l := with_grip g bs]> (heap w)) w)
  | None => Abort DanglingReference
  end.

(** ** OntogenesisEngine (ontogenesis.ts) *)

Module OntogenesisEngine.

Definition generateId : M KernelId :=
  t ← Date_now; r ← Math_random; mret (t, r).

Definition extractGenome (kernel : GeneratedKernel) : M KernelGenome :=
  let genes :=
    List.map (fun coeff =>
      {| gene_type := gene_coefficient; gene_value := GNumber coeff;
         expressionStrength := 1.0; mutable := true |}) (k_coefficients kernel)
    ++ [ {| gene_type := gene_symmetry;
            gene_value := GString (dom_symmetry (k_domain kernel));
            expressionStrength := 0.8; mutable := false |} ]
    ++ List.map (fun p =>
      {| gene_type := gene_preservation; gene_value := GString p;
         expressionStrength := 0.9; mutable := false |})
      (dom_preserves (k_domain kernel)) in
  i ← generateId;
  mret {| id := i; generation := 0; lineage := []; genes := genes;
          fitness := overall (k_grip kernel); age := 0 |}.

Definition createInitialState : OntogeneticState :=
  {| stage := embryonic; maturity := 0.0; reproductiveCapability := 0.0;
     mutations := []; developmentHistory := [] |}.

(** [initialize(kernel)]: the kernel handed over by the generator
    becomes an object of the ontogenesis layer, its expansion an object
    of the heap. *)
Definition initialize (kernel : GeneratedKernel) : M OntogeneticKernel :=
  g ← extractGenome kernel;
  l ← alloc (k_bSeries kernel);
  mret {| domain := k_domain kernel; order := k_order kernel;
          trees := k_trees kernel; coefficients := k_coefficients kernel;
          grip := k_grip kernel; bSeries := l; metadata := k_metadata kernel;
          genome := g; ontogeneticState := createInitialState |}.

(** An ontogenetic kernel seen as the [GeneratedKernel] it extends. *)
Definition asGenerated (kernel : OntogeneticKernel) : M GeneratedKernel :=
  bs ← deref (bSeries kernel);
  mret {| k_domain := domain kernel; k_order := order kernel;
          k_trees := trees kernel; k_coefficients := coefficients kernel;
          k_grip := grip kernel; k_bSeries := bs; k_metadata := metadata kernel |}.

Definition selectOperator (kernel : OntogeneticKernel) : DifferentialOperator :=
  let maturity := maturity (ontogeneticState kernel) in
  if Qltb maturity 0.5 then chain
  else if Qltb maturity 0.8 then product
  else quotient.

Definition recordOperation (operation : OntogeneticOperation) : M unit := fun w =>
  let pushed := operationHistory w ++ [operation] in
  let kept := if (1000 <? len pushed)%Z then drop 1 pushed else pushed in
  Ok tt {| heap := heap w; random_source := random_source w; drawn := drawn w;
           clock := clock w; operationHistory := kept |}.

Definition selfGenerate (parent : OntogeneticKernel) : M OntogeneticKernel :=
  let operation := selectOperator parent in
  p ← asGenerated parent;
  t ← Date_now;
  let composed := UniversalKernelGenerator.applyOperator t operation p p in
  child ← initialize (oa_result composed);
  let g := genome child in
  let child :=
    {| domain := domain child; order := order child; trees := trees child;
       coefficients := coefficients child; grip := grip child;
       bSeries := bSeries child; metadata := metadata child;
       genome := {| id := id g;
                    generation := generation (genome parent) + 1;
                    lineage := [id (genome parent)];
                    genes := genes g; fitness := fitness g; age := age g |};
       ontogeneticState := ontogeneticState child |} in
  t' ← Date_now;
  recordOperation {| op_type := self_generate; op_input := parent;
                     op_output := [child]; op_timestamp := t' |};;
  mret child.

Definition variance (values : list Q) : Q :=
  let mean := (Qsum values / inject_Z (len values))%Q in
  let squaredDiffs := List.map (fun v => Qpower (v - mean) 2) values in
  (Qsum squaredDiffs / inject_Z (len values))%Q.

Definition recalculateGrip (kernel : OntogeneticKernel) : GripMetric :=
  let coeffSum := fold_left (fun a b => a + Qabs b)%Q (coefficients kernel) 0%Q in
  let coeffVariance := variance (coefficients kernel) in
  let contact := Qmin 1.0 (coeffSum / inject_Z (len (coefficients kernel))) in
  let coverage := Qmin 1.0 (1.0 / (1.0 + coeffVariance)) in
  let efficiency := (efficiency (grip kernel) * 0.95)%Q in
  let stability := Qmin 1.0 (1.0 - coeffVariance / 10) in
  let overall := ((contact + coverage + efficiency + stability) / 4)%Q in
  {| contact := contact; coverage := coverage; efficiency := efficiency;
     stability := stability; overall := overall |}.

(** The loop over [i < max(genes1.length, genes2.length)]. *)
Fixpoint mergeGenes (genes1 genes2 : list KernelGene) : list KernelGene :=
  match genes1, genes2 with
  | g1 :: r1, g2 :: r2 =>
      {| gene_type := gene_type g1; gene_value := gene_value g1;
         expressionStrength := (expressionStrength g1 + expressionStrength g2) / 2;
         mutable := mutable g1 |} :: mergeGenes r1 r2
  | _ :: _, [] => genes1
  | [], _ => genes2
  end.

Definition createOffspring (parent1 parent2 : OntogeneticKernel) (coeffs : list Q)
  : M OntogeneticKernel :=
  i ← generateId;
  let child :=
    {| domain := domain parent1; order := order parent1; trees := trees parent1;
       coefficients := coeffs; grip := grip parent1;
       bSeries := bSeries parent1; metadata := metadata parent1;
       genome :=
         {| id := i;
            generation :=
              Z.max (generation (genome parent1)) (generation (genome parent2)) + 1;
            lineage := [id (genome parent1); id (genome parent2)];
            genes := mergeGenes (genes (genome parent1)) (genes (genome parent2));
            fitness := 0; age := 0 |};
       ontogeneticState := createInitialState |} in
  let newGrip := recalculateGrip child in
  assign_bSeries_grip (bSeries child) newGrip;;
  mret {| domain := domain child; order := order child; trees := trees child;
          coefficients := coefficients child; grip := newGrip;
          bSeries := bSeries child; metadata := metadata child;
          genome := genome child; ontogeneticState := ontogeneticState child |}.

Definition crossover (parent1 parent2 : OntogeneticKernel) : M (list OntogeneticKernel) :=
  r ← Math_random;
  let point := Qfloor (r * inject_Z (len (coefficients parent1))) in
  let offspring1Coeffs :=
    slice (coefficients parent1) 0 point ++ slice_from (coefficients parent2) point in
  let offspring2Coeffs :=
    slice (coefficients parent2) 0 point ++ slice_from (coefficients parent1) point in
  offspring1 ← createOffspring parent1 parent2 offspring1Coeffs;
  offspring2 ← createOffspring parent1 parent2 offspring2Coeffs;
  mret [offspring1; offspring2].

(** [mutate(kernel)].  When [idx] is not an index of the copied array,
    [oldValue] is [undefined] and the source stores [NaN].  The mutant
    of the source shares the genome object and the history array of
    [kernel]; here it has their contents at the time of the call. *)
Definition mutate (kernel : OntogeneticKernel) : M OntogeneticKernel :=
  r ← Math_random;
  let idx := Qfloor (r * inject_Z (len (coefficients kernel))) in
  match array_get (coefficients kernel) idx with
  | None => abort NaNOperand
  | Some old =>
      r' ← Math_random;
      let mutation := ((r' - 0.5) * 0.2)%Q in
      let coeffs := <[Z.to_nat idx := (old + mutation)%Q]> (coefficients kernel) in
      t ← Date_now;
      let record :=
        {| mr_timestamp := t; geneIndex := idx; oldValue := old;
           newValue := (old + mutation)%Q; impact := mutation |} in
      let st := ontogeneticState kernel in
      let mutated :=
        {| domain := domain kernel; order := order kernel; trees := trees kernel;
           coefficients := coeffs; grip := grip kernel;
           bSeries := bSeries kernel; metadata := metadata kernel;
           genome := genome kernel;
           ontogeneticState :=
             {| stage := stage st; maturity := maturity st;
                reproductiveCapability := reproductiveCapability st;
                mutations := mutations st ++ [record];
                developmentHistory := developmentHistory st |} |} in
      let newGrip := recalculateGrip mutated in
      assign_bSeries_grip (bSeries mutated) newGrip;;
      mret {| domain := domain mutated; order := order mutated; trees := trees mutated;
              coefficients := coefficients mutated; grip := newGrip;
              bSeries := bSeries mutated; metadata := metadata mutated;
              genome := genome mutated;
              ontogeneticState := ontogeneticState mutated |}
  end.

Definition clone (kernel : OntogeneticKernel) : M OntogeneticKernel :=
  i ← generateId;
  let g := genome kernel in
  mret {| domain := domain kernel; order := order kernel; trees := trees kernel;
          coefficients := coefficients kernel; grip := grip kernel;
          bSeries := bSeries kernel; metadata := metadata kernel;
          genome := {| id := i; generation := generation g + 1;
                       lineage := [id g]; genes := genes g;
                       fitness := fitness g; age := 0 |};
          ontogeneticState := createInitialState |}.

Definition selfReproduce (parent1 parent2 : OntogeneticKernel)
    (method : ReproductionMethod) : M ReproductionResult :=
  children ←
    match method with
    | crossover_method => crossover parent1 parent2
    | mutation_method =>
        m1 ← mutate parent1; m2 ← mutate parent2; mret [m1; m2]
    | cloning_method => c ← clone parent1; mret [c]
    end;
  mret {| parents := (parent1, parent2); offspring := children; method := method |}.

Definition calculateFitness (kernel : OntogeneticKernel) (scores : option Scores) : Q :=
  let scores :=
    match scores with
    | Some s => s
    | None =>
        {| score_grip := overall (grip kernel);
           score_stability := stability (grip kernel);
           score_efficiency := efficiency (grip kernel);
           score_novelty := 0.5; score_symmetry := 0.5 |}
    end in
  (score_grip scores * 0.4 + score_stability scores * 0.2 +
   score_efficiency scores * 0.2 + score_novelty scores * 0.1 +
   score_symmetry scores * 0.1)%Q.

(** [k2.coefficients[i] || 0] is 0 for a missing entry. *)
Definition geneticDistance (k1 k2 : OntogeneticKernel) : Q :=
  let coeffDiff := imap (fun i c =>
    Qabs (c - match coefficients k2 !! i with Some c2 => c2 | None => 0 end)%Q)
    (coefficients k1) in
  (Qsum coeffDiff / inject_Z (len coeffDiff))%Q.

Definition calculateNovelty (kernel : OntogeneticKernel)
    (population : list OntogeneticKernel) : Q :=
  let distances :=
    List.map (geneticDistance kernel)
      (List.filter (fun k => negb (id_eqb (id (genome k)) (id (genome kernel))))
                   population) in
  match distances with
  | [] => 1.0%Q
  | _ => Qmin 1.0 (Qsum distances / inject_Z (len distances))
  end.

Definition evaluateSymmetry (kernel : OntogeneticKernel) : Q :=
  match List.find (fun g => match gene_type g with gene_symmetry => true | _ => false end)
                  (genes (genome kernel)) with
  | None => 0.5%Q
  | Some symmetryGene => expressionStrength symmetryGene
  end.

Definition evaluateFitness (kernels : list OntogeneticKernel) : list FitnessEvaluation :=
  imap (fun rank kernel =>
    let scores :=
      {| score_grip := overall (grip kernel);
         score_stability := stability (grip kernel);
         score_efficiency := efficiency (grip kernel);
         score_novelty := calculateNovelty kernel kernels;
         score_symmetry := evaluateSymmetry kernel |} in
    {| fe_kernel := kernel; fe_scores := scores;
       fe_overall := calculateFitness kernel (Some scores);
       fe_rank := Z.of_nat rank |}) kernels.

(** [evaluations.sort((a, b) => b.overall - a.overall)].  The sort of
    an array is stable, so with this comparator its result is the one
    of any stable sort by decreasing [overall]: here insertion from the
    right, an entry going in front of those that are not above it. *)
Fixpoint insert_by_overall (x : FitnessEvaluation) (l : list FitnessEvaluation)
  : list FitnessEvaluation :=
  match l with
  | [] => [x]
  | y :: rest =>
      if Qle_bool (fe_overall y) (fe_overall x) then x :: y :: rest
      else y :: insert_by_overall x rest
  end.

Definition sort_by_overall (l : list FitnessEvaluation) : list FitnessEvaluation :=
  fold_right insert_by_overall [] l.

(** The [for] loop of [tournamentSelect]: [evaluations[idx]] may be
    [undefined]. *)
Fixpoint drawTournament (size : nat) (evaluations : list FitnessEvaluation)
  : M (list (option FitnessEvaluation)) :=
  match size with
  | O => mret []
  | S size' =>
      r ← Math_random;
      let idx := Qfloor (r * inject_Z (len evaluations)) in
      rest ← drawTournament size' evaluations;
      mret (array_get evaluations idx :: rest)
  end.

(** [tournament.reduce((best, curr) => curr.overall > best.overall ? curr : best)]:
    a [TypeError] on an empty array, and when the callback reads
    [overall] of [undefined]. *)
Definition reduceBest (tournament : list (option FitnessEvaluation))
  : M (option FitnessEvaluation) :=
  match tournament with
  | [] => abort TypeError
  | first :: rest =>
      fold_left (fun acc curr =>
        best ← acc;
        match curr, best with
        | Some c, Some b =>
            mret (Some (if Qltb (fe_overall b) (fe_overall c) then c else b))
        | _, _ => abort TypeError
        end) rest (mret first)
  end.

Definition tournamentSelect (evaluations : list FitnessEvaluation) (tournamentSize : Z)
  : M (option FitnessEvaluation) :=
  tournament ← drawTournament (Z.to_nat tournamentSize) evaluations;
  reduceBest tournament.

(** [parent.kernel]: a [TypeError] when [parent] is [undefined]. *)
Definition kernelOf (parent : option FitnessEvaluation) : M OntogeneticKernel :=
  match parent with
  | Some e => mret (fe_kernel e)
  | None => abort TypeError
  end.

Definition stage_name (s : DevelopmentStage) : string :=
  match s with
  | embryonic => "embryonic" | juvenile => "juvenile"
  | mature => "mature" | senescent => "senescent"
  end.

Definition stage_eqb (a b : DevelopmentStage) : bool :=
  match a, b with
  | embryonic, embryonic | juvenile, juvenile
  | mature, mature | senescent, senescent => true
  | _, _ => false
  end.

(** [updateDevelopmentStage(kernel)] at time [now], returning the
    kernel as the call leaves it: the source writes the age, the stage,
    the capability and the history in place, into objects that other
    kernels may share. *)
Definition updateDevelopmentStage (now : Z) (kernel : OntogeneticKernel)
  : OntogeneticKernel :=
  let g := genome kernel in
  let st := ontogeneticState kernel in
  let age := (age g + 1)%Z in
  let maturity := maturity st in
  let '(newStage, capability) :=
    if Qgeb maturity 0.8 && (5 <=? age)%Z then (mature, 1.0%Q)
    else if Qgeb maturity 0.5 && (3 <=? age)%Z then (juvenile, 0.5%Q)
    else if (20 <=? age)%Z then (senescent, 0.2%Q)
    else (stage st, reproductiveCapability st) in
  let history :=
    if negb (stage_eqb newStage (stage st)) then
      developmentHistory st ++
      [ {| ev_timestamp := now; ev_type := ev_stage_transition;
           description := "Transitioned to " +:+ stage_name newStage;
           fitnessChange := 0 |} ]
    else developmentHistory st in
  {| domain := domain kernel; order := order kernel; trees := trees kernel;
     coefficients := coefficients kernel; grip := grip kernel;
     bSeries := bSeries kernel; metadata := metadata kernel;
     genome := {| id := id g; generation := generation g; lineage := lineage g;
                  genes := genes g; fitness := fitness g; age := age |};
     ontogeneticState :=
       {| stage := newStage; maturity := maturity;
          reproductiveCapability := capability;
          mutations := mutations st; developmentHistory := history |} |}.

(** The pairs [(population[i], population[j])], [i < j], in the order
    of the two nested loops. *)
Fixpoint pairs (population : list OntogeneticKernel)
  : list (OntogeneticKernel * OntogeneticKernel) :=
  match population with
  | [] => []
  | k :: rest => List.map (pair k) rest ++ pairs rest
  end.

Definition calculateDiversity (population : list OntogeneticKernel) : Q :=
  if (len population <? 2)%Z then 0%Q
  else
    let compared := pairs population in
    let totalDistance :=
      fold_left (fun total ij => total + geneticDistance (fst ij) (snd ij))%Q compared 0%Q in
    let comparisons := len compared in
    if (0 <? comparisons)%Z then (totalDistance / inject_Z comparisons)%Q else 0%Q.

(** [Math.max(...fitness)]. *)
Definition Math_max (l : list Q) : option Q :=
  match l with
  | [] => None
  | a :: rest => Some (fold_left Qmax rest a)
  end.

(** The [while] loop of [evolve].  Every pass appends at least one
    kernel, so [populationSize - eliteCount] passes are enough. *)
Fixpoint evolveLoop (fuel : nat) (sorted : list FitnessEvaluation)
    (params : EvolutionParameters) (eliteCount : Z)
    (children : list OntogeneticKernel) : M (list OntogeneticKernel) :=
  if (len children <? populationSize params - eliteCount)%Z then
    match fuel with
    | O => abort OutOfFuel
    | S fuel' =>
        parent1 ← tournamentSelect sorted 3;
        parent2 ← tournamentSelect sorted 3;
        r ← Math_random;
        children ←
          (if Qltb r (crossoverRate params) then
             p1 ← kernelOf parent1;
             p2 ← kernelOf parent2;
             result ← selfReproduce p1 p2 crossover_method;
             mret (children ++ offspring result)
           else
             p1 ← kernelOf parent1;
             c ← clone p1;
             mret (children ++ [c]));
        r' ← Math_random;
        children ←
          (if Qltb r' (mutationRate params) then
             match last children with
             | Some final =>
                 m ← mutate final;
                 mret (<[(length children - 1)%nat := m]> children)
             | None => abort TypeError
             end
           else mret children);
        evolveLoop fuel' sorted params eliteCount children
    end
  else mret children.

(** [evolve(population, params)].  [forEach(updateDevelopmentStage)] is
    the map over the next generation: each individual is updated once.
    Individuals of the source that share a genome object or a history
    array (a mutant of [initializePopulation] and its founder) have one
    age and one history between them, which every update of a sharer
    writes; the map is what the source does to the individuals that
    share neither. *)
Definition evolve (population : KernelPopulation) (params : EvolutionParameters)
  : M KernelPopulation :=
  let evaluations := evaluateFitness (individuals population) in
  let sorted := sort_by_overall evaluations in
  let eliteCount := Qfloor (inject_Z (populationSize params) * elitismRate params) in
  let elite := List.map fe_kernel (slice sorted 0 eliteCount) in
  children ← evolveLoop (Z.to_nat (populationSize params - eliteCount))
                        sorted params eliteCount [];
  let nextGeneration := slice (elite ++ children) 0 (populationSize params) in
  t ← Date_now;
  let nextGeneration := List.map (updateDevelopmentStage t) nextGeneration in
  let fitness := List.map (fun k => calculateFitness k None) nextGeneration in
  let avgFitness := (Qsum fitness / inject_Z (len fitness))%Q in
  mret {| pop_generation := pop_generation population + 1;
          individuals := nextGeneration;
          pop_populationSize := len nextGeneration;
          averageFitness := avgFitness;
          bestFitness := Math_max fitness;
          diversity := calculateDiversity nextGeneration |}.

End OntogenesisEngine.

(** ** Data for running the functions *)

(** A rational [MathLib]: the square root to six decimals, [exp] and
    [sin] by their series up to the ninth power. *)
Definition sqrt6 (x : Q) : Q :=
  Z.sqrt (Qfloor (x * 1000000000000)) # 1000000.

Definition series (terms : list Q) (x : Q) : Q :=
  fold_right (fun c acc => c + x * acc)%Q 0%Q terms.

Definition approxMath : MathLib :=
  {| Math_sqrt := sqrt6;
     Math_exp := series (List.map (fun k => 1 / inject_Z (Z.of_nat (fact k)))%Q (seq 0 10));
     Math_sin := series [0; 1; 0; -(1 # 6); 0; 1 # 120; 0; -(1 # 5040); 0; 1 # 362880]%Q;
     Math_PI := 3.141592653589793 |}.

(** The sequence as the specification lists it for [n = 0..14]. *)
Definition spec_sequence : list Z :=
  [1; 1; 1; 2; 4; 9; 20; 48; 115; 286; 719; 1842; 4766; 12486; 32973]%Z.

Definition unitDomain : DomainSpecification :=
  {| dom_type := computing; dom_order := 1; dom_treeType := "recursion";
     dom_symmetry := "Church-Rosser"; dom_preserves := ["termination"] |}.

Definition halfGrip : GripMetric :=
  {| contact := 0.5; coverage := 0.5; efficiency := 0.5; stability := 0.5; overall := 0.5 |}.

Definition halfExpansion : BSeriesExpansion :=
  BSeriesEngine.generateExpansion unitDomain halfGrip.

(** An individual with the given coefficients, id, expansion reference,
    maturity, stage and age; its grip is [halfGrip]. *)
Definition individual (coeffs : list Q) (i : KernelId) (l : nat)
    (m : Q) (s : DevelopmentStage) (a : Z) : OntogeneticKernel :=
  {| domain := unitDomain; order := 1;
     trees := ElementaryDifferentialsGenerator.generate 1;
     coefficients := coeffs; grip := halfGrip; bSeries := l;
     metadata := UniversalKernelGenerator.fresh_metadata 0;
     genome := {| id := i; generation := 0; lineage := []; genes := [];
                  fitness := 0.5; age := a |};
     ontogeneticState :=
       {| stage := s; maturity := m; reproductiveCapability := 0.0;
          mutations := []; developmentHistory := [] |} |}.

(** A world with two expansion objects, at 0 and 1, in which every call
    of [Math.random()] returns [r]. *)
Definition constantWorld (r : Q) : World :=
  {| heap := {[ 0%nat := halfExpansion; 1%nat := halfExpansion ]};
     random_source := fun _ => r; drawn := 0; clock := 0; operationHistory := [] |}.

(** The order of the stages along embryonic, juvenile, mature,
    senescent, as the specification draws it. *)
Definition stage_rank (s : DevelopmentStage) : nat :=
  match s with embryonic => 0 | juvenile => 1 | mature => 2 | senescent => 3 end.

Definition stage_le (a b : DevelopmentStage) : Prop := (stage_rank a <= stage_rank b)%nat.

(** [child] is [parent] with one coefficient moved by a step [d] in
    [-0.1, 0.1) and the record of that mutation added to its log. *)
Definition mutated_from (parent child : OntogeneticKernel) : Prop :=
  ∃ (idx : nat) (old d : Q) (t : Z),
    coefficients parent !! idx = Some old ∧
    (- 0.1 <= d)%Q ∧ (d < 0.1)%Q ∧
    coefficients child = <[idx := (old + d)%Q]> (coefficients parent) ∧
    length (coefficients child) = length (coefficients parent) ∧
    (∀ j : nat, j ≠ idx → coefficients child !! j = coefficients parent !! j) ∧
    coefficients child !! idx = Some (old + d)%Q ∧
    mutations (ontogeneticState child) =
      mutations (ontogeneticState parent) ++
      [ {| mr_timestamp := t; geneIndex := Z.of_nat idx; oldValue := old;
           newValue := (old + d)%Q; impact := d |} ].

(** [kernel.bSeries.grip] in a world. *)
Definition bSeriesGrip (kernel : OntogeneticKernel) (w : World) : option GripMetric :=
  bs_grip <$> heap w !! bSeries kernel.

Definition populationOf (kernels : list OntogeneticKernel) : KernelPopulation :=
  {| pop_generation := 0; individuals := kernels; pop_populationSize := len kernels;
     averageFitness := 0.5; bestFitness := Some 0.5%Q; diversity := 0 |}.

(** Parameters with the three rates given and a population size. *)
Definition parametersOf (size : Z) (mutation crossing elitism : Q) : EvolutionParameters :=
  {| populationSize := size; mutationRate := mutation; crossoverRate := crossing;
     elitismRate := elitism; maxGenerations := 1; fitnessThreshold := 1;
     diversityPressure := 0 |}.

(** ** Well-formed worlds and kernels *)

(** Every draw of [Math.random()] is in [0, 1). *)
Definition random_in_unit (w : World) : Prop :=
  ∀ n, (0 <= random_source w n ∧ random_source w n < 1)%Q.

(** A kernel as the generator makes them: it has coefficients, and its
    expansion exists. *)
Definition usable (w : World) (kernel : OntogeneticKernel) : Prop :=
  coefficients kernel ≠ [] ∧ is_Some (heap w !! bSeries kernel).

(** [w'] has the random source and the expansion objects of [w]; the
    contents of the objects may differ. *)
Definition same_objects (w w' : World) : Prop :=
  random_source w' = random_source w ∧
  ∀ l, is_Some (heap w' !! l) ↔ is_Some (heap w !! l).

(** ** Further functions of the generator classes *)

(** The sum of the entries of a row of a tableau. *)
Definition rowSum (row : list Q) : Q := fold_right Qplus 0%Q row.

(** *** ElementaryDifferentialsGenerator: relabelling *)

Module Relabeling.

(** [label.replace(/f/g, baseLabel)]. *)
Fixpoint replace_f (baseLabel : string) (label : string) : string :=
  match label with
  | EmptyString => EmptyString
  | String c rest =>
      if Ascii.eqb c "f"%char then baseLabel +:+ replace_f baseLabel rest
      else String c (replace_f baseLabel rest)
  end.

(** [domainLabels[domain]]; the five keys are the values of the type
    [DomainType], so the fallback ['f'] is not taken. *)
Definition domainLabels (domain : DomainType) : string :=
  match domain with
  | physics => "H"
  | chemistry => "R"
  | biology => "M"
  | computing => "λ"
  | consciousness => "Ψ"
  end.

Fixpoint relabelForDomain (tree : RootedTree) (domain : DomainType) : RootedTree :=
  match tree with
  | mkTree order label children =>
      mkTree order (replace_f (domainLabels domain) label)
             (List.map (fun child => relabelForDomain child domain) children)
  end.

Definition generateDomainSpecific (domain : DomainType) (order : Z) : list RootedTree :=
  List.map (fun tree => relabelForDomain tree domain)
           (ElementaryDifferentialsGenerator.generate order).

(** Whether the letter f occurs in a label. *)
Fixpoint has_f (label : string) : bool :=
  match label with
  | EmptyString => false
  | String c rest => Ascii.eqb c "f"%char || has_f rest
  end.

(** All labels of a tree, the root's first. *)
Fixpoint labels (tree : RootedTree) : list string :=
  match tree with
  | mkTree _ label children => label :: flat_map labels children
  end.

End Relabeling.

(** *** DomainAnalyzer (domain-analyzer.ts) *)

Module DomainAnalyzer.

(** [validTreeTypes[domain.type]]. *)
Definition validTreeTypes (type : DomainType) : list string :=
  match type with
  | physics => ["hamiltonian"]
  | chemistry => ["reaction"]
  | biology => ["metabolic"]
  | computing => ["recursion"]
  | consciousness => ["echo"]
  end.

(** [validateDomain(domain)].  The first loop looks the type up among
    the five valid ones, which are the values of [DomainType]. *)
Definition validateDomain (domain : DomainSpecification) : bool :=
  if (dom_order domain <? 1)%Z || (10 <? dom_order domain)%Z then false
  else existsb (fun allowed => String.eqb allowed (dom_treeType domain))
               (validTreeTypes (dom_type domain)).

End DomainAnalyzer.

(** *** GripOptimizer: gradient ascent (grip-optimizer.ts) *)

Class MathPow := { Math_pow : Q → Q → Q }.

Record OptimizationResult := {
  opt_coefficients : list Q;
  opt_grip : GripMetric;
  opt_iterations : Z
}.

Module GradientAscent.
Section WithMath.
Context `{MathLib} `{MathPow}.

(** The central difference of [overall] in every coordinate. *)
Definition computeGradient (coeffs : list Q) (domain : DomainSpecification) : list Q :=
  let epsilon := 1e-8%Q in
  imap (fun i c =>
    let coeffsPlus := <[i := (c + epsilon)%Q]> coeffs in
    let gripPlus := GripOptimizer.measureGrip coeffsPlus domain in
    let coeffsMinus := <[i := (c - epsilon)%Q]> coeffs in
    let gripMinus := GripOptimizer.measureGrip coeffsMinus domain in
    ((overall gripPlus - overall gripMinus) / (2 * epsilon))%Q) coeffs.

(** [coeffs.map((c, i) => c + learningRate * gradient[i])]; the gradient
    that [optimize] passes has one entry per coefficient. *)
Definition gradientAscentStep (coeffs gradient : list Q) (learningRate : Q) : list Q :=
  zip_with (fun c g => c + learningRate * g)%Q coeffs gradient.

Definition adaptiveLearningRate (iteration maxIterations : Z) : Q :=
  let initialRate := 0.1%Q in
  let decayRate := 0.95%Q in
  (initialRate * Math_pow decayRate (inject_Z iteration / 10))%Q.

(** The [while] loop of [optimize]: a pass adds one to [iteration], so
    [maxIterations] passes are the most there are. *)
Fixpoint optimizeLoop (fuel : nat) (domain : DomainSpecification)
    (maxIterations : Z) (tolerance : Q)
    (currentCoeffs : list Q) (currentGrip : GripMetric) (iteration : Z)
  : OptimizationResult :=
  let result :=
    {| opt_coefficients := currentCoeffs; opt_grip := currentGrip;
       opt_iterations := iteration |} in
  if (iteration <? maxIterations)%Z then
    match fuel with
    | O => result
    | S fuel' =>
        let gradient := computeGradient currentCoeffs domain in
        let gradientNorm := GripOptimizer.vectorNorm gradient in
        if Qltb gradientNorm tolerance then result
        else
          let learningRate := adaptiveLearningRate iteration maxIterations in
          let coeffs := gradientAscentStep currentCoeffs gradient learningRate in
          let grip := GripOptimizer.measureGrip coeffs domain in
          optimizeLoop fuel' domain maxIterations tolerance coeffs grip (iteration + 1)
    end
  else result.

Definition optimize (expansion : BSeriesExpansion) (maxIterations : Z) (tolerance : Q)
  : OptimizationResult :=
  optimizeLoop (Z.to_nat maxIterations) (bs_domain expansion) maxIterations tolerance
    (List.map term_coefficient (bs_terms expansion)) (bs_grip expansion) 0.

(** [optimize(expansion)] with the default arguments. *)
Definition optimizeDefault (expansion : BSeriesExpansion) : OptimizationResult :=
  optimize expansion 100 1e-6.

(** The [for] loop of [lineSearch], [passes] passes left. *)
Fixpoint lineSearchLoop (passes : nat) (coeffs direction : list Q)
    (domain : DomainSpecification) (initialGrip stepSize : Q) : Q :=
  match passes with
  | O => stepSize
  | S passes' =>
      let testCoeffs := zip_with (fun c d => c + stepSize * d)%Q coeffs direction in
      let testGrip := overall (GripOptimizer.measureGrip testCoeffs domain) in
      if Qltb initialGrip testGrip then stepSize
      else lineSearchLoop passes' coeffs direction domain initialGrip (stepSize * 0.5)%Q
  end.

Definition lineSearch (coeffs direction : list Q) (domain : DomainSpecification) : Q :=
  lineSearchLoop 10 coeffs direction domain
    (overall (GripOptimizer.measureGrip coeffs domain)) 1.0.

End WithMath.
End GradientAscent.

(** *** UniversalKernelGenerator: generation and verification (generator.ts) *)

(** [GenerationContext]: [initialConditions] and [constraints] are read
    by [DomainAnalyzer.analyzeDomain] only, whose result [generate] does
    not use. *)
Record GenerationContext := {
  ctx_domain : DomainSpecification;
  ctx_optimizationGoal : OptimizationGoal
}.

Module KernelGeneration.
Section WithMath.
Context `{MathLib} `{MathPow}.

(** [generate(context)] at time [now]: the kernel, or the message of the
    [Error] it throws. *)
Definition generate (now : Z) (context : GenerationContext) : GeneratedKernel + string :=
  if negb (DomainAnalyzer.validateDomain (ctx_domain context))
  then inr "Invalid domain specification"
  else
    let trees := ElementaryDifferentialsGenerator.generate (dom_order (ctx_domain context)) in
    let initialGrip :=
      UniversalKernelGenerator.initializeGrip (ctx_optimizationGoal context) in
    let bSeries := BSeriesEngine.generateExpansion (ctx_domain context) initialGrip in
    let optimized := GradientAscent.optimizeDefault bSeries in
    inl {| k_domain := ctx_domain context;
           k_order := dom_order (ctx_domain context);
           k_trees := trees;
           k_coefficients := opt_coefficients optimized;
           k_grip := opt_grip optimized;
           k_bSeries := with_grip (opt_grip optimized) bSeries;
           k_metadata := {| generatedAt := now;
                            version := UniversalKernelGenerator.VERSION;
                            optimizationIterations := opt_iterations optimized |} |}.

Definition physicsContext (order : Z) : GenerationContext :=
  {| ctx_domain := {| dom_type := physics; dom_order := order;
                      dom_treeType := "hamiltonian"; dom_symmetry := "Noether";
                      dom_preserves := ["energy"; "momentum"; "angular-momentum"] |};
     ctx_optimizationGoal := goal_stability |}.

Definition chemistryContext (order : Z) : GenerationContext :=
  {| ctx_domain := {| dom_type := chemistry; dom_order := order;
                      dom_treeType := "reaction"; dom_symmetry := "detailed-balance";
                      dom_preserves := ["mass"; "charge"; "equilibrium"] |};
     ctx_optimizationGoal := accuracy |}.

Definition biologyContext (order : Z) : GenerationContext :=
  {| ctx_domain := {| dom_type := biology; dom_order := order;
                      dom_treeType := "metabolic"; dom_symmetry := "homeostasis";
                      dom_preserves := ["biomass"; "energy"; "fitness"] |};
     ctx_optimizationGoal := balanced |}.

Definition computingContext (order : Z) : GenerationContext :=
  {| ctx_domain := {| dom_type := computing; dom_order := order;
                      dom_treeType := "recursion"; dom_symmetry := "Church-Rosser";
                      dom_preserves := ["termination"; "correctness"; "complexity"] |};
     ctx_optimizationGoal := speed |}.

Definition consciousnessContext (order : Z) : GenerationContext :=
  {| ctx_domain := {| dom_type := consciousness; dom_order := order;
                      dom_treeType := "echo"; dom_symmetry := "self-reference";
                      dom_preserves := ["identity"; "coherence"; "gestalt"] |};
     ctx_optimizationGoal := balanced |}.

(** The five presets; the source gives [order] the default 4, 3, 3, 4, 4. *)
Definition generatePhysicsKernel (now order : Z) := generate now (physicsContext order).
Definition generateChemistryKernel (now order : Z) := generate now (chemistryContext order).
Definition generateBiologyKernel (now order : Z) := generate now (biologyContext order).
Definition generateComputingKernel (now order : Z) := generate now (computingContext order).
Definition generateConsciousnessKernel (now order : Z) :=
  generate now (consciousnessContext order).

End WithMath.

Definition verify (kernel : GeneratedKernel) : bool :=
  if negb (BSeriesEngine.verifyOrderConditions (k_bSeries kernel)) then false
  else if negb (GripOptimizer.isSufficientGrip (k_grip kernel) 0.6) then false
  else if negb (DomainAnalyzer.validateDomain (k_domain kernel)) then false
  else true.

End KernelGeneration.

(** *** OntogenesisEngine: optimization, seeding and the run (ontogenesis.ts) *)

Record OntogenesisConfig := {
  evolution : EvolutionParameters;
  (** [seedKernels], an optional field: [None] when it is absent *)
  seedKernels : option (list GeneratedKernel)
}.

(** [w'] has the random source of [w] and at least its expansion
    objects. *)
Definition grows (w w' : World) : Prop :=
  random_source w' = random_source w ∧
  ∀ l, is_Some (heap w !! l) → is_Some (heap w' !! l).

Module Lifecycle.

Definition getOperationHistory : M (list OntogeneticOperation) :=
  fun w => Ok (operationHistory w) w.

(** [reset()]: the history is emptied; the lineage tree, which no
    function of the engine writes, is empty already. *)
Definition reset : M unit := fun w =>
  Ok tt {| heap := heap w; random_source := random_source w; drawn := drawn w;
           clock := clock w; operationHistory := [] |}.

Section WithMath.
Context `{MathLib} `{MathPow}.

(** The [for] loop of [selfOptimize], [passes] passes left, [i] the
    index of the pass.  [original] is the kernel that was passed in, read
    for the fitness change of the events.  The source writes the new
    maturity and the event into the state object, which [current] shares
    with [original]; the state is returned with [current]. *)
Fixpoint selfOptimizeLoop (passes : nat) (i : Z) (original current : OntogeneticKernel)
  : M OntogeneticKernel :=
  match passes with
  | O => mret current
  | S passes' =>
      expansion ← deref (bSeries current);
      let optimized := GradientAscent.optimizeDefault expansion in
      l ← alloc (with_grip (opt_grip optimized) expansion);
      t ← Date_now;
      let st := ontogeneticState current in
      let md := metadata current in
      selfOptimizeLoop passes' (i + 1) original
        {| domain := domain current; order := order current; trees := trees current;
           coefficients := opt_coefficients optimized;
           grip := opt_grip optimized;
           bSeries := l;
           metadata := {| generatedAt := generatedAt md; version := version md;
                          optimizationIterations := optimizationIterations md + 1 |};
           genome := genome current;
           ontogeneticState :=
             {| stage := stage st;
                maturity := Qmin 1.0 (maturity st + 0.1);
                reproductiveCapability := reproductiveCapability st;
                mutations := mutations st;
                developmentHistory :=
                  developmentHistory st ++
                  [ {| ev_timestamp := t; ev_type := ev_optimization;
                       description := "Self-optimization iteration " +:+ pretty (i + 1)%Z;
                       fitnessChange :=
                         overall (opt_grip optimized) - overall (grip original) |} ] |} |}
  end.

(** [selfOptimize(kernel, iterations)].  The operation recorded has the
    argument as its input, whose state object is the one the loop has
    updated. *)
Definition selfOptimize (kernel : OntogeneticKernel) (iterations : Z)
  : M OntogeneticKernel :=
  current ← selfOptimizeLoop (Z.to_nat iterations) 0 kernel kernel;
  t ← Date_now;
  OntogenesisEngine.recordOperation
    {| op_type := self_optimize;
       op_input :=
         {| domain := domain kernel; order := order kernel; trees := trees kernel;
            coefficients := coefficients kernel; grip := grip kernel;
            bSeries := bSeries kernel; metadata := metadata kernel;
            genome := genome kernel;
            ontogeneticState := ontogeneticState current |};
       op_output := [current]; op_timestamp := t |};;
  mret current.

(** [config.seedKernels.forEach(seed => individuals.push(initialize(seed)))]. *)
Fixpoint initializeSeeds (seeds : list GeneratedKernel) : M (list OntogeneticKernel) :=
  match seeds with
  | [] => mret []
  | seed :: rest =>
      k ← OntogenesisEngine.initialize seed;
      ks ← initializeSeeds rest;
      mret (k :: ks)
  end.

(** The filling loop of [initializePopulation]: a pass adds one
    individual.  [mutate(parent)] with [parent] [undefined] is a
    [TypeError]; the preset of order 4 is valid, so the error of
    [generate] does not occur. *)
Fixpoint fillPopulation (fuel : nat) (size : Z) (population : list OntogeneticKernel)
  : M (list OntogeneticKernel) :=
  if (len population <? size)%Z then
    match fuel with
    | O => abort OutOfFuel
    | S fuel' =>
        added ←
          (if (0 <? len population)%Z then
             r ← Math_random;
             match array_get population (Qfloor (r * inject_Z (len population))) with
             | Some parent => OntogenesisEngine.mutate parent
             | None => abort TypeError
             end
           else
             t ← Date_now;
             match KernelGeneration.generateConsciousnessKernel t 4 with
             | inl randomKernel => OntogenesisEngine.initialize randomKernel
             | inr _ => abort TypeError
             end);
        fillPopulation fuel' size (population ++ [added])
    end
  else mret population.

Definition initializePopulation (config : OntogenesisConfig) : M KernelPopulation :=
  seeded ←
    match seedKernels config with
    | Some (seed :: rest) => initializeSeeds (seed :: rest)
    | _ => mret []
    end;
  let size := populationSize (evolution config) in
  population ← fillPopulation (Z.to_nat (size - len seeded)) size seeded;
  let fitness := List.map (fun k => OntogenesisEngine.calculateFitness k None) population in
  mret {| pop_generation := 0;
          individuals := population;
          pop_populationSize := len population;
          averageFitness := (Qsum fitness / inject_Z (len fitness))%Q;
          bestFitness := OntogenesisEngine.Math_max fitness;
          diversity := OntogenesisEngine.calculateDiversity population |}.

(** [population.bestFitness >= threshold]; the best fitness of an empty
    generation, [-Infinity], is below every threshold. *)
Definition reached (population : KernelPopulation) (threshold : Q) : bool :=
  match bestFitness population with
  | Some best => Qgeb best threshold
  | None => false
  end.

(** The [for] loop of [runOntogenesis], [passes] generations left. *)
Fixpoint runLoop (passes : nat) (params : EvolutionParameters)
    (population : KernelPopulation) (generations : list KernelPopulation)
  : M (list KernelPopulation) :=
  match passes with
  | O => mret generations
  | S passes' =>
      next ← OntogenesisEngine.evolve population params;
      if reached next (fitnessThreshold params) then mret (generations ++ [next])
      else runLoop passes' params next (generations ++ [next])
  end.

Definition runOntogenesis (config : OntogenesisConfig) : M (list KernelPopulation) :=
  population ← initializePopulation config;
  runLoop (Z.to_nat (maxGenerations (evolution config))) (evolution config)
          population [population].

End WithMath.
End Lifecycle.

(** A rational [MathPow] for running the optimizer: the power with the
    exponent rounded down. *)
Definition stepPow : MathPow := {| Math_pow := fun x y => Qpower x (Qfloor y) |}.

(** [n] times [selfGenerate], each on the offspring of the one before. *)
Fixpoint descend (n : nat) (parent : OntogeneticKernel) : M OntogeneticKernel :=
  match n with
  | O => mret parent
  | S n' => child ← OntogenesisEngine.selfGenerate parent; descend n' child
  end.

(** The operations of a list recorded one after the other. *)
Fixpoint recordAll (operations : list OntogeneticOperation) : M unit :=
  match operations with
  | [] => mret tt
  | operation :: rest =>
      OntogenesisEngine.recordOperation operation;; recordAll rest
  end.

(** What [mutate] makes of [parent] when [Math.random()] returns [r] for
    the index and then [r'] for the step, at the time [t]: the
    coefficient at the index [floor(r * length)] has moved by
    [(r' - 0.5) * 0.2], every other coefficient is the parent's, and the
    record of the mutation is the last of the log. *)
Definition mutated_by (r r' : Q) (t : Z) (parent child : OntogeneticKernel) : Prop :=
  let index := Qfloor (r * inject_Z (len (coefficients parent))) in
  let d := ((r' - 0.5) * 0.2)%Q in
  (0 <= index < len (coefficients parent))%Z ∧
  (- 0.1 <= d)%Q ∧ (d < 0.1)%Q ∧
  ∃ old : Q,
    coefficients parent !! Z.to_nat index = Some old ∧
    coefficients child = <[Z.to_nat index := (old + d)%Q]> (coefficients parent) ∧
    length (coefficients child) = length (coefficients parent) ∧
    (∀ j : nat, j ≠ Z.to_nat index →
       coefficients child !! j = coefficients parent !! j) ∧
    coefficients child !! Z.to_nat index = Some (old + d)%Q ∧
    (¬ (d == 0)%Q → ¬ (old + d == old)%Q) ∧
    mutations (ontogeneticState child) =
      mutations (ontogeneticState parent) ++
      [ {| mr_timestamp := t; geneIndex := index; oldValue := old;
           newValue := (old + d)%Q; impact := d |} ].

(** The stage of an individual agrees with its maturity and age when the
    test that sets this stage in [updateDevelopmentStage] holds of them.
    Maturity and age only grow, so a stage set by its test keeps
    agreeing. *)
Definition stage_agrees (kernel : OntogeneticKernel) : Prop :=
  match stage (ontogeneticState kernel) with
  | mature =>
      (0.8 <= maturity (ontogeneticState kernel))%Q ∧ (5 <= age (genome kernel))%Z
  | juvenile =>
      (0.5 <= maturity (ontogeneticState kernel))%Q ∧ (3 <= age (genome kernel))%Z
  | _ => True
  end.

(** A world in which the calls of [Math.random()] return the numbers of
    [draws] in turn, and 0 after them. *)
Definition drawingWorld (draws : list Q) : World :=
  {| heap := {[ 0%nat := halfExpansion; 1%nat := halfExpansion ]};
     random_source := fun n => nth n draws 0%Q;
     drawn := 0; clock := 0; operationHistory := [] |}.

(** An evaluation of the given [overall]. *)
Definition evaluationOf (kernel : OntogeneticKernel) (value : Q) : FitnessEvaluation :=
  {| fe_kernel := kernel;
     fe_scores := {| score_grip := value; score_stability := value;
                     score_efficiency := value; score_novelty := value;
                     score_symmetry := value |};
     fe_overall := value; fe_rank := 0 |}.

(** The Runge-Kutta kernel of order 4 as a mature individual, and a
    world that holds its expansion at 0. *)
Definition rungeKuttaIndividual : OntogeneticKernel :=
  let kernel := UniversalKernelGenerator.generateRungeKutta 0 4 in
  {| domain := k_domain kernel; order := k_order kernel; trees := k_trees kernel;
     coefficients := k_coefficients kernel; grip := k_grip kernel; bSeries := 0;
     metadata := k_metadata kernel;
     genome := {| id := (0%Z, 0.5%Q); generation := 0; lineage := []; genes := [];
                  fitness := overall (k_grip kernel); age := 7 |};
     ontogeneticState :=
       {| stage := mature; maturity := 0.9; reproductiveCapability := 1.0;
          mutations := []; developmentHistory := [] |} |}.

Definition rungeKuttaWorld : World :=
  {| heap := {[ 0%nat := k_bSeries (UniversalKernelGenerator.generateRungeKutta 0 4) ]};
     random_source := fun _ => 0.5%Q; drawn := 0; clock := 0; operationHistory := [] |}.


(** Two grips with equal numbers in every component. *)
Definition grip_eq (a b : GripMetric) : Prop :=
  (contact a == contact b)%Q ∧ (coverage a == coverage b)%Q ∧
  (efficiency a == efficiency b)%Q ∧ (stability a == stability b)%Q ∧
  (overall a == overall b)%Q.

(** * Properties *)

(** ** The helpers *)

(** [factorial] is the recursion of the source. *)
Lemma factorial_unfold (n : Z) :
  factorial n = if (n <=? 1)%Z then 1%Z else (n * factorial (n - 1))%Z.
Proof.
  unfold factorial.
  destruct (Z.leb_spec n 1) as [Hn | Hn]; [reflexivity |].
  destruct (Z.leb_spec (n - 1) 1) as [Hm | Hm].
  - assert (n = 2%Z) as -> by lia. reflexivity.
  - replace (Z.to_nat n) with (S (Z.to_nat (n - 1))) by lia.
    cbn [fact]. rewrite Nat2Z.inj_mul. f_equal. lia.
Qed.

Lemma len_nonneg {A} (l : list A) : (0 <= len l)%Z.
Proof. unfold len. lia. Qed.

Lemma slice_index_range {A} (l : list A) (i : Z) : (slice_index l i <= length l)%nat.
Proof.
  unfold slice_index, len. destruct (Z.ltb_spec i 0); lia.
Qed.

Lemma slice_length_prefix {A} (l : list A) (stop : Z) :
  (0 <= stop)%Z → length (slice l 0 stop) = Nat.min (Z.to_nat stop) (length l).
Proof.
  intros Hs. unfold slice.
  assert (slice_index l 0 = 0%nat) as ->
    by (unfold slice_index, len; simpl; lia).
  assert (slice_index l stop = Nat.min (Z.to_nat stop) (length l)) as ->
    by (unfold slice_index, len; destruct (Z.ltb_spec stop 0); lia).
  rewrite length_take, drop_0. lia.
Qed.

(** ** Tree enumeration: the fuel is enough *)

Lemma range_bounds (lo hi x : Z) : In x (range lo hi) → (lo <= x <= hi)%Z.
Proof.
  unfold range. intros Hin. apply in_map_iff in Hin as (k & <- & Hk).
  apply in_seq in Hk. lia.
Qed.

Lemma generatePartitions_parts (fuel : nat) (n : Z) (part : list Z) (p : Z) :
  In part (ElementaryDifferentialsGenerator.generatePartitions_fuel fuel n) →
  In p part → (1 <= p <= n)%Z.
Proof.
  revert n part p. induction fuel as [| fuel IH]; intros n part p Hpart Hp; simpl in Hpart.
  - destruct (Z.eqb_spec n 0) as [-> | _].
    + destruct Hpart as [<- | []]. destruct Hp.
    + destruct (Z.eqb_spec n 1) as [-> | _]; [| destruct Hpart].
      destruct Hpart as [<- | []]. destruct Hp as [<- | []]. lia.
  - destruct (Z.eqb_spec n 0) as [-> | _].
    + destruct Hpart as [<- | []]. destruct Hp.
    + destruct (Z.eqb_spec n 1) as [-> | _].
      * destruct Hpart as [<- | []]. destruct Hp as [<- | []]. lia.
      * apply in_flat_map in Hpart as (i & Hi & Hpart). apply range_bounds in Hi.
        destruct (Z.eqb_spec (n - i) 0) as [_ | _].
        -- destruct Hpart as [<- | []]. destruct Hp as [<- | []]. lia.
        -- apply in_flat_map in Hpart as (sub & Hsub & Hpart).
           assert (Hin : In p (i :: sub)).
           { destruct sub as [| s0 rest].
             - destruct Hpart as [<- | []]. exact Hp.
             - destruct (i <=? s0)%Z; [| destruct Hpart].
               destruct Hpart as [<- | []]. exact Hp. }
           destruct Hin as [<- | Hin]; [lia |].
           specialize (IH _ _ _ Hsub Hin). lia.
Qed.

Lemma flat_map_agree {A B} (f g : A → list B) (l : list A) :
  (∀ a, In a l → f a = g a) → flat_map f l = flat_map g l.
Proof.
  induction l as [| a l IH]; intros Hfg; simpl; [reflexivity |].
  rewrite Hfg by (left; reflexivity). rewrite IH; [reflexivity |].
  intros b Hb. apply Hfg. right. exact Hb.
Qed.

(** With at least [order] units of fuel the result of [generate_fuel]
    does not depend on the fuel: [generate] never runs out. *)
Lemma generate_fuel_enough (f1 f2 : nat) (order : Z) :
  (Z.to_nat order <= f1)%nat → (Z.to_nat order <= f2)%nat →
  ElementaryDifferentialsGenerator.generate_fuel f1 order
  = ElementaryDifferentialsGenerator.generate_fuel f2 order.
Proof.
  revert f2 order. induction f1 as [| f1 IH]; intros f2 order H1 H2.
  - assert (order <= 0)%Z by lia.
    destruct f2; simpl; destruct (Z.leb_spec order 0); first [reflexivity | lia].
  - destruct f2 as [| f2].
    + assert (order <= 0)%Z by lia.
      simpl; destruct (Z.leb_spec order 0); first [reflexivity | lia].
    + simpl. destruct (order <=? 0)%Z; [reflexivity |].
      destruct (order =? 1)%Z; [reflexivity |].
      destruct (order =? 2)%Z; [reflexivity |].
      destruct (order =? 3)%Z; [reflexivity |].
      destruct (order =? 4)%Z; [reflexivity |].
      apply flat_map_agree. intros partition Hpartition.
      replace (flat_map
                 (fun p => match ElementaryDifferentialsGenerator.generate_fuel f1 p with
                           | [] => []
                           | t :: _ => [t]
                           end) partition)
        with (flat_map
                (fun p => match ElementaryDifferentialsGenerator.generate_fuel f2 p with
                          | [] => []
                          | t :: _ => [t]
                          end) partition); [reflexivity |].
      apply flat_map_agree. intros p Hp.
      pose proof (generatePartitions_parts _ _ _ _ Hpartition Hp) as Hbound.
      rewrite (IH f2 p) by lia. reflexivity.
Qed.

(** Above order 4, [generate] is [generateRecursive]. *)
Lemma generate_above_four (order : Z) :
  (4 < order)%Z →
  ElementaryDifferentialsGenerator.generate order
  = ElementaryDifferentialsGenerator.generateRecursive order.
Proof.
  intros Hlt.
  unfold ElementaryDifferentialsGenerator.generate,
    ElementaryDifferentialsGenerator.generateRecursive.
  destruct (Z.to_nat order) as [| fuel] eqn:Hfuel; [lia |].
  simpl.
  destruct (Z.leb_spec order 0); [lia |].
  destruct (Z.eqb_spec order 1); [lia |].
  destruct (Z.eqb_spec order 2); [lia |].
  destruct (Z.eqb_spec order 3); [lia |].
  destruct (Z.eqb_spec order 4); [lia |].
  apply flat_map_agree. intros partition Hpartition.
  replace (flat_map
             (fun p => match ElementaryDifferentialsGenerator.generate_fuel fuel p with
                       | [] => []
                       | t :: _ => [t]
                       end) partition)
    with (flat_map
            (fun p => match ElementaryDifferentialsGenerator.generate p with
                      | [] => []
                      | t :: _ => [t]
                      end) partition); [reflexivity |].
  apply flat_map_agree. intros p Hp.
  pose proof (generatePartitions_parts _ _ _ _ Hpartition Hp) as Hbound.
  unfold ElementaryDifferentialsGenerator.generate.
  rewrite (generate_fuel_enough (Z.to_nat p) fuel p) by lia. reflexivity.
Qed.

(** ** Tree enumeration *)

(** C7, as the code has it: the table is exact for every [n] from 1 to
    14 and agrees there with the sequence the specification lists; at
    [n = 0] the table holds 0, where the specification lists 1; above 14
    the result is the floor of [2.9557652856^n / sqrt n]. *)
Theorem count_table_then_asymptotic `{MathLib} (n : Z) :
  ((1 <= n <= 14)%Z →
     ElementaryDifferentialsGenerator.count n = spec_sequence !! Z.to_nat n ∧
     is_Some (ElementaryDifferentialsGenerator.count n)) ∧
  (n = 0%Z → ElementaryDifferentialsGenerator.count n = Some 0%Z) ∧
  ((14 < n)%Z →
     ElementaryDifferentialsGenerator.count n =
     Some (Qfloor (Qpower 2.9557652856 n / Math_sqrt (inject_Z n)))).
Proof.
  unfold ElementaryDifferentialsGenerator.count. split; [| split].
  - intros [Hlo Hhi].
    assert (Hcases : ∃ k : nat, (1 <= k <= 14)%nat ∧ n = Z.of_nat k)
      by (exists (Z.to_nat n); lia).
    destruct Hcases as (k & Hk & ->).
    do 15 (destruct k as [| k]; [first [lia | (split; [reflexivity | eexists; reflexivity])] |]).
    lia.
  - intros ->. reflexivity.
  - intros Hn.
    destruct (Z.ltb_spec n (len ElementaryDifferentialsGenerator.a000081)) as [Hlt | _];
      [| reflexivity].
    unfold len in Hlt. simpl in Hlt. lia.
Qed.

Lemma count_table_then_asymptotic_witness :
  ElementaryDifferentialsGenerator.count (H := approxMath) 5 = Some 9%Z ∧
  ElementaryDifferentialsGenerator.count (H := approxMath) 0 = Some 0%Z ∧
  ElementaryDifferentialsGenerator.count (H := approxMath) 15 = Some 2964855%Z.
Proof.
  split; [| split].
  - refine (eq_trans (proj1 (proj1 (count_table_then_asymptotic (H := approxMath) 5) _)) _);
      [lia | reflexivity].
  - exact (proj1 (proj2 (count_table_then_asymptotic (H := approxMath) 0)) eq_refl).
  - refine (eq_trans (proj2 (proj2 (count_table_then_asymptotic (H := approxMath) 15)) _) _);
      [lia | vm_compute; reflexivity].
Defined.

(** C7 as stated fails at [n = 0]: the specification lists 1 for index
    0, the table of [count] holds 0. *)
Lemma count_zero_is_not_listed_value :
  ¬ (∀ n : Z, (0 <= n <= 14)%Z →
       ElementaryDifferentialsGenerator.count (H := approxMath) n
       = spec_sequence !! Z.to_nat n).
Proof.
  intros Hall. specialize (Hall 0%Z ltac:(lia)). discriminate Hall.
Qed.

(** C8: [generate(4)] returns five trees and [count(4)] is four, while
    for the orders 1, 2 and 3 the number of generated trees is the
    count. *)
Theorem generate_count_disagree_at_four `{MathLib} :
  length (ElementaryDifferentialsGenerator.generate 4) = 5%nat ∧
  ElementaryDifferentialsGenerator.count 4 = Some 4%Z ∧
  ElementaryDifferentialsGenerator.count 1
    = Some (len (ElementaryDifferentialsGenerator.generate 1)) ∧
  ElementaryDifferentialsGenerator.count 2
    = Some (len (ElementaryDifferentialsGenerator.generate 2)) ∧
  ElementaryDifferentialsGenerator.count 3
    = Some (len (ElementaryDifferentialsGenerator.generate 3)).
Proof. repeat split. Qed.

(** ** B-series engine *)

(** C5, as the code has it: in the grip of [chainCompose(f, g)] contact,
    coverage and overall are the averages of the operands' components,
    stability is their minimum, and efficiency is the product of the
    operands' efficiencies. *)
Theorem chainCompose_grip (f g : BSeriesExpansion) :
  let r := bs_grip (BSeriesEngine.chainCompose f g) in
  contact r = ((contact (bs_grip f) + contact (bs_grip g)) / 2)%Q ∧
  coverage r = ((coverage (bs_grip f) + coverage (bs_grip g)) / 2)%Q ∧
  overall r = ((overall (bs_grip f) + overall (bs_grip g)) / 2)%Q ∧
  stability r = Qmin (stability (bs_grip f)) (stability (bs_grip g)) ∧
  efficiency r = (efficiency (bs_grip f) * efficiency (bs_grip g))%Q.
Proof. repeat split. Qed.

(** C5 as stated fails on the efficiency: composing an expansion of
    efficiency 1/2 with itself gives efficiency 1/4, not the average
    1/2. *)
Lemma chainCompose_efficiency_is_not_average :
  ¬ (efficiency (bs_grip (BSeriesEngine.chainCompose halfExpansion halfExpansion))
     == (efficiency (bs_grip halfExpansion) + efficiency (bs_grip halfExpansion)) / 2)%Q.
Proof. intros Heq. vm_compute in Heq. discriminate Heq. Qed.

(** C9, evaluated: the expansion of [generateRungeKutta(4)] consists of
    the five trees of order 4, so the terms of order 1 sum to 0, the sum
    is further than 1e-10 from [1/1!], and [verifyOrderConditions]
    answers [false]. *)
Theorem rungeKutta4_order_one_sum_is_zero :
  let e := BSeriesEngine.generateRungeKutta 4 in
  Forall (fun t => term_order t = 4%Z) (bs_terms e) ∧
  length (bs_terms e) = 5%nat ∧
  BSeriesEngine.orderSum e 1 = 0%Q ∧
  (1e-10 < Qabs (BSeriesEngine.orderSum e 1 - 1 / inject_Z (factorial 1)))%Q ∧
  BSeriesEngine.orderConditionHolds e 1 = false ∧
  BSeriesEngine.verifyOrderConditions e = false.
Proof.
  cbv zeta. split; [| repeat split].
  repeat constructor.
Qed.

(** ** Grip *)

(** C4, as the code has it: [measureGrip] computes [overall] with the
    weights 0.3, 0.3, 0.2, 0.2, whereas the initial grip of the generator
    and the recalculation of the ontogenesis layer take the plain mean of
    the four components. *)
Theorem overall_weighted_or_mean `{MathLib} :
  (∀ coeffs dom,
     let g := GripOptimizer.measureGrip coeffs dom in
     overall g = (0.3 * contact g + 0.3 * coverage g
                  + 0.2 * efficiency g + 0.2 * stability g)%Q) ∧
  (∀ goal,
     let g := UniversalKernelGenerator.initializeGrip goal in
     overall g = ((contact g + coverage g + efficiency g + stability g) / 4)%Q) ∧
  (∀ kernel,
     let g := OntogenesisEngine.recalculateGrip kernel in
     overall g = ((contact g + coverage g + efficiency g + stability g) / 4)%Q).
Proof.
  split; [| split].
  - reflexivity.
  - intros []; reflexivity.
  - reflexivity.
Qed.

(** C4 as stated fails for the initial grip of the goal [speed]: its
    [overall] is 0.725, the weighted sum of its components 0.71. *)
Lemma initial_grip_overall_is_not_weighted :
  let g := UniversalKernelGenerator.initializeGrip speed in
  ¬ (overall g == 0.3 * contact g + 0.3 * coverage g
                  + 0.2 * efficiency g + 0.2 * stability g)%Q.
Proof. cbv zeta. intros Heq. vm_compute in Heq. discriminate Heq. Qed.

(** ** Kernel generator *)

Lemma imap_Forall {A B} (P : B → Prop) (f : nat → A → B) (l : list A) :
  (∀ i x, P (f i x)) → Forall P (imap f l).
Proof.
  revert f. induction l as [| a l IH]; intros f Hf; simpl.
  - constructor.
  - constructor; [apply Hf |]. apply IH. intros i x. apply Hf.
Qed.

Lemma quotientCompose_self_zero (now : Z) (k : GeneratedKernel) :
  Forall (fun c => c == 0)%Q
         (k_coefficients (UniversalKernelGenerator.quotientCompose now k k)).
Proof.
  unfold UniversalKernelGenerator.quotientCompose. simpl.
  apply imap_Forall. intros i _.
  generalize (UniversalKernelGenerator.coeffAt (k_coefficients k) i). intros c.
  unfold Qdiv. ring.
Qed.

(** ** Ontogenesis: running the monad *)

Ltac run_js :=
  cbv [mbind M_bind mret M_ret abort Date_now Math_random alloc deref
       assign_bSeries_grip with_heap].

Lemma Qltb_false (a b : Q) : (b <= a)%Q → Qltb a b = false.
Proof. intros Hle. unfold Qltb. apply Qle_bool_iff in Hle. rewrite Hle. reflexivity. Qed.

Lemma Qltb_true (a b : Q) : (a < b)%Q → Qltb a b = true.
Proof.
  intros Hlt. unfold Qltb. destruct (Qle_bool b a) eqn:Hle; [| reflexivity].
  apply Qle_bool_iff in Hle. lra.
Qed.

Lemma selectOperator_quotient (kernel : OntogeneticKernel) :
  (0.8 <= maturity (ontogeneticState kernel))%Q →
  OntogenesisEngine.selectOperator kernel = quotient.
Proof.
  intros Hm. unfold OntogenesisEngine.selectOperator.
  rewrite !Qltb_false by lra. reflexivity.
Qed.

(** What [selfGenerate] returns when the parent's expansion is in the
    heap: the kernel composed of the parent with itself, one generation
    on, with the parent as its lineage. *)
Lemma selfGenerate_result (parent : OntogeneticKernel) (w : World) (bs : BSeriesExpansion) :
  heap w !! bSeries parent = Some bs →
  ∃ child w',
    OntogenesisEngine.selfGenerate parent w = Ok child w' ∧
    coefficients child =
      k_coefficients (oa_result (UniversalKernelGenerator.applyOperator (clock w)
        (OntogenesisEngine.selectOperator parent)
        {| k_domain := domain parent; k_order := order parent; k_trees := trees parent;
           k_coefficients := coefficients parent; k_grip := grip parent;
           k_bSeries := bs; k_metadata := metadata parent |}
        {| k_domain := domain parent; k_order := order parent; k_trees := trees parent;
           k_coefficients := coefficients parent; k_grip := grip parent;
           k_bSeries := bs; k_metadata := metadata parent |})) ∧
    generation (genome child) = (generation (genome parent) + 1)%Z ∧
    lineage (genome child) = [id (genome parent)].
Proof.
  intros Hbs.
  unfold OntogenesisEngine.selfGenerate, OntogenesisEngine.asGenerated,
    OntogenesisEngine.initialize, OntogenesisEngine.extractGenome,
    OntogenesisEngine.generateId, OntogenesisEngine.recordOperation.
  run_js. rewrite Hbs. cbn [clock heap random_source drawn operationHistory].
  eexists _, _. split; [reflexivity |]. cbn [coefficients genome generation lineage].
  repeat split.
Qed.

Lemma selfGenerate_trees (parent : OntogeneticKernel) (w : World) (bs : BSeriesExpansion) :
  heap w !! bSeries parent = Some bs →
  let composed :=
    oa_result (UniversalKernelGenerator.applyOperator (clock w)
      (OntogenesisEngine.selectOperator parent)
      {| k_domain := domain parent; k_order := order parent; k_trees := trees parent;
         k_coefficients := coefficients parent; k_grip := grip parent;
         k_bSeries := bs; k_metadata := metadata parent |}
      {| k_domain := domain parent; k_order := order parent; k_trees := trees parent;
         k_coefficients := coefficients parent; k_grip := grip parent;
         k_bSeries := bs; k_metadata := metadata parent |}) in
  ∃ child w',
    OntogenesisEngine.selfGenerate parent w = Ok child w' ∧
    coefficients child = k_coefficients composed ∧
    trees child = k_trees composed.
Proof.
  intros Hbs. cbv zeta.
  unfold OntogenesisEngine.selfGenerate, OntogenesisEngine.asGenerated,
    OntogenesisEngine.initialize, OntogenesisEngine.extractGenome,
    OntogenesisEngine.generateId, OntogenesisEngine.recordOperation.
  run_js. rewrite Hbs. cbn [clock heap random_source drawn operationHistory].
  eexists _, _. split; [reflexivity |]. split; reflexivity.
Qed.


Lemma quotientCompose_self_length (now : Z) (k : GeneratedKernel) :
  let result := UniversalKernelGenerator.quotientCompose now k k in
  k_trees result = ElementaryDifferentialsGenerator.generate (k_order k) ∧
  length (k_coefficients result)
    = length (ElementaryDifferentialsGenerator.generate (k_order k)).
Proof.
  cbv zeta. unfold UniversalKernelGenerator.quotientCompose.
  cbn [k_trees k_coefficients]. rewrite Z.max_id.
  split; [reflexivity | apply length_imap].
Qed.

(** C10: the quotient of a kernel with itself has one coefficient per
    tree of the kernel's order, and every one of them is 0; and so has
    the offspring that [selfGenerate] makes of a parent of maturity at
    least 0.8, for which the operator selected is the quotient. *)
Theorem quotient_of_kernel_with_itself_is_zero :
  (∀ now k,
     let result := oa_result (UniversalKernelGenerator.applyOperator now quotient k k) in
     k_trees result = ElementaryDifferentialsGenerator.generate (k_order k) ∧
     length (k_coefficients result)
       = length (ElementaryDifferentialsGenerator.generate (k_order k)) ∧
     Forall (fun c => c == 0)%Q (k_coefficients result)) ∧
  (∀ parent w,
     is_Some (heap w !! bSeries parent) →
     (0.8 <= maturity (ontogeneticState parent))%Q →
     OntogenesisEngine.selectOperator parent = quotient ∧
     ∃ child w',
       OntogenesisEngine.selfGenerate parent w = Ok child w' ∧
       trees child = ElementaryDifferentialsGenerator.generate (order parent) ∧
       length (coefficients child)
         = length (ElementaryDifferentialsGenerator.generate (order parent)) ∧
       Forall (fun c => c == 0)%Q (coefficients child)).
Proof.
  split.
  - intros now k. cbv zeta. cbn [UniversalKernelGenerator.applyOperator oa_result].
    destruct (quotientCompose_self_length now k) as [Htrees Hlen].
    split; [exact Htrees |]. split; [exact Hlen | apply quotientCompose_self_zero].
  - intros parent w [bs Hbs] Hm.
    split; [apply selectOperator_quotient; exact Hm |].
    destruct (selfGenerate_trees parent w bs Hbs) as (child & w' & Hrun & Hc & Ht).
    exists child, w'. split; [exact Hrun |].
    rewrite Hc, Ht, selectOperator_quotient by exact Hm.
    cbn [UniversalKernelGenerator.applyOperator oa_result].
    match goal with
    | |- context [UniversalKernelGenerator.quotientCompose ?t ?k ?k] =>
        destruct (quotientCompose_self_length t k) as [Htrees Hlen];
        pose proof (quotientCompose_self_zero t k) as Hzero
    end.
    cbn [k_order] in Htrees, Hlen.
    split; [exact Htrees |]. split; [exact Hlen | exact Hzero].
Qed.

Lemma quotient_of_kernel_with_itself_is_zero_witness :
  is_Some (heap rungeKuttaWorld !! bSeries rungeKuttaIndividual) ∧
  (0.8 <= maturity (ontogeneticState rungeKuttaIndividual))%Q ∧
  OntogenesisEngine.selectOperator rungeKuttaIndividual = quotient ∧
  ∃ child w',
    OntogenesisEngine.selfGenerate rungeKuttaIndividual rungeKuttaWorld = Ok child w' ∧
    length (trees child) = 5%nat ∧
    length (coefficients child) = 5%nat ∧
    Forall (fun c => c == 0)%Q (coefficients child).
Proof.
  assert (Hheap : is_Some (heap rungeKuttaWorld !! bSeries rungeKuttaIndividual)).
  { eexists. reflexivity. }
  assert (Hm : (0.8 <= maturity (ontogeneticState rungeKuttaIndividual))%Q).
  { unfold Qle. simpl. lia. }
  split; [exact Hheap |]. split; [exact Hm |].
  destruct (proj2 quotient_of_kernel_with_itself_is_zero _ _ Hheap Hm)
    as (Hop & child & w' & Hrun & Htrees & Hlen & Hzero).
  split; [exact Hop |].
  exists child, w'. split; [exact Hrun |].
  split; [rewrite Htrees; reflexivity |].
  split; [rewrite Hlen; reflexivity | exact Hzero].
Defined.

(** ** Development stages *)

Lemma updateDevelopmentStage_stage (now : Z) (k : OntogeneticKernel) :
  stage (ontogeneticState (OntogenesisEngine.updateDevelopmentStage now k)) =
  let m := maturity (ontogeneticState k) in
  let a := (age (genome k) + 1)%Z in
  if Qgeb m 0.8 && (5 <=? a)%Z then mature
  else if Qgeb m 0.5 && (3 <=? a)%Z then juvenile
  else if (20 <=? a)%Z then senescent
  else stage (ontogeneticState k).
Proof.
  unfold OntogenesisEngine.updateDevelopmentStage. cbv zeta.
  destruct (Qgeb (maturity (ontogeneticState k)) 0.8 && (5 <=? age (genome k) + 1)%Z);
    [reflexivity |].
  destruct (Qgeb (maturity (ontogeneticState k)) 0.5 && (3 <=? age (genome k) + 1)%Z);
    [reflexivity |].
  destruct (20 <=? age (genome k) + 1)%Z; reflexivity.
Qed.

Lemma updateDevelopmentStage_age (now : Z) (k : OntogeneticKernel) :
  age (genome (OntogenesisEngine.updateDevelopmentStage now k)) = (age (genome k) + 1)%Z.
Proof.
  unfold OntogenesisEngine.updateDevelopmentStage. cbv zeta.
  destruct (Qgeb (maturity (ontogeneticState k)) 0.8 && (5 <=? age (genome k) + 1)%Z);
    [reflexivity |].
  destruct (Qgeb (maturity (ontogeneticState k)) 0.5 && (3 <=? age (genome k) + 1)%Z);
    [reflexivity |].
  destruct (20 <=? age (genome k) + 1)%Z; reflexivity.
Qed.

Lemma updateDevelopmentStage_maturity (now : Z) (k : OntogeneticKernel) :
  maturity (ontogeneticState (OntogenesisEngine.updateDevelopmentStage now k))
  = maturity (ontogeneticState k).
Proof.
  unfold OntogenesisEngine.updateDevelopmentStage. cbv zeta.
  destruct (Qgeb (maturity (ontogeneticState k)) 0.8 && (5 <=? age (genome k) + 1)%Z);
    [reflexivity |].
  destruct (Qgeb (maturity (ontogeneticState k)) 0.5 && (3 <=? age (genome k) + 1)%Z);
    [reflexivity |].
  destruct (20 <=? age (genome k) + 1)%Z; reflexivity.
Qed.

Lemma Qgeb_true (a b : Q) : (b <= a)%Q → Qgeb a b = true.
Proof. intros Hle. unfold Qgeb. apply Qle_bool_iff. exact Hle. Qed.

Lemma Qgeb_false (a b : Q) : (a < b)%Q → Qgeb a b = false.
Proof.
  intros Hlt. unfold Qgeb. destruct (Qle_bool b a) eqn:Hle; [| reflexivity].
  apply Qle_bool_iff in Hle. lra.
Qed.

(** C1: [updateDevelopmentStage] tests the age for senescence last, after
    the two tests on the maturity, so the test is never reached by an
    individual of maturity 0.5 or more.  In the population of the
    repository's own stage test (one individual of maturity 0.9,
    [populationSize] 1, [elitismRate] 1, no crossover, no mutation), a
    mature individual of age 19 comes out of [evolve] with age 20 and
    still mature, and a senescent individual of age 25 comes out mature:
    an age of 20 or more without senescence, and a step backward. *)
Theorem evolve_leaves_aged_individual_mature :
  let params := parametersOf 1 0 0 1 in
  let aged := individual [1]%Q (0%Z, 0.5%Q) 0 0.9 mature 19 in
  let old := individual [1]%Q (0%Z, 0.5%Q) 0 0.9 senescent 25 in
  (∃ next k w',
     OntogenesisEngine.evolve (populationOf [aged]) params (constantWorld 0.5) = Ok next w' ∧
     individuals next = [k] ∧
     age (genome k) = 20%Z ∧
     stage (ontogeneticState k) = mature ∧
     stage (ontogeneticState k) ≠ senescent) ∧
  (∃ next k w',
     OntogenesisEngine.evolve (populationOf [old]) params (constantWorld 0.5) = Ok next w' ∧
     individuals next = [k] ∧
     stage (ontogeneticState old) = senescent ∧
     age (genome k) = 26%Z ∧
     stage (ontogeneticState k) = mature ∧
     ¬ stage_le (stage (ontogeneticState old)) (stage (ontogeneticState k))) ∧
  stage (ontogeneticState (OntogenesisEngine.updateDevelopmentStage 0 aged)) = mature ∧
  stage (ontogeneticState (OntogenesisEngine.updateDevelopmentStage 0 old)) = mature.
Proof.
  cbv zeta. split; [| split; [| split; reflexivity]].
  - eexists _, _, _. split; [vm_compute; reflexivity |].
    split; [reflexivity |]. split; [reflexivity |]. split; [reflexivity | discriminate].
  - eexists _, _, _. split; [vm_compute; reflexivity |].
    split; [reflexivity |]. split; [reflexivity |]. split; [reflexivity |].
    split; [reflexivity |]. unfold stage_le. vm_compute. lia.
Qed.

(** ** Mutation *)

Lemma random_index_in_range {A} (l : list A) (r : Q) :
  l ≠ [] → (0 <= r)%Q → (r < 1)%Q →
  ∃ x, array_get l (Qfloor (r * inject_Z (len l))) = Some x ∧
       l !! Z.to_nat (Qfloor (r * inject_Z (len l))) = Some x.
Proof.
  intros Hne Hr0 Hr1.
  assert (Hlen : (0 < len l)%Z) by (unfold len; destruct l; [congruence | simpl; lia]).
  assert (HlenQ : (0 < inject_Z (len l))%Q) by (change 0%Q with (inject_Z 0); rewrite <- Zlt_Qlt; exact Hlen).
  set (x := (r * inject_Z (len l))%Q).
  assert (Hx0 : (0 <= x)%Q) by (subst x; apply Qmult_le_0_compat; lra).
  assert (Hx1 : (x < inject_Z (len l))%Q).
  { subst x. revert HlenQ. generalize (inject_Z (len l)). intros n Hn. nra. }
  assert (Hf0 : (0 <= Qfloor x)%Z).
  { change 0%Z with (Qfloor 0). apply Qfloor_resp_le. exact Hx0. }
  assert (Hf1 : (Qfloor x < len l)%Z).
  { rewrite Zlt_Qlt. eapply Qle_lt_trans; [apply Qfloor_le | exact Hx1]. }
  unfold array_get. destruct (Z.ltb_spec (Qfloor x) 0) as [Hneg | _]; [lia |].
  destruct (lookup_lt_is_Some_2 l (Z.to_nat (Qfloor x))) as [y Hy].
  { unfold len in Hf1. lia. }
  exists y. split; exact Hy.
Qed.

(** What [mutate] does when the index it draws is one of the array. *)
Lemma mutate_result (kernel : OntogeneticKernel) (w : World)
    (old : Q) (bs : BSeriesExpansion) :
  let idx := Qfloor (random_source w (drawn w) * inject_Z (len (coefficients kernel))) in
  let d := ((random_source w (S (drawn w)) - 0.5) * 0.2)%Q in
  array_get (coefficients kernel) idx = Some old →
  heap w !! bSeries kernel = Some bs →
  ∃ child w',
    OntogenesisEngine.mutate kernel w = Ok child w' ∧
    heap w' = <[bSeries kernel := with_grip (grip child) bs]> (heap w) ∧
    random_source w' = random_source w ∧
    drawn w' = S (S (drawn w)) ∧
    clock w' = clock w ∧
    operationHistory w' = operationHistory w ∧
    coefficients child = <[Z.to_nat idx := (old + d)%Q]> (coefficients kernel) ∧
    mutations (ontogeneticState child) =
      mutations (ontogeneticState kernel) ++
      [ {| mr_timestamp := clock w; geneIndex := idx; oldValue := old;
           newValue := (old + d)%Q; impact := d |} ] ∧
    grip child = OntogenesisEngine.recalculateGrip
                   {| domain := domain kernel; order := order kernel; trees := trees kernel;
                      coefficients := coefficients child; grip := grip kernel;
                      bSeries := bSeries kernel; metadata := metadata kernel;
                      genome := genome kernel;
                      ontogeneticState := ontogeneticState child |} ∧
    bSeries child = bSeries kernel ∧
    genome child = genome kernel.
Proof.
  cbv zeta. intros Hget Hbs.
  unfold OntogenesisEngine.mutate. run_js.
  cbn [random_source drawn heap clock operationHistory].
  rewrite Hget. cbn [bSeries heap]. rewrite Hbs.
  eexists _, _. split; [reflexivity |].
  cbn [coefficients ontogeneticState mutations grip bSeries genome
       heap random_source drawn clock operationHistory].
  repeat split.
Qed.

Lemma mutate_mutated_from (kernel : OntogeneticKernel) (w : World) :
  coefficients kernel ≠ [] →
  (∀ n, 0 <= random_source w n ∧ random_source w n < 1)%Q →
  is_Some (heap w !! bSeries kernel) →
  ∃ child w',
    OntogenesisEngine.mutate kernel w = Ok child w' ∧
    mutated_from kernel child ∧
    random_source w' = random_source w ∧
    (∀ l, is_Some (heap w' !! l) ↔ is_Some (heap w !! l)) ∧
    bSeriesGrip kernel w' = Some (grip child) ∧
    bSeries child = bSeries kernel.
Proof.
  intros Hne Hrand [bs Hbs].
  destruct (Hrand (drawn w)) as [Hr0 Hr1].
  destruct (random_index_in_range (coefficients kernel) _ Hne Hr0 Hr1) as (old & Hget & Hnth).
  destruct (mutate_result kernel w old bs Hget Hbs)
    as (child & w' & Hrun & Hheap & Hsrc & _ & Hclock & _ & Hc & Hm & _ & Hl & _).
  exists child, w'. split; [exact Hrun |].
  split; [| split; [exact Hsrc | split; [| split; [| exact Hl]]]].
  - set (idx := Z.to_nat (Qfloor (random_source w (drawn w)
                                  * inject_Z (len (coefficients kernel))))) in *.
    exists idx, old, ((random_source w (S (drawn w)) - 0.5) * 0.2)%Q, (clock w).
    destruct (Hrand (S (drawn w))) as [Hd0 Hd1].
    split; [exact Hnth |]. split; [lra |]. split; [lra |]. split; [exact Hc |].
    split; [rewrite Hc; apply length_insert |].
    split; [intros j Hj; rewrite Hc; apply list_lookup_insert_ne; congruence |].
    split.
    + rewrite Hc. apply list_lookup_insert_eq. apply lookup_lt_Some in Hnth. exact Hnth.
    + rewrite Hm. subst idx. rewrite Z2Nat.id; [reflexivity |].
      unfold array_get in Hget.
      destruct (Z.ltb_spec (Qfloor (random_source w (drawn w)
                                    * inject_Z (len (coefficients kernel)))) 0);
        [discriminate | assumption].
  - intros l. rewrite Hheap. destruct (decide (l = bSeries kernel)) as [-> | Hneq].
    + rewrite lookup_insert_eq, Hbs. split; intros _; eexists; reflexivity.
    + rewrite lookup_insert_ne by congruence. reflexivity.
  - unfold bSeriesGrip. rewrite Hheap, lookup_insert_eq. reflexivity.
Qed.

Lemma mutate_mutated_by (kernel : OntogeneticKernel) (w : World) :
  coefficients kernel ≠ [] →
  (∀ n, 0 <= random_source w n ∧ random_source w n < 1)%Q →
  is_Some (heap w !! bSeries kernel) →
  ∃ child w',
    OntogenesisEngine.mutate kernel w = Ok child w' ∧
    mutated_by (random_source w (drawn w)) (random_source w (S (drawn w))) (clock w)
               kernel child ∧
    random_source w' = random_source w ∧
    drawn w' = S (S (drawn w)) ∧
    clock w' = clock w ∧
    (∀ l, is_Some (heap w' !! l) ↔ is_Some (heap w !! l)).
Proof.
  intros Hne Hrand [bs Hbs].
  destruct (Hrand (drawn w)) as [Hr0 Hr1].
  destruct (random_index_in_range (coefficients kernel) _ Hne Hr0 Hr1) as (old & Hget & Hnth).
  destruct (mutate_result kernel w old bs Hget Hbs)
    as (child & w' & Hrun & Hheap & Hsrc & Hdrawn & Hclock & _ & Hc & Hm & _).
  exists child, w'. split; [exact Hrun |].
  split; [| split; [exact Hsrc | split; [exact Hdrawn | split; [exact Hclock |]]]].
  - unfold mutated_by. cbv zeta.
    set (index := Qfloor (random_source w (drawn w) * inject_Z (len (coefficients kernel)))) in *.
    set (d := ((random_source w (S (drawn w)) - 0.5) * 0.2)%Q) in *.
    destruct (Hrand (S (drawn w))) as [Hd0 Hd1].
    pose proof (lookup_lt_Some _ _ _ Hnth) as Hlt.
    assert (Hindex : (0 <= index)%Z).
    { unfold array_get in Hget. destruct (Z.ltb_spec index 0); [discriminate | assumption]. }
    split; [unfold len; lia |].
    split; [subst d; lra |]. split; [subst d; lra |].
    exists old. split; [exact Hnth |]. split; [exact Hc |].
    split; [rewrite Hc; apply length_insert |].
    split; [intros j Hj; rewrite Hc; apply list_lookup_insert_ne; congruence |].
    split; [rewrite Hc; apply list_lookup_insert_eq; exact Hlt |].
    split; [intros Hd Heq; apply Hd; lra | exact Hm].
  - intros l. rewrite Hheap. destruct (decide (l = bSeries kernel)) as [-> | Hneq].
    + rewrite lookup_insert_eq, Hbs. split; intros _; eexists; reflexivity.
    + rewrite lookup_insert_ne by congruence. reflexivity.
Qed.

(** C6, as the code has it: with the draws of [Math.random()] in
    [0, 1) and non-empty coefficient arrays, [selfReproduce] by mutation
    makes four draws [r0], [r1], [r2], [r3] and returns two offspring,
    one of each parent.  The first is the first parent with the
    coefficient at the index [floor(r0 * length)] moved by the step
    [d = (r1 - 0.5) * 0.2], the second is the second parent with the
    coefficient at [floor(r2 * length)] moved by [(r3 - 0.5) * 0.2]: the
    step is added (it is not a tenth of the old value), it lies in
    [-0.1, 0.1) and is as uniform there as the draw is in [0, 1), every
    other coefficient is the parent's, and the record of the old value,
    the new value and the index is appended to the offspring's
    mutations. *)
Theorem mutation_adds_a_bounded_step (p1 p2 : OntogeneticKernel) (w : World) :
  coefficients p1 ≠ [] →
  coefficients p2 ≠ [] →
  (∀ n, 0 <= random_source w n ∧ random_source w n < 1)%Q →
  is_Some (heap w !! bSeries p1) →
  is_Some (heap w !! bSeries p2) →
  let r := fun n : nat => random_source w (n + drawn w)%nat in
  ∃ c1 c2 w',
    OntogenesisEngine.selfReproduce p1 p2 mutation_method w =
      Ok {| parents := (p1, p2); offspring := [c1; c2]; method := mutation_method |} w' ∧
    drawn w' = (4 + drawn w)%nat ∧
    mutated_by (r 0%nat) (r 1%nat) (clock w) p1 c1 ∧
    mutated_by (r 2%nat) (r 3%nat) (clock w) p2 c2.
Proof.
  intros Hne1 Hne2 Hrand Hh1 Hh2. cbv zeta.
  destruct (mutate_mutated_by p1 w Hne1 Hrand Hh1)
    as (c1 & w1 & Hrun1 & Hby1 & Hsrc1 & Hdrawn1 & Hclock1 & Hdom1).
  assert (Hrand1 : (∀ n, 0 <= random_source w1 n ∧ random_source w1 n < 1)%Q)
    by (rewrite Hsrc1; exact Hrand).
  assert (Hh2' : is_Some (heap w1 !! bSeries p2)) by (apply Hdom1; exact Hh2).
  destruct (mutate_mutated_by p2 w1 Hne2 Hrand1 Hh2')
    as (c2 & w2 & Hrun2 & Hby2 & _ & Hdrawn2 & _ & _).
  rewrite Hsrc1, Hdrawn1, Hclock1 in Hby2.
  exists c1, c2, w2. split.
  { unfold OntogenesisEngine.selfReproduce. cbv [mbind M_bind mret M_ret].
    rewrite Hrun1, Hrun2. reflexivity. }
  split; [rewrite Hdrawn2, Hdrawn1; reflexivity |].
  split; [exact Hby1 | exact Hby2].
Qed.

Lemma mutation_adds_a_bounded_step_witness :
  let p1 := individual [0.25; 1]%Q (0%Z, 0.25%Q) 0 0 embryonic 0 in
  let p2 := individual [0.5]%Q (0%Z, 0.5%Q) 1 0 embryonic 0 in
  let w := drawingWorld [0.75; 0.25; 0.5; 0.75]%Q in
  ∃ c1 c2 w',
    OntogenesisEngine.selfReproduce p1 p2 mutation_method w =
      Ok {| parents := (p1, p2); offspring := [c1; c2]; method := mutation_method |} w' ∧
    drawn w' = 4%nat ∧
    mutated_by 0.75 0.25 0 p1 c1 ∧
    mutated_by 0.5 0.75 0 p2 c2.
Proof.
  cbv zeta.
  apply (mutation_adds_a_bounded_step
           (individual [0.25; 1]%Q (0%Z, 0.25%Q) 0 0 embryonic 0)
           (individual [0.5]%Q (0%Z, 0.5%Q) 1 0 embryonic 0)
           (drawingWorld [0.75; 0.25; 0.5; 0.75]%Q)).
  - discriminate.
  - discriminate.
  - intros n. do 5 (destruct n as [| n]; [simpl; unfold Qle, Qlt; simpl; lia |]).
    simpl. destruct n; unfold Qle, Qlt; simpl; lia.
  - exists halfExpansion. reflexivity.
  - exists halfExpansion. reflexivity.
Defined.

(** C6 as stated fails on the size of the step: from the coefficient
    1/4 the draw 3/4 leads to 1/4 + 1/20 = 3/10, which no factor
    [1 + d] with [d] in [-0.1, 0.1] reaches. *)
Lemma mutation_step_is_not_a_tenth_of_the_value :
  let p := individual [0.25]%Q (0%Z, 0.25%Q) 0 0 embryonic 0 in
  ∃ result w' c1 c2 new,
    OntogenesisEngine.selfReproduce p p mutation_method (constantWorld 0.75)
      = Ok result w' ∧
    offspring result = [c1; c2] ∧
    coefficients p = [0.25%Q] ∧
    coefficients c1 = [new] ∧
    (new == 0.3)%Q ∧
    ¬ ∃ d : Q, (- 0.1 <= d)%Q ∧ (d <= 0.1)%Q ∧ (new == 0.25 * (1 + d))%Q.
Proof.
  cbv zeta. eexists _, _, _, _, _.
  split; [vm_compute; reflexivity |].
  split; [reflexivity |]. split; [reflexivity |]. split; [reflexivity |].
  split; [reflexivity |].
  intros (d & Hlo & Hhi & Heq).
  assert (H03 : (0.3 == 0.25 * (1 + d))%Q) by (rewrite <- Heq; reflexivity).
  lra.
Qed.

(** ** Reproduction and the parents' expansion *)

Lemma clone_keeps_heap (kernel : OntogeneticKernel) (w : World) :
  ∃ child w',
    OntogenesisEngine.clone kernel w = Ok child w' ∧
    heap w' = heap w ∧
    bSeries child = bSeries kernel ∧
    coefficients child = coefficients kernel.
Proof.
  unfold OntogenesisEngine.clone, OntogenesisEngine.generateId. run_js.
  eexists _, _. repeat split.
Qed.

(** C3, evaluated: [selfReproduce] by mutation and by crossover assigns
    the recalculated grip to [bSeries.grip] of an expansion object that
    the first parent shares with its offspring, so the parent's
    [bSeries.grip] is another value after the call; cloning writes
    nothing. *)
Theorem reproduction_overwrites_parent_expansion_grip :
  let p1 := individual [0.25; 1]%Q (0%Z, 0.25%Q) 0 0 embryonic 0 in
  let p2 := individual [0.5; 0.5]%Q (0%Z, 0.5%Q) 1 0 embryonic 0 in
  let w := constantWorld 0.75 in
  bSeriesGrip p1 w = Some halfGrip ∧
  (∃ result w' c1 c2 g,
     OntogenesisEngine.selfReproduce p1 p2 mutation_method w = Ok result w' ∧
     parents result = (p1, p2) ∧
     offspring result = [c1; c2] ∧
     bSeries c1 = bSeries p1 ∧
     bSeriesGrip p1 w' = Some g ∧
     g = grip c1 ∧
     ¬ (overall g == overall halfGrip)%Q) ∧
  (∃ result w' c1 c2 g,
     OntogenesisEngine.selfReproduce p1 p2 crossover_method w = Ok result w' ∧
     parents result = (p1, p2) ∧
     offspring result = [c1; c2] ∧
     bSeries c2 = bSeries p1 ∧
     bSeriesGrip p1 w' = Some g ∧
     g = grip c2 ∧
     ¬ (overall g == overall halfGrip)%Q) ∧
  (∃ result w',
     OntogenesisEngine.selfReproduce p1 p2 cloning_method w = Ok result w' ∧
     heap w' = heap w).
Proof.
  cbv zeta. split; [reflexivity |]. split; [| split].
  - eexists _, _, _, _, _.
    split; [vm_compute; reflexivity |].
    split; [reflexivity |]. split; [reflexivity |]. split; [reflexivity |].
    split; [vm_compute; reflexivity |]. split; [reflexivity |].
    intros Heq. vm_compute in Heq. discriminate Heq.
  - eexists _, _, _, _, _.
    split; [vm_compute; reflexivity |].
    split; [reflexivity |]. split; [reflexivity |]. split; [reflexivity |].
    split; [vm_compute; reflexivity |]. split; [reflexivity |].
    intros Heq. vm_compute in Heq. discriminate Heq.
  - eexists _, _. split; [vm_compute; reflexivity |]. reflexivity.
Qed.

(** ** Evolution *)

Lemma same_objects_refl (w : World) : same_objects w w.
Proof. split; [reflexivity | intros l; reflexivity]. Qed.

Lemma same_objects_trans (w1 w2 w3 : World) :
  same_objects w1 w2 → same_objects w2 w3 → same_objects w1 w3.
Proof.
  intros [Hs1 Hd1] [Hs2 Hd2]. split; [congruence |].
  intros l. rewrite Hd2. apply Hd1.
Qed.

Lemma usable_same_objects (w w' : World) (k : OntogeneticKernel) :
  same_objects w w' → usable w k → usable w' k.
Proof. intros [_ Hd] [Hc Hh]. split; [exact Hc | apply Hd; exact Hh]. Qed.

Lemma random_in_unit_same_objects (w w' : World) :
  same_objects w w' → random_in_unit w → random_in_unit w'.
Proof. intros [Hs _] Hr n. rewrite Hs. apply Hr. Qed.

Lemma Math_random_run (w : World) :
  ∃ w', Math_random w = Ok (random_source w (drawn w)) w' ∧ same_objects w w'.
Proof. eexists. split; [reflexivity |]. split; [reflexivity | intros l; reflexivity]. Qed.

Lemma mutate_usable (kernel : OntogeneticKernel) (w : World) :
  random_in_unit w → usable w kernel →
  ∃ child w',
    OntogenesisEngine.mutate kernel w = Ok child w' ∧
    same_objects w w' ∧ usable w' child.
Proof.
  intros Hrand [Hne Hh].
  destruct (mutate_mutated_from kernel w Hne Hrand Hh)
    as (child & w' & Hrun & Hfrom & Hsrc & Hdom & _ & Hl).
  exists child, w'. split; [exact Hrun |]. split; [split; assumption |].
  destruct Hfrom as (idx & old & d & t & _ & _ & _ & _ & Hlen & _).
  split.
  - intros Hnil. rewrite Hnil in Hlen.
    destruct (coefficients kernel); [congruence | discriminate].
  - rewrite Hl. apply Hdom. exact Hh.
Qed.

Lemma clone_usable (kernel : OntogeneticKernel) (w : World) :
  usable w kernel →
  ∃ child w',
    OntogenesisEngine.clone kernel w = Ok child w' ∧
    same_objects w w' ∧ usable w' child.
Proof.
  intros [Hne Hh].
  unfold OntogenesisEngine.clone, OntogenesisEngine.generateId. run_js.
  eexists _, _. split; [reflexivity |].
  split; [split; [reflexivity | intros l; reflexivity] |].
  split; [exact Hne | exact Hh].
Qed.

Lemma createOffspring_usable (parent1 parent2 : OntogeneticKernel)
    (coeffs : list Q) (w : World) :
  is_Some (heap w !! bSeries parent1) → coeffs ≠ [] →
  ∃ child w',
    OntogenesisEngine.createOffspring parent1 parent2 coeffs w = Ok child w' ∧
    same_objects w w' ∧ usable w' child.
Proof.
  intros [bs Hbs] Hne.
  unfold OntogenesisEngine.createOffspring, OntogenesisEngine.generateId. run_js.
  cbn [bSeries heap]. rewrite Hbs.
  eexists _, _. split; [reflexivity |].
  assert (Hdom : ∀ l, is_Some (<[bSeries parent1 :=
      with_grip (OntogenesisEngine.recalculateGrip
        {| domain := domain parent1; order := order parent1; trees := trees parent1;
           coefficients := coeffs; grip := grip parent1; bSeries := bSeries parent1;
           metadata := metadata parent1;
           genome :=
             {| id := (clock w, random_source w (drawn w));
                generation :=
                  Z.max (generation (genome parent1)) (generation (genome parent2)) + 1;
                lineage := [id (genome parent1); id (genome parent2)];
                genes := OntogenesisEngine.mergeGenes (genes (genome parent1))
                                                      (genes (genome parent2));
                fitness := 0; age := 0 |};
           ontogeneticState := OntogenesisEngine.createInitialState |}) bs]> (heap w) !! l)
      ↔ is_Some (heap w !! l)).
  { intros l. destruct (decide (l = bSeries parent1)) as [-> | Hneq].
    - rewrite lookup_insert_eq, Hbs. split; intros _; eexists; reflexivity.
    - rewrite lookup_insert_ne by congruence. reflexivity. }
  split; [split; [reflexivity | exact Hdom] |].
  split; [exact Hne |]. cbn [bSeries heap]. apply Hdom. exists bs. exact Hbs.
Qed.

Lemma splice_nonempty (l1 l2 : list Q) (point : Z) :
  l1 ≠ [] → l2 ≠ [] → (0 <= point < len l1)%Z →
  slice l1 0 point ++ slice_from l2 point ≠ [] ∧
  slice l2 0 point ++ slice_from l1 point ≠ [].
Proof.
  intros Hne1 Hne2 [Hlo Hhi]. split.
  - intros Hnil. apply app_eq_nil in Hnil as [Hpre Hsuf].
    apply (f_equal length) in Hpre. rewrite slice_length_prefix in Hpre by exact Hlo.
    simpl in Hpre. unfold len in Hhi.
    assert (point = 0%Z) as -> by lia.
    unfold slice_from, slice_index in Hsuf. simpl in Hsuf.
    replace (Z.to_nat (Z.min 0 (len l2))) with 0%nat in Hsuf by (unfold len; lia).
    rewrite drop_0 in Hsuf. contradiction.
  - intros Hnil. apply app_eq_nil in Hnil as [_ Hsuf].
    apply (f_equal length) in Hsuf. unfold slice_from in Hsuf.
    rewrite length_drop in Hsuf. simpl in Hsuf.
    unfold slice_index, len in *. destruct (Z.ltb_spec point 0); lia.
Qed.

Lemma crossover_usable (parent1 parent2 : OntogeneticKernel) (w : World) :
  random_in_unit w → usable w parent1 → usable w parent2 →
  ∃ c1 c2 w',
    OntogenesisEngine.crossover parent1 parent2 w = Ok [c1; c2] w' ∧
    same_objects w w' ∧ usable w' c1 ∧ usable w' c2.
Proof.
  intros Hrand [Hne1 Hh1] [Hne2 Hh2].
  destruct (Hrand (drawn w)) as [Hr0 Hr1].
  destruct (random_index_in_range (coefficients parent1) _ Hne1 Hr0 Hr1) as (x & Hget & Hnth).
  set (point := Qfloor (random_source w (drawn w) * inject_Z (len (coefficients parent1)))) in *.
  assert (Hpoint : (0 <= point < len (coefficients parent1))%Z).
  { unfold array_get in Hget. destruct (Z.ltb_spec point 0); [discriminate |].
    apply lookup_lt_Some in Hnth. unfold len. lia. }
  destruct (splice_nonempty _ _ point Hne1 Hne2 Hpoint) as [Hs1 Hs2].
  destruct (Math_random_run w) as (w0 & Hrun0 & Hobj0).
  assert (Hh1' : is_Some (heap w0 !! bSeries parent1)) by (apply Hobj0; exact Hh1).
  destruct (createOffspring_usable parent1 parent2 _ w0 Hh1' Hs1)
    as (c1 & w1 & Hrun1 & Hobj1 & Hu1).
  assert (Hh1'' : is_Some (heap w1 !! bSeries parent1)) by (apply Hobj1; exact Hh1').
  destruct (createOffspring_usable parent1 parent2 _ w1 Hh1'' Hs2)
    as (c2 & w2 & Hrun2 & Hobj2 & Hu2).
  exists c1, c2, w2. split.
  - unfold OntogenesisEngine.crossover. cbv [mbind M_bind mret M_ret].
    rewrite Hrun0. fold point. rewrite Hrun1, Hrun2. reflexivity.
  - split; [eauto using same_objects_trans |].
    split; [eapply usable_same_objects; eassumption | exact Hu2].
Qed.

Lemma drawTournament_defined (size : nat) (evaluations : list FitnessEvaluation) (w : World) :
  evaluations ≠ [] → random_in_unit w →
  ∃ tournament w',
    OntogenesisEngine.drawTournament size evaluations w = Ok tournament w' ∧
    same_objects w w' ∧
    length tournament = size ∧
    Forall (fun entry => ∃ e, entry = Some e ∧ In e evaluations) tournament.
Proof.
  intros Hne. revert w. induction size as [| size IH]; intros w Hrand.
  - exists [], w. split; [reflexivity |]. split; [apply same_objects_refl |].
    split; [reflexivity | constructor].
  - destruct (Hrand (drawn w)) as [Hr0 Hr1].
    destruct (random_index_in_range evaluations _ Hne Hr0 Hr1) as (e & Hget & Hnth).
    destruct (Math_random_run w) as (w0 & Hrun0 & Hobj0).
    destruct (IH w0 (random_in_unit_same_objects _ _ Hobj0 Hrand))
      as (rest & w1 & Hrun1 & Hobj1 & Hlen & Hall).
    exists (Some e :: rest), w1. split.
    + cbn [OntogenesisEngine.drawTournament]. cbv [mbind M_bind mret M_ret].
      rewrite Hrun0, Hrun1, Hget. reflexivity.
    + split; [eauto using same_objects_trans |].
      split; [simpl; congruence |].
      constructor; [| exact Hall].
      exists e. split; [reflexivity |].
      apply list_elem_of_In. eapply list_elem_of_lookup_2. exact Hnth.
Qed.

Lemma reduceBest_defined (evaluations : list FitnessEvaluation)
    (tournament : list (option FitnessEvaluation)) (w : World) :
  tournament ≠ [] →
  Forall (fun entry => ∃ e, entry = Some e ∧ In e evaluations) tournament →
  ∃ best, OntogenesisEngine.reduceBest tournament w = Ok (Some best) w ∧ In best evaluations.
Proof.
  intros Hne Hall. destruct tournament as [| first rest]; [congruence |]. clear Hne.
  apply Forall_cons in Hall as [(e0 & -> & Hin0) Hrest].
  unfold OntogenesisEngine.reduceBest.
  assert (Hacc : ∃ b, (mret (Some e0) : M _) w = Ok (Some b) w ∧ In b evaluations)
    by (exists e0; split; [reflexivity | exact Hin0]).
  revert Hacc. generalize (mret (Some e0) : M (option FitnessEvaluation)).
  induction Hrest as [| curr rest (c & -> & Hc) Hrest IH]; intros acc (b & Hacc & Hb).
  - exists b. split; assumption.
  - cbn [fold_left]. apply IH.
    cbv [mbind M_bind mret M_ret]. rewrite Hacc.
    destruct (Qltb (fe_overall b) (fe_overall c)); eexists; split; try reflexivity; assumption.
Qed.

Lemma tournamentSelect_defined (evaluations : list FitnessEvaluation) (w : World) :
  evaluations ≠ [] → random_in_unit w →
  ∃ best w',
    OntogenesisEngine.tournamentSelect evaluations 3 w = Ok (Some best) w' ∧
    same_objects w w' ∧ In best evaluations.
Proof.
  intros Hne Hrand.
  destruct (drawTournament_defined 3 evaluations w Hne Hrand)
    as (tournament & w' & Hrun & Hobj & Hlen & Hall).
  assert (Hne' : tournament ≠ []) by (destruct tournament; [discriminate | congruence]).
  destruct (reduceBest_defined evaluations tournament w' Hne' Hall) as (best & Hbest & Hin).
  exists best, w'. split; [| split; assumption].
  unfold OntogenesisEngine.tournamentSelect. cbv [mbind M_bind].
  change (Z.to_nat 3) with 3%nat. rewrite Hrun. exact Hbest.
Qed.

Lemma bind_run {A B} (m : M A) (f : A → M B) (w w' : World) (a : A) :
  m w = Ok a w' → (m ≫= f) w = f a w'.
Proof. intros Hrun. unfold mbind, M_bind. rewrite Hrun. reflexivity. Qed.

(** The first half of a pass of the loop: crossover or clone. *)
Lemma reproduce_step (e1 e2 : FitnessEvaluation) (r rate : Q)
    (children : list OntogeneticKernel) (w : World) :
  random_in_unit w →
  usable w (fe_kernel e1) → usable w (fe_kernel e2) →
  Forall (usable w) children →
  ∃ children' w',
    (if Qltb r rate then
       p1 ← OntogenesisEngine.kernelOf (Some e1);
       p2 ← OntogenesisEngine.kernelOf (Some e2);
       result ← OntogenesisEngine.selfReproduce p1 p2 crossover_method;
       mret (children ++ offspring result)
     else
       p1 ← OntogenesisEngine.kernelOf (Some e1);
       c ← OntogenesisEngine.clone p1;
       mret (children ++ [c])) w = Ok children' w' ∧
    same_objects w w' ∧
    Forall (usable w') children' ∧
    (length children < length children')%nat.
Proof.
  intros Hrand Hu1 Hu2 Hch. destruct (Qltb r rate).
  - destruct (crossover_usable _ _ w Hrand Hu1 Hu2) as (c1 & c2 & w' & Hrun & Hobj & Hc1 & Hc2).
    exists (children ++ [c1; c2]), w'. split.
    + rewrite (bind_run _ _ w w (fe_kernel e1)) by reflexivity.
      rewrite (bind_run _ _ w w (fe_kernel e2)) by reflexivity.
      unfold OntogenesisEngine.selfReproduce.
      rewrite (bind_run _ _ w w'
                 {| parents := (fe_kernel e1, fe_kernel e2); offspring := [c1; c2];
                    method := crossover_method |}); [reflexivity |].
      rewrite (bind_run _ _ w w' [c1; c2]) by exact Hrun. reflexivity.
    + split; [exact Hobj |]. split.
      * apply Forall_app. split.
        -- eapply Forall_impl; [exact Hch |]. intros k. apply usable_same_objects. exact Hobj.
        -- constructor; [exact Hc1 | constructor; [exact Hc2 | constructor]].
      * rewrite length_app. simpl. lia.
  - destruct (clone_usable _ w Hu1) as (c & w' & Hrun & Hobj & Hc).
    exists (children ++ [c]), w'. split.
    + rewrite (bind_run _ _ w w (fe_kernel e1)) by reflexivity.
      rewrite (bind_run _ _ w w' c) by exact Hrun. reflexivity.
    + split; [exact Hobj |]. split.
      * apply Forall_app. split.
        -- eapply Forall_impl; [exact Hch |]. intros k. apply usable_same_objects. exact Hobj.
        -- constructor; [exact Hc | constructor].
      * rewrite length_app. simpl. lia.
Qed.

(** The second half: the last offspring is replaced by its mutation. *)
Lemma mutate_step (r rate : Q) (children : list OntogeneticKernel) (w : World) :
  random_in_unit w → children ≠ [] → Forall (usable w) children →
  ∃ children' w',
    (if Qltb r rate then
       match last children with
       | Some final =>
           m ← OntogenesisEngine.mutate final;
           mret (<[(length children - 1)%nat := m]> children)
       | None => abort TypeError
       end
     else mret children) w = Ok children' w' ∧
    same_objects w w' ∧
    Forall (usable w') children' ∧
    length children' = length children.
Proof.
  intros Hrand Hne Hch. destruct (Qltb r rate).
  - destruct (last children) as [final |] eqn:Hlast;
      [| apply last_None in Hlast; contradiction].
    assert (Hfinal : usable w final).
    { rewrite Forall_forall in Hch. apply Hch.
      apply last_Some in Hlast as [l' ->]. set_solver. }
    destruct (mutate_usable final w Hrand Hfinal) as (m & w' & Hrun & Hobj & Hm).
    exists (<[(length children - 1)%nat := m]> children), w'. split.
    + rewrite (bind_run _ _ w w' m) by exact Hrun. reflexivity.
    + split; [exact Hobj |]. split; [| apply length_insert].
      apply Forall_insert; [| exact Hm].
      eapply Forall_impl; [exact Hch |]. intros k. apply usable_same_objects. exact Hobj.
  - exists children, w. split; [reflexivity |]. split; [apply same_objects_refl |].
    split; [exact Hch | reflexivity].
Qed.

(** With the fuel that [evolve] gives it, the loop ends with at least
    [populationSize - eliteCount] offspring. *)
Lemma evolveLoop_fills (fuel : nat) (sorted : list FitnessEvaluation)
    (params : EvolutionParameters) (eliteCount : Z)
    (children : list OntogeneticKernel) (w : World) :
  sorted ≠ [] →
  Forall (fun e => usable w (fe_kernel e)) sorted →
  random_in_unit w →
  Forall (usable w) children →
  (populationSize params - eliteCount - len children <= Z.of_nat fuel)%Z →
  ∃ children' w',
    OntogenesisEngine.evolveLoop fuel sorted params eliteCount children w
      = Ok children' w' ∧
    same_objects w w' ∧
    Forall (usable w') children' ∧
    (populationSize params - eliteCount <= len children')%Z.
Proof.
  intros Hne. revert children w.
  induction fuel as [| fuel IH]; intros children w Hsorted Hrand Hch Hfuel.
  - exists children, w. cbn [OntogenesisEngine.evolveLoop].
    destruct (Z.ltb_spec (len children) (populationSize params - eliteCount)); [lia |].
    split; [reflexivity |]. split; [apply same_objects_refl |]. split; assumption.
  - cbn [OntogenesisEngine.evolveLoop].
    destruct (Z.ltb_spec (len children) (populationSize params - eliteCount)) as [Hlt | Hge].
    2: { exists children, w. split; [reflexivity |].
         split; [apply same_objects_refl |]. split; assumption. }
    destruct (tournamentSelect_defined sorted w Hne Hrand) as (e1 & w1 & Ht1 & Ho1 & Hin1).
    pose proof (random_in_unit_same_objects _ _ Ho1 Hrand) as Hrand1.
    destruct (tournamentSelect_defined sorted w1 Hne Hrand1) as (e2 & w2 & Ht2 & Ho2 & Hin2).
    pose proof (random_in_unit_same_objects _ _ Ho2 Hrand1) as Hrand2.
    destruct (Math_random_run w2) as (w3 & Hr3 & Ho3).
    pose proof (random_in_unit_same_objects _ _ Ho3 Hrand2) as Hrand3.
    pose proof (same_objects_trans _ _ _ (same_objects_trans _ _ _ Ho1 Ho2) Ho3) as Ho03.
    assert (Hu1 : usable w3 (fe_kernel e1)).
    { eapply usable_same_objects; [exact Ho03 |].
      rewrite Forall_forall in Hsorted. apply Hsorted. apply list_elem_of_In. exact Hin1. }
    assert (Hu2 : usable w3 (fe_kernel e2)).
    { eapply usable_same_objects; [exact Ho03 |].
      rewrite Forall_forall in Hsorted. apply Hsorted. apply list_elem_of_In. exact Hin2. }
    assert (Hch3 : Forall (usable w3) children).
    { eapply Forall_impl; [exact Hch |]. intros k. apply usable_same_objects. exact Ho03. }
    destruct (reproduce_step e1 e2 (random_source w2 (drawn w2)) (crossoverRate params)
                children w3 Hrand3 Hu1 Hu2 Hch3) as (ch4 & w4 & Hr4 & Ho4 & Hch4 & Hlen4).
    pose proof (random_in_unit_same_objects _ _ Ho4 Hrand3) as Hrand4.
    destruct (Math_random_run w4) as (w5 & Hr5 & Ho5).
    pose proof (random_in_unit_same_objects _ _ Ho5 Hrand4) as Hrand5.
    assert (Hch5 : Forall (usable w5) ch4).
    { eapply Forall_impl; [exact Hch4 |]. intros k. apply usable_same_objects. exact Ho5. }
    assert (Hne4 : ch4 ≠ []) by (destruct ch4; [simpl in Hlen4; lia | congruence]).
    destruct (mutate_step (random_source w4 (drawn w4)) (mutationRate params)
                ch4 w5 Hrand5 Hne4 Hch5) as (ch6 & w6 & Hr6 & Ho6 & Hch6 & Hlen6).
    pose proof (random_in_unit_same_objects _ _ Ho6 Hrand5) as Hrand6.
    pose proof (same_objects_trans _ _ _ (same_objects_trans _ _ _
                  (same_objects_trans _ _ _ Ho03 Ho4) Ho5) Ho6) as Ho06.
    destruct (IH ch6 w6) as (final & w7 & Hr7 & Ho7 & Hch7 & Hlen7).
    + eapply Forall_impl; [exact Hsorted |]. intros e. apply usable_same_objects. exact Ho06.
    + exact Hrand6.
    + exact Hch6.
    + unfold len in *. lia.
    + exists final, w7. split.
      * rewrite (bind_run _ _ w w1 (Some e1)) by exact Ht1.
        rewrite (bind_run _ _ w1 w2 (Some e2)) by exact Ht2.
        rewrite (bind_run _ _ w2 w3 _) by exact Hr3.
        rewrite (bind_run _ _ w3 w4 ch4) by exact Hr4.
        rewrite (bind_run _ _ w4 w5 _) by exact Hr5.
        rewrite (bind_run _ _ w5 w6 ch6) by exact Hr6.
        exact Hr7.
      * split; [eauto using same_objects_trans |]. split; assumption.
Qed.

Lemma insert_by_overall_length (x : FitnessEvaluation) (l : list FitnessEvaluation) :
  length (OntogenesisEngine.insert_by_overall x l) = S (length l).
Proof.
  induction l as [| y l IH]; simpl; [reflexivity |].
  destruct (Qle_bool (fe_overall y) (fe_overall x)); simpl; [reflexivity | rewrite IH; reflexivity].
Qed.

Lemma insert_by_overall_Forall (P : FitnessEvaluation → Prop)
    (x : FitnessEvaluation) (l : list FitnessEvaluation) :
  P x → Forall P l → Forall P (OntogenesisEngine.insert_by_overall x l).
Proof.
  intros Hx Hl. induction Hl as [| y l Hy Hl IH]; simpl.
  - constructor; [exact Hx | constructor].
  - destruct (Qle_bool (fe_overall y) (fe_overall x)).
    + constructor; [exact Hx | constructor; assumption].
    + constructor; assumption.
Qed.

Lemma sort_by_overall_length (l : list FitnessEvaluation) :
  length (OntogenesisEngine.sort_by_overall l) = length l.
Proof.
  unfold OntogenesisEngine.sort_by_overall.
  induction l as [| x l IH]; simpl; [reflexivity |].
  rewrite insert_by_overall_length, IH. reflexivity.
Qed.

Lemma sort_by_overall_Forall (P : FitnessEvaluation → Prop) (l : list FitnessEvaluation) :
  Forall P l → Forall P (OntogenesisEngine.sort_by_overall l).
Proof.
  unfold OntogenesisEngine.sort_by_overall.
  intros Hl. induction Hl as [| x l Hx Hl IH]; simpl; [constructor |].
  apply insert_by_overall_Forall; assumption.
Qed.

Lemma imap_Forall_from {A B} (P : A → Prop) (R : B → Prop) (f : nat → A → B) (l : list A) :
  (∀ i x, P x → R (f i x)) → Forall P l → Forall R (imap f l).
Proof.
  intros Hf Hl. revert f Hf. induction Hl as [| a l Ha Hl IH]; intros f Hf; simpl.
  - constructor.
  - constructor; [apply Hf; exact Ha |]. apply IH. intros i x. apply Hf.
Qed.

Lemma evaluateFitness_usable (w : World) (kernels : list OntogeneticKernel) :
  Forall (usable w) kernels →
  Forall (fun e => usable w (fe_kernel e)) (OntogenesisEngine.evaluateFitness kernels).
Proof.
  intros Hk. unfold OntogenesisEngine.evaluateFitness.
  eapply imap_Forall_from; [| exact Hk]. intros i k Hu. exact Hu.
Qed.

Lemma eliteCount_bounds (size : Z) (rate : Q) :
  (1 <= size)%Z → (0 <= rate)%Q → (rate <= 1)%Q →
  (0 <= Qfloor (inject_Z size * rate) <= size)%Z.
Proof.
  intros Hsize Hlo Hhi.
  assert (HsizeQ : (0 <= inject_Z size)%Q)
    by (change 0%Q with (inject_Z 0); rewrite <- Zle_Qle; lia).
  split.
  - change 0%Z with (Qfloor 0). apply Qfloor_resp_le. apply Qmult_le_0_compat; assumption.
  - rewrite <- (Qfloor_Z size) at 2. apply Qfloor_resp_le.
    revert HsizeQ. generalize (inject_Z size). intros s Hs. nra.
Qed.

(** When the population has at least one individual and at least as
    many as there are elites to keep, the kernels are usable and the
    draws are in [0, 1), [evolve] returns, and the next generation has
    exactly [populationSize] individuals. *)
Theorem evolve_fills_population (pop : KernelPopulation)
    (params : EvolutionParameters) (w : World) :
  (1 <= populationSize params)%Z →
  (0 <= elitismRate params)%Q → (elitismRate params <= 1)%Q →
  random_in_unit w →
  individuals pop ≠ [] →
  Forall (usable w) (individuals pop) →
  (Qfloor (inject_Z (populationSize params) * elitismRate params)
   <= len (individuals pop))%Z →
  ∃ next w',
    OntogenesisEngine.evolve pop params w = Ok next w' ∧
    len (individuals next) = populationSize params ∧
    pop_populationSize next = populationSize params ∧
    pop_generation next = (pop_generation pop + 1)%Z.
Proof.
  intros Hsize Hlo Hhi Hrand Hne Hus Helite.
  pose proof (eliteCount_bounds _ _ Hsize Hlo Hhi) as [He0 He1].
  unfold OntogenesisEngine.evolve. cbv zeta.
  set (eliteCount := Qfloor (inject_Z (populationSize params) * elitismRate params)) in *.
  set (sorted := OntogenesisEngine.sort_by_overall
                   (OntogenesisEngine.evaluateFitness (individuals pop))).
  assert (Hlen_sorted : length sorted = length (individuals pop)).
  { subst sorted. rewrite sort_by_overall_length.
    unfold OntogenesisEngine.evaluateFitness. apply length_imap. }
  assert (Hsorted_ne : sorted ≠ []).
  { intros Hnil. rewrite Hnil in Hlen_sorted. destruct (individuals pop); [congruence | discriminate]. }
  assert (Hsorted_us : Forall (fun e => usable w (fe_kernel e)) sorted).
  { subst sorted. apply sort_by_overall_Forall, evaluateFitness_usable. exact Hus. }
  destruct (evolveLoop_fills (Z.to_nat (populationSize params - eliteCount)) sorted params
              eliteCount [] w Hsorted_ne Hsorted_us Hrand (List.Forall_nil _))
    as (children & w' & Hrun & _ & _ & Hfilled).
  { unfold len. simpl. lia. }
  eexists _, w'. split.
  - rewrite (bind_run _ _ w w' children) by exact Hrun.
    rewrite (bind_run _ _ w' w' (clock w')) by reflexivity. reflexivity.
  - cbn [individuals pop_populationSize pop_generation].
    assert (Hnext : len (List.map (OntogenesisEngine.updateDevelopmentStage (clock w'))
                     (slice (List.map fe_kernel (slice sorted 0 eliteCount) ++ children)
                            0 (populationSize params))) = populationSize params).
    { unfold len. rewrite length_map, slice_length_prefix by lia.
      rewrite length_app, length_map, slice_length_prefix by lia.
      unfold len in *. lia. }
    split; [exact Hnext |]. split; [exact Hnext | reflexivity].
Qed.

Lemma evolve_fills_population_witness :
  let pop := populationOf [ individual [0.25; 1]%Q (0%Z, 0.25%Q) 0 0 embryonic 0;
                            individual [0.5; 0.5]%Q (0%Z, 0.5%Q) 1 0 embryonic 0 ] in
  let params := parametersOf 4 0.5 0.5 0.5 in
  ∃ next w',
    OntogenesisEngine.evolve pop params (constantWorld 0.25) = Ok next w' ∧
    len (individuals next) = populationSize params ∧
    pop_populationSize next = populationSize params ∧
    pop_generation next = (pop_generation pop + 1)%Z.
Proof.
  cbv zeta. apply evolve_fills_population.
  - simpl. lia.
  - unfold Qle. simpl. lia.
  - unfold Qle. simpl. lia.
  - intros n. simpl. unfold Qle, Qlt. simpl. lia.
  - discriminate.
  - constructor; [| constructor; [| constructor]].
    + split; [discriminate | exists halfExpansion; reflexivity].
    + split; [discriminate | exists halfExpansion; reflexivity].
  - vm_compute. discriminate.
Defined.

(** C2, evaluated: from a population of one individual, with population
    size 4, elitism rate 1/2 and no crossover, [evolve] counts two
    elites, finds one, adds the two offspring that are missing from four
    minus two, and returns three individuals; from an empty population
    the tournament has no candidate and [evolve] throws. *)
Theorem evolve_returns_three_of_four :
  let pop := populationOf [individual [0.25; 1]%Q (0%Z, 0.25%Q) 0 0 embryonic 0] in
  let params := parametersOf 4 0 0 0.5 in
  (1 <= populationSize params)%Z ∧
  (∃ next w',
     OntogenesisEngine.evolve pop params (constantWorld 0.5) = Ok next w' ∧
     length (individuals next) = 3%nat ∧
     pop_populationSize next = 3%Z) ∧
  OntogenesisEngine.evolve (populationOf []) params (constantWorld 0.5) = Abort TypeError.
Proof.
  cbv zeta. split; [simpl; lia |]. split.
  - eexists _, _. split; [vm_compute; reflexivity |]. split; reflexivity.
  - vm_compute. reflexivity.
Qed.

(** * Further properties *)

(** ** Partitions and generated trees *)

(** Induction on trees with the hypothesis for every child. *)
Lemma RootedTree_nested_ind (P : RootedTree → Prop) :
  (∀ order label children, Forall P children → P (mkTree order label children)) →
  ∀ t, P t.
Proof.
  intros Hstep.
  fix self 1. intros [order label children]. apply Hstep.
  induction children as [| c cs IH]; constructor; [apply self | exact IH].
Qed.

Lemma range_elem (lo hi x : Z) : (lo <= x <= hi)%Z → In x (range lo hi).
Proof.
  intros Hx. unfold range. apply in_map_iff.
  exists (Z.to_nat (x - lo)). split; [lia |]. apply in_seq. lia.
Qed.

Lemma generatePartitions_spec (n : Z) :
  (∀ part, In part (ElementaryDifferentialsGenerator.generatePartitions n) →
     fold_right Z.add 0%Z part = n ∧
     Forall (fun p => (1 <= p)%Z) part ∧
     Sorted Z.le part) ∧
  ((1 <= n)%Z → In [n] (ElementaryDifferentialsGenerator.generatePartitions n)).
Proof.
  unfold ElementaryDifferentialsGenerator.generatePartitions. split.
  - generalize (Z.to_nat n) as fuel. intros fuel. revert n.
    induction fuel as [| fuel IH]; intros n part Hpart; simpl in Hpart.
    + destruct (Z.eqb_spec n 0) as [-> | _].
      { destruct Hpart as [<- | []]. repeat split; constructor. }
      destruct (Z.eqb_spec n 1) as [-> | _]; [| destruct Hpart].
      destruct Hpart as [<- | []]. split; [reflexivity |].
      split; repeat constructor. lia.
    + destruct (Z.eqb_spec n 0) as [-> | _].
      { destruct Hpart as [<- | []]. repeat split; constructor. }
      destruct (Z.eqb_spec n 1) as [-> | _].
      { destruct Hpart as [<- | []]. split; [reflexivity |].
        split; repeat constructor. lia. }
      apply in_flat_map in Hpart as (i & Hi & Hpart). apply range_bounds in Hi.
      destruct (Z.eqb_spec (n - i) 0) as [Hrem | Hrem].
      { destruct Hpart as [<- | []]. split; [simpl; lia |].
        split; repeat constructor. lia. }
      apply in_flat_map in Hpart as (sub & Hsub & Hpart).
      destruct (IH _ _ Hsub) as (Hsum & Hpos & Hsorted).
      destruct sub as [| s0 rest].
      * destruct Hpart as [<- | []]. simpl in Hsum. lia.
      * destruct (Z.leb_spec i s0) as [Hle | _]; [| destruct Hpart].
        destruct Hpart as [<- | []].
        split; [cbn [fold_right] in *; lia |].
        split; [constructor; [lia | exact Hpos] |].
        constructor; [exact Hsorted | constructor; exact Hle].
  - intros Hn. destruct (Z.to_nat n) as [| fuel] eqn:Hfuel; [lia |]. simpl.
    destruct (Z.eqb_spec n 0) as [-> | _]; [lia |].
    destruct (Z.eqb_spec n 1) as [-> | _]; [left; reflexivity |].
    apply in_flat_map. exists n. split; [apply range_elem; lia |].
    replace (n - n)%Z with 0%Z by lia. left. reflexivity.
Qed.

(** X1: every list that [generatePartitions(n)] returns is a partition of
    [n]: its parts are positive, in non-decreasing order, and sum to [n];
    and for [n >= 1] the one-part partition [[n]] is among them. *)
Theorem generatePartitions_are_partitions (n : Z) :
  (∀ part, In part (ElementaryDifferentialsGenerator.generatePartitions n) →
     fold_right Z.add 0%Z part = n ∧
     Forall (fun p => (1 <= p)%Z) part ∧
     Sorted Z.le part) ∧
  ((1 <= n)%Z → In [n] (ElementaryDifferentialsGenerator.generatePartitions n)).
Proof. exact (generatePartitions_spec n). Qed.

Lemma generate_fuel_orders (fuel : nat) (order : Z) :
  Forall (fun t => tree_order t = order)
         (ElementaryDifferentialsGenerator.generate_fuel fuel order).
Proof.
  destruct fuel as [| fuel]; simpl.
  all: destruct (order <=? 0)%Z; [constructor |].
  all: destruct (Z.eqb_spec order 1) as [-> | _]; [repeat constructor |].
  all: destruct (Z.eqb_spec order 2) as [-> | _]; [repeat constructor |].
  all: destruct (Z.eqb_spec order 3) as [-> | _]; [repeat constructor |].
  all: destruct (Z.eqb_spec order 4) as [-> | _]; [repeat constructor |].
  - constructor.
  - apply Forall_forall. intros t Ht. apply list_elem_of_In in Ht.
    apply in_flat_map in Ht as (partition & _ & Ht).
    destruct (flat_map _ partition); [destruct Ht |].
    destruct Ht as [<- | []]. reflexivity.
Qed.

Lemma children_orders (fuel : nat) (partition : list Z) :
  Forall (fun p => ElementaryDifferentialsGenerator.generate_fuel fuel p ≠ []) partition →
  List.map tree_order
    (flat_map (fun p => match ElementaryDifferentialsGenerator.generate_fuel fuel p with
                        | [] => []
                        | t :: _ => [t]
                        end) partition) = partition.
Proof.
  induction 1 as [| p partition Hp _ IH]; [reflexivity |].
  cbn [flat_map].
  pose proof (generate_fuel_orders fuel p) as Horders.
  destruct (ElementaryDifferentialsGenerator.generate_fuel fuel p) as [| t ts];
    [contradiction |].
  apply Forall_cons in Horders as [Ht _]. simpl. rewrite Ht, IH. reflexivity.
Qed.

Lemma generate_fuel_step (fuel : nat) (order : Z) :
  (4 < order)%Z →
  (∀ p, (1 <= p <= order - 1)%Z →
        ElementaryDifferentialsGenerator.generate_fuel fuel p ≠ []) →
  List.map (fun t => List.map tree_order (tree_children t))
    (ElementaryDifferentialsGenerator.generate_fuel (S fuel) order)
  = ElementaryDifferentialsGenerator.generatePartitions (order - 1).
Proof.
  intros Horder Hsub. simpl.
  destruct (Z.leb_spec order 0); [lia |].
  destruct (Z.eqb_spec order 1); [lia |].
  destruct (Z.eqb_spec order 2); [lia |].
  destruct (Z.eqb_spec order 3); [lia |].
  destruct (Z.eqb_spec order 4); [lia |].
  pose proof (proj1 (generatePartitions_spec (order - 1))) as Hparts.
  revert Hparts.
  generalize (ElementaryDifferentialsGenerator.generatePartitions (order - 1)).
  intros partitions. induction partitions as [| partition partitions IH]; intros Hparts;
    [reflexivity |].
  cbn [flat_map].
  destruct (Hparts partition ltac:(left; reflexivity)) as (Hsum & Hpos & _).
  assert (Hall : Forall (fun p => ElementaryDifferentialsGenerator.generate_fuel fuel p ≠ [])
                        partition).
  { apply Forall_forall. intros p Hp. apply Hsub.
    rewrite Forall_forall in Hpos. pose proof (Hpos p Hp) as Hp1.
    split; [exact Hp1 |].
    clear - Hsum Hpos Hp. revert Hsum. generalize (order - 1)%Z. intros n.
    revert n. induction partition as [| q partition IH]; intros n Hsum.
    - apply elem_of_nil in Hp. destruct Hp.
    - cbn [fold_right] in Hsum.
      assert (Hnonneg : ∀ l : list Z, (∀ x, x ∈ l → (1 <= x)%Z) → (0 <= fold_right Z.add 0 l)%Z).
      { clear. induction l as [| x l IHl]; intros Hl; simpl; [lia |].
        pose proof (Hl x ltac:(left)). 
        assert (0 <= fold_right Z.add 0 l)%Z by (apply IHl; intros y Hy; apply Hl; right; exact Hy).
        lia. }
      apply elem_of_cons in Hp as [-> | Hp].
      + pose proof (Hnonneg partition (fun x Hx => Hpos x ltac:(right; exact Hx))). lia.
      + pose proof (Hpos q ltac:(left)).
        specialize (IH (fun x Hx => Hpos x ltac:(right; exact Hx)) Hp _ eq_refl). lia. }
  pose proof (children_orders fuel partition Hall) as Hchildren.
  destruct (flat_map _ partition) as [| c cs] eqn:Hsubtrees.
  - simpl in Hchildren. subst partition. simpl in Hsum. lia.
  - cbn [List.map app tree_children]. cbn [List.map] in Hchildren.
    rewrite Hchildren. f_equal.
    apply IH. intros part Hin. apply Hparts. right. exact Hin.
Qed.

Lemma generate_fuel_nonempty (fuel : nat) (order : Z) :
  (1 <= order)%Z → (Z.to_nat order <= fuel)%nat →
  ElementaryDifferentialsGenerator.generate_fuel fuel order ≠ [].
Proof.
  revert order. induction fuel as [| fuel IH]; intros order Hlo Hfuel; [lia |].
  destruct (Z_le_gt_dec order 4) as [Hsmall | Hlarge].
  - simpl.
    destruct (Z.leb_spec order 0); [lia |].
    destruct (Z.eqb_spec order 1); [discriminate |].
    destruct (Z.eqb_spec order 2); [discriminate |].
    destruct (Z.eqb_spec order 3); [discriminate |].
    destruct (Z.eqb_spec order 4); [discriminate | lia].
  - intros Hnil.
    pose proof (generate_fuel_step fuel order ltac:(lia)
                  (fun p Hp => IH p ltac:(lia) ltac:(lia))) as Hstep.
    rewrite Hnil in Hstep. simpl in Hstep.
    pose proof (proj2 (generatePartitions_spec (order - 1)) ltac:(lia)) as Hin.
    rewrite <- Hstep in Hin. destruct Hin.
Qed.

Lemma generate_orders (order : Z) :
  ((1 <= order)%Z →
     ElementaryDifferentialsGenerator.generate order ≠ [] ∧
     Forall (fun t => tree_order t = order)
            (ElementaryDifferentialsGenerator.generate order)) ∧
  ((order <= 0)%Z → ElementaryDifferentialsGenerator.generate order = []).
Proof.
  unfold ElementaryDifferentialsGenerator.generate. split.
  - intros Hlo. split; [apply generate_fuel_nonempty; lia | apply generate_fuel_orders].
  - intros Hle. destruct (Z.to_nat order); simpl;
      destruct (Z.leb_spec order 0); first [reflexivity | lia].
Qed.

(** X2: for every order of at least 1, [generate(order)] returns at
    least one tree and every tree it returns carries that order; for an
    order of 0 or less it returns no tree. *)
Theorem generate_trees_of_the_order (order : Z) :
  ((1 <= order)%Z →
     ElementaryDifferentialsGenerator.generate order ≠ [] ∧
     Forall (fun t => tree_order t = order)
            (ElementaryDifferentialsGenerator.generate order)) ∧
  ((order <= 0)%Z → ElementaryDifferentialsGenerator.generate order = []).
Proof. exact (generate_orders order). Qed.

(** X3: above order 4, [generate(order)] returns exactly one tree per
    partition of [order - 1], in the order of the partitions, and the
    children of that tree have the orders of the parts: the number of
    trees is the number of partitions of [order - 1]. *)
Theorem generate_one_tree_per_partition (order : Z) :
  (4 < order)%Z →
  List.map (fun t => List.map tree_order (tree_children t))
    (ElementaryDifferentialsGenerator.generate order)
  = ElementaryDifferentialsGenerator.generatePartitions (order - 1) ∧
  length (ElementaryDifferentialsGenerator.generate order)
  = length (ElementaryDifferentialsGenerator.generatePartitions (order - 1)).
Proof.
  intros Horder.
  assert (Hmap : List.map (fun t => List.map tree_order (tree_children t))
                   (ElementaryDifferentialsGenerator.generate order)
                 = ElementaryDifferentialsGenerator.generatePartitions (order - 1)).
  { unfold ElementaryDifferentialsGenerator.generate.
    destruct (Z.to_nat order) as [| fuel] eqn:Hfuel; [lia |].
    apply generate_fuel_step; [exact Horder |].
    intros p Hp. apply generate_fuel_nonempty; lia. }
  split; [exact Hmap |]. rewrite <- Hmap, length_map. reflexivity.
Qed.

Lemma generate_one_tree_per_partition_witness :
  List.map (fun t => List.map tree_order (tree_children t))
    (ElementaryDifferentialsGenerator.generate 6)
  = ElementaryDifferentialsGenerator.generatePartitions (6 - 1) ∧
  length (ElementaryDifferentialsGenerator.generate 6)
  = length (ElementaryDifferentialsGenerator.generatePartitions (6 - 1)).
Proof. apply generate_one_tree_per_partition. lia. Defined.

Lemma factorial_positive (n : Z) : (1 <= factorial n)%Z.
Proof.
  unfold factorial. destruct (n <=? 1)%Z; [lia |].
  pose proof (lt_O_fact (Z.to_nat n)). lia.
Qed.

Lemma fold_left_mul_ge_one (factors : list Z) (start : Z) :
  (1 <= start)%Z → Forall (fun x => (1 <= x)%Z) factors →
  (1 <= fold_left Z.mul factors start)%Z.
Proof.
  intros Hstart Hall. revert start Hstart.
  induction Hall as [| x factors Hx _ IH]; intros start Hstart; simpl; [exact Hstart |].
  apply IH. nia.
Qed.

(** X4: the symmetry factor of every tree is at least 1, so the divisor
    [symmetry * order] of [computeCoefficient] is positive for every tree
    of positive order. *)
Theorem symmetryFactor_positive (tree : RootedTree) :
  (1 <= ElementaryDifferentialsGenerator.symmetryFactor tree)%Z ∧
  ((1 <= tree_order tree)%Z →
     (1 <= ElementaryDifferentialsGenerator.symmetryFactor tree * tree_order tree)%Z).
Proof.
  assert (Hpos : ∀ t, (1 <= ElementaryDifferentialsGenerator.symmetryFactor t)%Z).
  { clear tree. apply RootedTree_nested_ind. intros order label children IH.
    destruct children as [| c cs]; [simpl; lia |].
    change (ElementaryDifferentialsGenerator.symmetryFactor (mkTree order label (c :: cs)))
      with (fold_left Z.mul
              (List.map ElementaryDifferentialsGenerator.symmetryFactor (c :: cs))
              (fold_left (fun f kc => (f * factorial (snd kc))%Z)
                 (ElementaryDifferentialsGenerator.childCounts (c :: cs)) 1%Z)).
    apply fold_left_mul_ge_one.
    - generalize (ElementaryDifferentialsGenerator.childCounts (c :: cs)). intros counts.
      assert (Hgen : ∀ start, (1 <= start)%Z →
                (1 <= fold_left (fun f kc => (f * factorial (snd kc))%Z) counts start)%Z).
      { induction counts as [| kc counts IHc]; intros start Hstart; simpl; [exact Hstart |].
        apply IHc. pose proof (factorial_positive (snd kc)). nia. }
      apply Hgen. lia.
    - apply Forall_fmap. exact IH. }
  split; [apply Hpos |]. intros Horder. pose proof (Hpos tree). nia.
Qed.

(** ** B-series engine *)

(** X5: whatever the order of the domain, the tableau that
    [getButcherTableau] selects is consistent: it has as many weights and
    nodes as stages, its weights sum to 1, every node is the sum of its
    row of the matrix, and the matrix is strictly lower triangular.  Its
    order is the order of the domain for 1, 2 and 3 and is 4 otherwise. *)
Theorem butcher_tableaux_consistent (domain : DomainSpecification) :
  let t := BSeriesEngine.getButcherTableau domain in
  len (tab_b t) = tab_stages t ∧
  len (tab_c t) = tab_stages t ∧
  len (tab_a t) = tab_stages t ∧
  (rowSum (tab_b t) == 1)%Q ∧
  Forall2 (fun row node => rowSum row == node)%Q (tab_a t) (tab_c t) ∧
  (∀ (i j : nat) row x,
     tab_a t !! i = Some row → row !! j = Some x → (i <= j)%nat → x = 0%Q) ∧
  tab_order t = (if (1 <=? dom_order domain)%Z && (dom_order domain <=? 3)%Z
                 then dom_order domain else 4%Z).
Proof.
  cbv zeta. unfold BSeriesEngine.getButcherTableau.
  destruct (Z.eqb_spec (dom_order domain) 1) as [-> | H1];
    [| destruct (Z.eqb_spec (dom_order domain) 2) as [-> | H2];
       [| destruct (Z.eqb_spec (dom_order domain) 3) as [-> | H3]]].
  all: repeat (split; [first [reflexivity | (repeat constructor; reflexivity)] |]).
  all: split;
    [ intros i j row x Hrow Hx Hij;
      do 5 (try (destruct i as [| i]; simpl in Hrow;
                 [injection Hrow as <-;
                  do 5 (try (destruct j as [| j]; simpl in Hx;
                             [first [lia | injection Hx as <-; reflexivity] |]));
                  destruct j; discriminate |]));
      destruct i; discriminate
    | ].
  1-3: reflexivity.
  destruct (Z.leb_spec 1 (dom_order domain)); destruct (Z.leb_spec (dom_order domain) 3);
    cbn [andb]; first [reflexivity | lia].
Qed.

Lemma generateExpansion_terms (domain : DomainSpecification) (grip : GripMetric) :
  let e := BSeriesEngine.generateExpansion domain grip in
  List.map term_tree (bs_terms e) = ElementaryDifferentialsGenerator.generate (dom_order domain) ∧
  Forall (fun t => term_order t = dom_order domain) (bs_terms e).
Proof.
  cbv zeta. unfold BSeriesEngine.generateExpansion. cbn [bs_terms]. split.
  - rewrite List.map_map. cbn [term_tree]. apply map_id.
  - apply Forall_fmap.
    eapply Forall_impl; [apply generate_fuel_orders |]. intros t Ht. exact Ht.
Qed.

Lemma orderSum_no_terms (e : BSeriesExpansion) (n p : Z) :
  Forall (fun t => term_order t = n) (bs_terms e) → p ≠ n →
  BSeriesEngine.orderSum e p = 0%Q.
Proof.
  intros Hall Hne. unfold BSeriesEngine.orderSum.
  replace (List.filter (fun t => (term_order t =? p)%Z) (bs_terms e)) with (@nil BSeriesTerm);
    [reflexivity |].
  induction Hall as [| t ts Ht _ IH]; [reflexivity |].
  simpl. destruct (Z.eqb_spec (term_order t) p); [congruence | exact IH].
Qed.

Lemma generateExpansion_verdict
    (domain : DomainSpecification) (grip : GripMetric) :
  let e := BSeriesEngine.generateExpansion domain grip in
  Forall (fun t => term_order t = dom_order domain) (bs_terms e) ∧
  length (bs_terms e) = length (ElementaryDifferentialsGenerator.generate (dom_order domain)) ∧
  ((2 <= dom_order domain)%Z →
     BSeriesEngine.orderSum e 1 = 0%Q ∧ BSeriesEngine.verifyOrderConditions e = false) ∧
  (dom_order domain = 1%Z → BSeriesEngine.verifyOrderConditions e = true).
Proof.
  cbv zeta. destruct (generateExpansion_terms domain grip) as [Htrees Horders].
  split; [exact Horders |].
  split; [rewrite <- Htrees, length_map; reflexivity |]. split.
  - intros Horder.
    assert (Hsum : BSeriesEngine.orderSum (BSeriesEngine.generateExpansion domain grip) 1 = 0%Q)
      by (eapply orderSum_no_terms; [exact Horders | lia]).
    split; [exact Hsum |].
    destruct (BSeriesEngine.verifyOrderConditions _) eqn:Hverify; [| reflexivity].
    unfold BSeriesEngine.verifyOrderConditions in Hverify.
    rewrite forallb_forall in Hverify.
    specialize (Hverify 1%Z).
    rewrite <- Hverify; [| apply range_elem; cbn [bs_convergenceOrder BSeriesEngine.generateExpansion]; lia].
    unfold BSeriesEngine.orderConditionHolds. rewrite Hsum. reflexivity.
  - intros Horder. destruct domain as [type order treeType symmetry preserves].
    simpl in Horder. subst order. reflexivity.
Qed.

(** X6: an expansion of [generateExpansion] has one term per generated
    tree, all of the order of the domain.  Hence for every domain of
    order 2 or more the terms of order 1 sum to 0 and
    [verifyOrderConditions] answers [false], whatever the grip; for
    order 1 it answers [true]. *)
Theorem generated_expansion_order_conditions
    (domain : DomainSpecification) (grip : GripMetric) :
  let e := BSeriesEngine.generateExpansion domain grip in
  Forall (fun t => term_order t = dom_order domain) (bs_terms e) ∧
  length (bs_terms e) = length (ElementaryDifferentialsGenerator.generate (dom_order domain)) ∧
  ((2 <= dom_order domain)%Z →
     BSeriesEngine.orderSum e 1 = 0%Q ∧ BSeriesEngine.verifyOrderConditions e = false) ∧
  (dom_order domain = 1%Z → BSeriesEngine.verifyOrderConditions e = true).
Proof. exact (generateExpansion_verdict domain grip). Qed.

Lemma generated_expansion_order_conditions_witness :
  let grip := UniversalKernelGenerator.initializeGrip accuracy in
  BSeriesEngine.verifyOrderConditions
    (BSeriesEngine.generateExpansion
       (ctx_domain (KernelGeneration.physicsContext 3)) grip) = false ∧
  BSeriesEngine.verifyOrderConditions
    (BSeriesEngine.generateExpansion
       (ctx_domain (KernelGeneration.physicsContext 1)) grip) = true.
Proof.
  cbv zeta. split.
  - refine (proj2 (proj1 (proj2 (proj2 (generated_expansion_order_conditions
              (ctx_domain (KernelGeneration.physicsContext 3)) _))) _)).
    simpl. lia.
  - exact (proj2 (proj2 (proj2 (generated_expansion_order_conditions
              (ctx_domain (KernelGeneration.physicsContext 1)) _))) eq_refl).
Defined.

Lemma findCoefficient_absent (tree : RootedTree) (terms : list BSeriesTerm) :
  Forall (fun t => tree_label (term_tree t) ≠ tree_label tree) terms →
  BSeriesEngine.findCoefficient tree terms = 0%Q.
Proof.
  induction 1 as [| t ts Ht _ IH]; [reflexivity |]. simpl.
  destruct (String.eqb_spec (tree_label (term_tree t)) (tree_label tree));
    [contradiction | exact IH].
Qed.

(** X7: [findCoefficient] looks a tree up by its label: it returns the
    coefficient of the first term that has the label of the tree,
    whatever follows it, and 0 when no term has that label. *)
Theorem findCoefficient_first_match_or_zero (tree : RootedTree) :
  (∀ before t after,
     Forall (fun u => tree_label (term_tree u) ≠ tree_label tree) before →
     tree_label (term_tree t) = tree_label tree →
     BSeriesEngine.findCoefficient tree (before ++ t :: after) = term_coefficient t) ∧
  (∀ terms,
     Forall (fun u => tree_label (term_tree u) ≠ tree_label tree) terms →
     BSeriesEngine.findCoefficient tree terms = 0%Q).
Proof.
  split.
  - intros before t after Hbefore Ht.
    induction Hbefore as [| u us Hu _ IH]; simpl.
    + rewrite Ht, String.eqb_refl. reflexivity.
    + destruct (String.eqb_spec (tree_label (term_tree u)) (tree_label tree));
        [contradiction | exact IH].
  - apply findCoefficient_absent.
Qed.

Lemma findCoefficient_first_match_or_zero_witness :
  BSeriesEngine.findCoefficient ElementaryDifferentialsGenerator.leaf
    (bs_terms (BSeriesEngine.generateRungeKutta 2)
     ++ bs_terms (BSeriesEngine.generateRungeKutta 1)
     ++ bs_terms (BSeriesEngine.generateRungeKutta 3))
  = term_coefficient
      {| term_tree := ElementaryDifferentialsGenerator.leaf;
         term_coefficient := 1 / inject_Z (1 * 1);
         term_grip := BSeriesEngine.computeGrip ElementaryDifferentialsGenerator.leaf
                        (bs_grip (BSeriesEngine.generateRungeKutta 1));
         term_order := 1 |} ∧
  BSeriesEngine.findCoefficient ElementaryDifferentialsGenerator.leaf
    (bs_terms (BSeriesEngine.generateRungeKutta 4)) = 0%Q.
Proof.
  split.
  - refine (proj1 (findCoefficient_first_match_or_zero
                     ElementaryDifferentialsGenerator.leaf)
              (bs_terms (BSeriesEngine.generateRungeKutta 2)) _
              (bs_terms (BSeriesEngine.generateRungeKutta 3)) _ _).
    + repeat constructor. discriminate.
    + reflexivity.
  - apply (proj2 (findCoefficient_first_match_or_zero
                    ElementaryDifferentialsGenerator.leaf)).
    repeat constructor; discriminate.
Defined.

(** X8: [chainCompose] and [productCompose] have one term per tree of
    the larger convergence order, and exchanging the operands changes
    neither the trees nor, up to equality of numbers, any coefficient or
    component of the grip; only the domain, which is the first
    operand's, depends on the order of the operands. *)
Theorem compositions_commute_on_coefficients (f g : BSeriesExpansion) :
  let trees := ElementaryDifferentialsGenerator.generate
                 (Z.max (bs_convergenceOrder f) (bs_convergenceOrder g)) in
  List.map term_tree (bs_terms (BSeriesEngine.chainCompose f g)) = trees ∧
  List.map term_tree (bs_terms (BSeriesEngine.productCompose f g)) = trees ∧
  List.map term_tree (bs_terms (BSeriesEngine.chainCompose g f)) = trees ∧
  List.map term_tree (bs_terms (BSeriesEngine.productCompose g f)) = trees ∧
  Forall2 Qeq (List.map term_coefficient (bs_terms (BSeriesEngine.chainCompose f g)))
              (List.map term_coefficient (bs_terms (BSeriesEngine.chainCompose g f))) ∧
  Forall2 Qeq (List.map term_coefficient (bs_terms (BSeriesEngine.productCompose f g)))
              (List.map term_coefficient (bs_terms (BSeriesEngine.productCompose g f))) ∧
  bs_domain (BSeriesEngine.chainCompose f g) = bs_domain f ∧
  bs_domain (BSeriesEngine.productCompose f g) = bs_domain f ∧
  grip_eq (bs_grip (BSeriesEngine.chainCompose f g))
          (bs_grip (BSeriesEngine.chainCompose g f)) ∧
  grip_eq (bs_grip (BSeriesEngine.productCompose f g))
          (bs_grip (BSeriesEngine.productCompose g f)) ∧
  bs_convergenceOrder (BSeriesEngine.chainCompose f g)
    = bs_convergenceOrder (BSeriesEngine.chainCompose g f) ∧
  bs_convergenceOrder (BSeriesEngine.productCompose f g)
    = bs_convergenceOrder (BSeriesEngine.productCompose g f).
Proof.
  cbv zeta. unfold BSeriesEngine.chainCompose, BSeriesEngine.productCompose, grip_eq.
  cbn [bs_terms bs_domain bs_grip bs_convergenceOrder
       contact coverage efficiency stability overall].
  rewrite (Z.max_comm (bs_convergenceOrder g) (bs_convergenceOrder f)).
  rewrite !List.map_map. cbn [term_tree term_coefficient].
  repeat (split; [first [apply map_id | reflexivity
                        | (apply Forall2_fmap, Forall_Forall2_diag, Forall_forall;
                           intros tree _; ring)] |]).
  split; [| split; [| split; reflexivity]].
  - unfold Qdiv. split; [ring |]. split; [ring |]. split; [ring |].
    split; [apply Q.min_comm | ring].
  - unfold Qdiv. split; [apply Q.max_comm |]. split; [ring |]. split; [ring |].
    split; [apply Q.min_comm | ring].
Qed.

(** ** Kernel generator *)

(** X9: whatever the operator and the operands, the kernel that
    [applyOperator] returns keeps its arrays parallel: it has as many
    coefficients as trees and as terms in its expansion, the coefficients
    and trees of the terms are those of the kernel, its order is the
    larger of the operands' orders, and its domain is the left
    operand's. *)
Theorem applyOperator_keeps_arrays_parallel (now : Z) (operator : DifferentialOperator)
    (left right : GeneratedKernel) :
  let k := oa_result (UniversalKernelGenerator.applyOperator now operator left right) in
  length (k_coefficients k) = length (k_trees k) ∧
  length (bs_terms (k_bSeries k)) = length (k_trees k) ∧
  List.map term_tree (bs_terms (k_bSeries k)) = k_trees k ∧
  List.map term_coefficient (bs_terms (k_bSeries k)) = k_coefficients k ∧
  k_order k = Z.max (k_order left) (k_order right) ∧
  k_domain k = k_domain left ∧
  bs_grip (k_bSeries k) = k_grip k.
Proof.
  cbv zeta. destruct operator; cbn [UniversalKernelGenerator.applyOperator oa_result].
  - unfold UniversalKernelGenerator.chainCompose.
    cbn [k_coefficients k_trees k_bSeries k_order k_domain k_grip].
    rewrite !length_map. repeat split.
  - unfold UniversalKernelGenerator.productCompose.
    cbn [k_coefficients k_trees k_bSeries k_order k_domain k_grip].
    rewrite !length_map. repeat split.
  - unfold UniversalKernelGenerator.quotientCompose.
    cbn [k_coefficients k_trees k_bSeries k_order k_domain k_grip bs_terms bs_grip].
    set (trees := ElementaryDifferentialsGenerator.generate _).
    set (coefficients := imap _ trees).
    assert (Hlen : length coefficients = length trees) by (subst coefficients; apply length_imap).
    split; [exact Hlen |].
    split; [rewrite length_zip_with; lia |].
    clearbody coefficients. clearbody trees.
    assert (Hzip : ∀ (ts : list RootedTree) (cs : list Q) (g : Q),
              length cs = length ts →
              List.map term_tree
                (zip_with (fun tree c => {| term_tree := tree; term_coefficient := c;
                                            term_grip := g; term_order := tree_order tree |})
                          ts cs) = ts ∧
              List.map term_coefficient
                (zip_with (fun tree c => {| term_tree := tree; term_coefficient := c;
                                            term_grip := g; term_order := tree_order tree |})
                          ts cs) = cs).
    { induction ts as [| t ts IH]; intros [| c cs] g Hl; try discriminate.
      - split; reflexivity.
      - simpl in Hl. destruct (IH cs g ltac:(lia)) as [Ht Hc].
        simpl. rewrite Ht, Hc. split; reflexivity. }
    split; [apply Hzip; exact Hlen |]. split; [apply Hzip; exact Hlen |]. repeat split.
Qed.

Lemma validateDomain_spec (domain : DomainSpecification) :
  DomainAnalyzer.validateDomain domain = true ↔
  (1 <= dom_order domain <= 10)%Z ∧
  dom_treeType domain =
    match dom_type domain with
    | physics => "hamiltonian"
    | chemistry => "reaction"
    | biology => "metabolic"
    | computing => "recursion"
    | consciousness => "echo"
    end.
Proof.
  unfold DomainAnalyzer.validateDomain.
  destruct (Z.ltb_spec (dom_order domain) 1) as [Hlo | Hlo];
    destruct (Z.ltb_spec 10 (dom_order domain)) as [Hhi | Hhi]; cbn [orb].
  1-3: split; [discriminate | intros [Hr _]; lia].
  destruct (dom_type domain); cbn [DomainAnalyzer.validTreeTypes existsb];
    rewrite orb_false_r.
  all: split;
    [ intros Heq; apply String.eqb_eq in Heq; split; [lia | symmetry; exact Heq]
    | intros [_ Heq]; rewrite Heq; apply String.eqb_refl ].
Qed.

(** X10: [validateDomain] accepts a domain exactly when its order is
    between 1 and 10 and its tree type is the one of its type:
    hamiltonian for physics, reaction for chemistry, metabolic for
    biology, recursion for computing, echo for consciousness. *)
Theorem validateDomain_accepts_exactly (domain : DomainSpecification) :
  DomainAnalyzer.validateDomain domain = true ↔
  (1 <= dom_order domain <= 10)%Z ∧
  dom_treeType domain =
    match dom_type domain with
    | physics => "hamiltonian"
    | chemistry => "reaction"
    | biology => "metabolic"
    | computing => "recursion"
    | consciousness => "echo"
    end.
Proof. exact (validateDomain_spec domain). Qed.


(** ** Gradient ascent *)

Section Optimizer.
Context `{MathLib} `{MathPow}.

Lemma gradientAscentStep_length (coeffs : list Q) (domain : DomainSpecification) (rate : Q) :
  length (GradientAscent.gradientAscentStep coeffs
            (GradientAscent.computeGradient coeffs domain) rate) = length coeffs.
Proof.
  unfold GradientAscent.gradientAscentStep, GradientAscent.computeGradient.
  rewrite length_zip_with, length_imap. lia.
Qed.

Lemma optimizeLoop_result (fuel : nat) (domain : DomainSpecification)
    (maxIterations : Z) (tolerance : Q) (coeffs : list Q) (grip : GripMetric)
    (iteration : Z) :
  (maxIterations - iteration <= Z.of_nat fuel)%Z →
  let r := GradientAscent.optimizeLoop fuel domain maxIterations tolerance
             coeffs grip iteration in
  length (opt_coefficients r) = length coeffs ∧
  (iteration <= opt_iterations r <= Z.max iteration maxIterations)%Z ∧
  (opt_iterations r = iteration → opt_coefficients r = coeffs ∧ opt_grip r = grip) ∧
  ((iteration < opt_iterations r)%Z →
     opt_grip r = GripOptimizer.measureGrip (opt_coefficients r) domain) ∧
  ((opt_iterations r < maxIterations)%Z →
     Qltb (GripOptimizer.vectorNorm
             (GradientAscent.computeGradient (opt_coefficients r) domain)) tolerance = true).
Proof.
  revert coeffs grip iteration.
  induction fuel as [| fuel IH]; intros coeffs grip iteration Hfuel; cbv zeta.
  - cbn [GradientAscent.optimizeLoop].
    destruct (Z.ltb_spec iteration maxIterations); [lia |].
    cbn [opt_coefficients opt_iterations opt_grip].
    repeat split; lia.
  - cbn [GradientAscent.optimizeLoop].
    destruct (Z.ltb_spec iteration maxIterations) as [Hlt | Hge].
    2: { cbn [opt_coefficients opt_iterations opt_grip]. repeat split; lia. }
    destruct (Qltb (GripOptimizer.vectorNorm (GradientAscent.computeGradient coeffs domain))
                   tolerance) eqn:Hnorm.
    { cbn [opt_coefficients opt_iterations opt_grip].
      split; [reflexivity |]. split; [lia |]. split; [intros _; split; reflexivity |].
      split; [lia | intros _; exact Hnorm]. }
    specialize (IH (GradientAscent.gradientAscentStep coeffs
                      (GradientAscent.computeGradient coeffs domain)
                      (GradientAscent.adaptiveLearningRate iteration maxIterations))
                   (GripOptimizer.measureGrip
                      (GradientAscent.gradientAscentStep coeffs
                         (GradientAscent.computeGradient coeffs domain)
                         (GradientAscent.adaptiveLearningRate iteration maxIterations))
                      domain)
                   (iteration + 1)%Z ltac:(lia)).
    cbv zeta in IH. destruct IH as (Hlen & Hit & Hsame & Hgrip & Htol).
    split; [rewrite Hlen; apply gradientAscentStep_length |].
    split; [lia |]. split; [intros Heq; lia |]. split; [| exact Htol].
    intros _.
    destruct (Z.eq_dec (opt_iterations
       (GradientAscent.optimizeLoop fuel domain maxIterations tolerance
          (GradientAscent.gradientAscentStep coeffs
             (GradientAscent.computeGradient coeffs domain)
             (GradientAscent.adaptiveLearningRate iteration maxIterations))
          (GripOptimizer.measureGrip
             (GradientAscent.gradientAscentStep coeffs
                (GradientAscent.computeGradient coeffs domain)
                (GradientAscent.adaptiveLearningRate iteration maxIterations)) domain)
          (iteration + 1)%Z)) (iteration + 1)%Z) as [Heq | Hneq].
    + destruct (Hsame Heq) as [-> ->]. reflexivity.
    + apply Hgrip. lia.
Qed.

Lemma optimize_spec (expansion : BSeriesExpansion) (maxIterations : Z) (tolerance : Q) :
  let r := GradientAscent.optimize expansion maxIterations tolerance in
  length (opt_coefficients r) = length (bs_terms expansion) ∧
  (0 <= opt_iterations r <= Z.max 0 maxIterations)%Z ∧
  (opt_iterations r = 0%Z →
     opt_coefficients r = List.map term_coefficient (bs_terms expansion) ∧
     opt_grip r = bs_grip expansion) ∧
  ((0 < opt_iterations r)%Z →
     opt_grip r = GripOptimizer.measureGrip (opt_coefficients r) (bs_domain expansion)) ∧
  ((opt_iterations r < maxIterations)%Z →
     Qltb (GripOptimizer.vectorNorm
             (GradientAscent.computeGradient (opt_coefficients r) (bs_domain expansion)))
          tolerance = true).
Proof.
  cbv zeta. unfold GradientAscent.optimize.
  assert (Hfuel : (maxIterations - 0 <= Z.of_nat (Z.to_nat maxIterations))%Z) by lia.
  destruct (optimizeLoop_result (Z.to_nat maxIterations) (bs_domain expansion) maxIterations
              tolerance (List.map term_coefficient (bs_terms expansion))
              (bs_grip expansion) 0 Hfuel) as (Hlen & Hit & Hsame & Hgrip & Htol).
  split; [rewrite Hlen; apply length_map |].
  split; [lia |]. split; [exact Hsame |]. split; [exact Hgrip | exact Htol].
Qed.

(** X11: [optimize] returns as many coefficients as the expansion has
    terms, after between 0 and [maxIterations] iterations.  When no
    iteration ran, the coefficients and the grip are those of the
    expansion, untouched; when one ran, the grip is [measureGrip] of the
    returned coefficients; and when it stopped before [maxIterations],
    the gradient norm at the returned coefficients is below the
    tolerance. *)
Theorem optimize_result (expansion : BSeriesExpansion) (maxIterations : Z) (tolerance : Q) :
  let r := GradientAscent.optimize expansion maxIterations tolerance in
  length (opt_coefficients r) = length (bs_terms expansion) ∧
  (0 <= opt_iterations r <= Z.max 0 maxIterations)%Z ∧
  (opt_iterations r = 0%Z →
     opt_coefficients r = List.map term_coefficient (bs_terms expansion) ∧
     opt_grip r = bs_grip expansion) ∧
  ((0 < opt_iterations r)%Z →
     opt_grip r = GripOptimizer.measureGrip (opt_coefficients r) (bs_domain expansion)) ∧
  ((opt_iterations r < maxIterations)%Z →
     Qltb (GripOptimizer.vectorNorm
             (GradientAscent.computeGradient (opt_coefficients r) (bs_domain expansion)))
          tolerance = true).
Proof. exact (optimize_spec expansion maxIterations tolerance). Qed.

Lemma halving_bounds (k : nat) (s : Q) :
  (0 < s)%Q → (s <= 1)%Q →
  (0 < Nat.iter k (fun x => x * 0.5) s)%Q ∧ (Nat.iter k (fun x => x * 0.5) s <= 1)%Q.
Proof.
  intros Hpos Hle. induction k as [| k [IH0 IH1]]; [split; assumption |].
  rewrite Nat.iter_succ. split; lra.
Qed.

Lemma lineSearchLoop_result (passes : nat) (coeffs direction : list Q)
    (domain : DomainSpecification) (initialGrip stepSize : Q) :
  ∃ k : nat,
    (k <= passes)%nat ∧
    GradientAscent.lineSearchLoop passes coeffs direction domain initialGrip stepSize
      = Nat.iter k (fun x => x * 0.5)%Q stepSize ∧
    ((k < passes)%nat →
       Qltb initialGrip
         (overall (GripOptimizer.measureGrip
            (zip_with (fun c d => c + Nat.iter k (fun x => x * 0.5) stepSize * d)%Q
                      coeffs direction) domain)) = true).
Proof.
  revert stepSize. induction passes as [| passes IH]; intros stepSize.
  - exists 0%nat. split; [lia |]. split; [reflexivity | lia].
  - cbn [GradientAscent.lineSearchLoop].
    destruct (Qltb initialGrip _) eqn:Hbetter.
    + exists 0%nat. split; [lia |]. split; [reflexivity |]. intros _. exact Hbetter.
    + destruct (IH (stepSize * 0.5)%Q) as (k & Hk & Hresult & Himproved).
      exists (S k). split; [lia |].
      rewrite Nat.iter_succ_r. split; [exact Hresult |].
      intros Hlt. apply Himproved. lia.
Qed.

(** X12: [lineSearch] tries the step 1 and up to nine halvings of it: it
    returns 1 halved [k] times for some [k <= 10], a step in (0, 1], and
    whenever [k < 10] the grip at the returned step is above the grip it
    started from; [k = 10], the step 1/1024, is returned without having
    been tried. *)
Theorem lineSearch_returns_a_halving (coeffs direction : list Q)
    (domain : DomainSpecification) :
  let step := GradientAscent.lineSearch coeffs direction domain in
  ∃ k : nat,
    (k <= 10)%nat ∧
    step = Nat.iter k (fun x => x * 0.5)%Q 1.0%Q ∧
    (0 < step)%Q ∧ (step <= 1)%Q ∧
    ((k < 10)%nat →
       Qltb (overall (GripOptimizer.measureGrip coeffs domain))
            (overall (GripOptimizer.measureGrip
               (zip_with (fun c d => c + step * d)%Q coeffs direction) domain)) = true).
Proof.
  cbv zeta. unfold GradientAscent.lineSearch.
  destruct (lineSearchLoop_result 10 coeffs direction domain
              (overall (GripOptimizer.measureGrip coeffs domain)) 1.0%Q)
    as (k & Hk & Hresult & Himproved).
  exists k. split; [exact Hk |]. split; [exact Hresult |].
  rewrite Hresult.
  destruct (halving_bounds k 1.0%Q) as [Hpos Hle]; [lra | lra |].
  split; [exact Hpos |]. split; [exact Hle | exact Himproved].
Qed.

End Optimizer.

(** ** Kernel generation and verification *)

Section Generation.
Context `{MathLib} `{MathPow}.

Lemma generate_spec (now : Z) (context : GenerationContext) :
  (DomainAnalyzer.validateDomain (ctx_domain context) = false →
     KernelGeneration.generate now context = inr "Invalid domain specification") ∧
  (DomainAnalyzer.validateDomain (ctx_domain context) = true →
     ∃ kernel,
       KernelGeneration.generate now context = inl kernel ∧
       k_domain kernel = ctx_domain context ∧
       k_order kernel = dom_order (ctx_domain context) ∧
       k_trees kernel
         = ElementaryDifferentialsGenerator.generate (dom_order (ctx_domain context)) ∧
       k_trees kernel ≠ [] ∧
       length (k_coefficients kernel) = length (k_trees kernel) ∧
       bs_terms (k_bSeries kernel)
         = bs_terms (BSeriesEngine.generateExpansion (ctx_domain context)
                       (UniversalKernelGenerator.initializeGrip
                          (ctx_optimizationGoal context))) ∧
       ((2 <= dom_order (ctx_domain context))%Z → KernelGeneration.verify kernel = false)).
Proof.
  unfold KernelGeneration.generate. split; intros Hvalid; rewrite Hvalid; cbn [negb].
  - reflexivity.
  - eexists. split; [reflexivity |].
    cbn [k_domain k_order k_trees k_coefficients k_bSeries with_grip bs_terms].
    apply validateDomain_spec in Hvalid as [Horder _].
    split; [reflexivity |]. split; [reflexivity |]. split; [reflexivity |].
    split; [apply generate_orders; lia |].
    split.
    + unfold GradientAscent.optimizeDefault.
      rewrite (proj1 (optimize_spec _ _ _)).
      apply generateExpansion_verdict.
    + split; [reflexivity |]. intros Hge.
      unfold KernelGeneration.verify. cbn [k_bSeries].
      replace (BSeriesEngine.verifyOrderConditions _) with false; [reflexivity |].
      symmetry.
      destruct (generateExpansion_verdict (ctx_domain context)
                  (UniversalKernelGenerator.initializeGrip (ctx_optimizationGoal context)))
        as (_ & _ & Hfalse & _).
      destruct (Hfalse Hge) as [_ Hverify]. exact Hverify.
Qed.

(** X13: [generate] throws "Invalid domain specification" exactly when
    [validateDomain] rejects the domain, and builds nothing then.
    Otherwise it returns a kernel of the order and domain of the context
    with the trees of that order and as many coefficients as trees; the
    expansion kept in the kernel has the terms of the initial expansion,
    not the optimized coefficients; and when the order is 2 or more,
    [verify] rejects the kernel. *)
Theorem generate_validates_then_builds (now : Z) (context : GenerationContext) :
  (DomainAnalyzer.validateDomain (ctx_domain context) = false →
     KernelGeneration.generate now context = inr "Invalid domain specification") ∧
  (DomainAnalyzer.validateDomain (ctx_domain context) = true →
     ∃ kernel,
       KernelGeneration.generate now context = inl kernel ∧
       k_domain kernel = ctx_domain context ∧
       k_order kernel = dom_order (ctx_domain context) ∧
       k_trees kernel
         = ElementaryDifferentialsGenerator.generate (dom_order (ctx_domain context)) ∧
       k_trees kernel ≠ [] ∧
       length (k_coefficients kernel) = length (k_trees kernel) ∧
       bs_terms (k_bSeries kernel)
         = bs_terms (BSeriesEngine.generateExpansion (ctx_domain context)
                       (UniversalKernelGenerator.initializeGrip
                          (ctx_optimizationGoal context))) ∧
       ((2 <= dom_order (ctx_domain context))%Z → KernelGeneration.verify kernel = false)).
Proof. exact (generate_spec now context). Qed.

(** X14: each of the five presets returns a kernel for every order from
    1 to 10 and throws for every other order. *)
Theorem presets_accept_orders_one_to_ten (stamp order : Z) :
  let results :=
    [ KernelGeneration.generatePhysicsKernel stamp order;
      KernelGeneration.generateChemistryKernel stamp order;
      KernelGeneration.generateBiologyKernel stamp order;
      KernelGeneration.generateComputingKernel stamp order;
      KernelGeneration.generateConsciousnessKernel stamp order ] in
  ((1 <= order <= 10)%Z →
     Forall (fun r => ∃ kernel, r = inl kernel ∧ k_order kernel = order ∧
                                k_coefficients kernel ≠ []) results) ∧
  (¬ (1 <= order <= 10)%Z →
     Forall (fun r => r = inr "Invalid domain specification") results).
Proof.
  cbv zeta. split; intros Horder.
  - repeat (apply Forall_cons; split); try apply Forall_nil; try exact I.
    all: unfold KernelGeneration.generatePhysicsKernel,
           KernelGeneration.generateChemistryKernel, KernelGeneration.generateBiologyKernel,
           KernelGeneration.generateComputingKernel,
           KernelGeneration.generateConsciousnessKernel.
    all: match goal with
         | |- _ =>
             match goal with
             | |- ∃ kernel, KernelGeneration.generate ?t ?ctx = _ ∧ _ =>
                 destruct (proj2 (generate_spec t ctx))
                   as (kernel & Hrun & _ & Hord & _ & Hne & Hlen & _);
                 [apply validateDomain_spec; split; [exact Horder | reflexivity] |];
                 exists kernel; split; [exact Hrun |]; split; [exact Hord |];
                 intros Hnil; rewrite Hnil in Hlen;
                 destruct (k_trees kernel); [congruence | discriminate]
             end
         end.
  - repeat (apply Forall_cons; split); try apply Forall_nil; try exact I.
    all: unfold KernelGeneration.generatePhysicsKernel,
           KernelGeneration.generateChemistryKernel, KernelGeneration.generateBiologyKernel,
           KernelGeneration.generateComputingKernel,
           KernelGeneration.generateConsciousnessKernel.
    all: apply generate_spec;
      destruct (DomainAnalyzer.validateDomain _) eqn:Hvalid; [| reflexivity];
      apply validateDomain_spec in Hvalid as [Hr _]; contradiction.
Qed.

End Generation.

(** ** Relabelling *)

Lemma has_f_append (a b : string) :
  Relabeling.has_f (a +:+ b) = Relabeling.has_f a || Relabeling.has_f b.
Proof.
  induction a as [| c a IH]; [reflexivity |]. simpl. rewrite IH.
  apply orb_assoc.
Qed.

Lemma replace_f_leaves_no_f (baseLabel label : string) :
  Relabeling.has_f baseLabel = false →
  Relabeling.has_f (Relabeling.replace_f baseLabel label) = false.
Proof.
  intros Hbase. induction label as [| c rest IH]; [reflexivity |]. simpl.
  destruct (Ascii.eqb c "f") eqn:Hc.
  - rewrite has_f_append, Hbase, IH. reflexivity.
  - simpl. rewrite Hc, IH. reflexivity.
Qed.

(** X15: relabelling a tree for a domain keeps its order, the number of
    its children and its depth, and leaves no letter f in any label of
    the tree; [generateDomainSpecific] returns as many trees as
    [generate], of the same orders. *)
Theorem relabelForDomain_keeps_shape (domain : DomainType) :
  (∀ tree,
     let relabelled := Relabeling.relabelForDomain tree domain in
     tree_order relabelled = tree_order tree ∧
     length (tree_children relabelled) = length (tree_children tree) ∧
     BSeriesEngine.computeTreeDepth relabelled = BSeriesEngine.computeTreeDepth tree ∧
     Forall (fun label => Relabeling.has_f label = false) (Relabeling.labels relabelled)) ∧
  (∀ order,
     List.map tree_order (Relabeling.generateDomainSpecific domain order)
     = List.map tree_order (ElementaryDifferentialsGenerator.generate order)).
Proof.
  assert (Hglyph : Relabeling.has_f (Relabeling.domainLabels domain) = false)
    by (destruct domain; reflexivity).
  assert (Htree : ∀ tree,
     tree_order (Relabeling.relabelForDomain tree domain) = tree_order tree ∧
     length (tree_children (Relabeling.relabelForDomain tree domain))
       = length (tree_children tree) ∧
     BSeriesEngine.computeTreeDepth (Relabeling.relabelForDomain tree domain)
       = BSeriesEngine.computeTreeDepth tree ∧
     Forall (fun label => Relabeling.has_f label = false)
            (Relabeling.labels (Relabeling.relabelForDomain tree domain))).
  { apply RootedTree_nested_ind. intros order label children IH.
    cbn [Relabeling.relabelForDomain tree_order tree_children Relabeling.labels].
    split; [reflexivity |]. split; [apply length_map |]. split.
    - assert (Hdepths : List.map BSeriesEngine.computeTreeDepth
                          (List.map (fun child => Relabeling.relabelForDomain child domain)
                                    children)
                        = List.map BSeriesEngine.computeTreeDepth children).
      { rewrite List.map_map. apply map_ext_Forall.
        eapply Forall_impl; [exact IH |]. intros c (_ & _ & Hd & _). exact Hd. }
      destruct children as [| c cs]; [reflexivity |].
      cbn [List.map] in *. injection Hdepths as Hc Hcs.
      cbn [BSeriesEngine.computeTreeDepth]. rewrite Hc, Hcs. reflexivity.
    - constructor; [apply replace_f_leaves_no_f; exact Hglyph |].
      apply Forall_forall. intros l Hl. apply list_elem_of_In in Hl.
      apply in_flat_map in Hl as (c & Hc & Hl).
      apply in_map_iff in Hc as (c0 & <- & Hc0).
      rewrite Forall_forall in IH.
      destruct (IH c0 ltac:(apply list_elem_of_In; exact Hc0)) as (_ & _ & _ & Hlabels).
      rewrite Forall_forall in Hlabels. apply Hlabels. apply list_elem_of_In. exact Hl. }
  split; [exact Htree |].
  intros order. unfold Relabeling.generateDomainSpecific. rewrite List.map_map.
  apply map_ext. intros t. apply Htree.
Qed.

(** ** Grip recalculation, distances and fitness *)

Lemma fold_left_Qplus_nonneg {A} (f : A → Q) (l : list A) (acc : Q) :
  (0 <= acc)%Q → (∀ x, 0 <= f x)%Q →
  (0 <= fold_left (fun a b => a + f b) l acc)%Q.
Proof.
  intros Hacc Hf. revert acc Hacc.
  induction l as [| x l IH]; intros acc Hacc; simpl; [exact Hacc |].
  apply IH. pose proof (Hf x). lra.
Qed.

Lemma Qsum_nonneg (l : list Q) : Forall (fun x => 0 <= x)%Q l → (0 <= Qsum l)%Q.
Proof.
  unfold Qsum. intros Hall.
  assert (Hgen : ∀ acc, (0 <= acc)%Q → (0 <= fold_left Qplus l acc)%Q).
  { induction Hall as [| x l Hx _ IH]; intros acc Hacc; simpl; [exact Hacc |].
    apply IH. lra. }
  apply Hgen. lra.
Qed.

Lemma Qsum_zero (l : list Q) : Forall (fun x => x == 0)%Q l → (Qsum l == 0)%Q.
Proof.
  unfold Qsum. intros Hall.
  assert (Hgen : ∀ acc, (acc == 0)%Q → (fold_left Qplus l acc == 0)%Q).
  { induction Hall as [| x l Hx _ IH]; intros acc Hacc; simpl; [exact Hacc |].
    apply IH. lra. }
  apply Hgen. reflexivity.
Qed.

Lemma Qdiv_nonneg (x n : Q) : (0 <= x)%Q → (0 < n)%Q → (0 <= x / n)%Q.
Proof. intros Hx Hn. apply Qle_shift_div_l; [exact Hn | lra]. Qed.

Lemma len_positive {A} (l : list A) : l ≠ [] → (0 < inject_Z (len l))%Q.
Proof.
  intros Hne. change 0%Q with (inject_Z 0). rewrite <- Zlt_Qlt.
  unfold len. destruct l; [congruence | simpl; lia].
Qed.

Lemma square_nonneg (x : Q) : (0 <= Qpower x 2)%Q.
Proof. change (Qpower x 2) with (x * x)%Q. nra. Qed.

Lemma variance_nonneg (values : list Q) :
  values ≠ [] → (0 <= OntogenesisEngine.variance values)%Q.
Proof.
  intros Hne. unfold OntogenesisEngine.variance.
  apply Qdiv_nonneg; [| apply len_positive; exact Hne].
  apply Qsum_nonneg. apply Forall_fmap, Forall_forall. intros v _. apply square_nonneg.
Qed.

(** X16: for a kernel that has coefficients, the recalculated grip has
    its contact in [0, 1], its coverage in (0, 1] and its stability at
    most 1; the stability is non-negative exactly when the variance of
    the coefficients is at most 10, so it leaves [0, 1] above that; the
    efficiency is 0.95 times the one the kernel had. *)
Theorem recalculateGrip_bounds (kernel : OntogeneticKernel) :
  coefficients kernel ≠ [] →
  let g := OntogenesisEngine.recalculateGrip kernel in
  (0 <= contact g)%Q ∧ (contact g <= 1)%Q ∧
  (0 < coverage g)%Q ∧ (coverage g <= 1)%Q ∧
  (stability g <= 1)%Q ∧
  ((0 <= stability g)%Q ↔ (OntogenesisEngine.variance (coefficients kernel) <= 10)%Q) ∧
  (efficiency g == efficiency (grip kernel) * 0.95)%Q.
Proof.
  intros Hne. cbv zeta. unfold OntogenesisEngine.recalculateGrip.
  cbn [contact coverage stability efficiency].
  pose proof (variance_nonneg _ Hne) as Hvar.
  set (v := OntogenesisEngine.variance (coefficients kernel)) in *.
  assert (Hsum : (0 <= fold_left (fun a b => a + Qabs b) (coefficients kernel) 0)%Q)
    by (apply fold_left_Qplus_nonneg; [lra | apply Qabs_nonneg]).
  assert (Hinv : (0 < 1.0 / (1.0 + v))%Q).
  { apply Qlt_shift_div_l; lra. }
  split; [apply Q.min_glb; [lra | apply Qdiv_nonneg; [exact Hsum | apply len_positive, Hne]] |].
  split; [eapply Qle_trans; [apply Q.le_min_l | lra] |].
  split; [apply Q.min_glb_lt; [lra | exact Hinv] |].
  split; [eapply Qle_trans; [apply Q.le_min_l | lra] |].
  split; [eapply Qle_trans; [apply Q.le_min_l | lra] |].
  split; [| reflexivity].
  split.
  - intros Hst. destruct (Qlt_le_dec 10 v) as [Hbig | Hok]; [| exact Hok].
    exfalso. pose proof (Q.le_min_r 1.0 (1.0 - v / 10)) as Hmin.
    unfold Qdiv in Hmin, Hst. change (/ 10)%Q with (1 # 10)%Q in Hmin, Hst. lra.
  - intros Hle. apply Q.min_glb; [lra |].
    unfold Qdiv. change (/ 10)%Q with (1 # 10)%Q. lra.
Qed.

Lemma recalculateGrip_bounds_witness :
  let g := OntogenesisEngine.recalculateGrip
             (individual [0.25; 1]%Q (0%Z, 0.25%Q) 0 0 embryonic 0) in
  (0 <= contact g)%Q ∧ (contact g <= 1)%Q ∧
  (0 < coverage g)%Q ∧ (coverage g <= 1)%Q ∧
  (stability g <= 1)%Q ∧
  ((0 <= stability g)%Q ↔ (OntogenesisEngine.variance [0.25; 1] <= 10)%Q) ∧
  (efficiency g == efficiency halfGrip * 0.95)%Q.
Proof.
  apply (recalculateGrip_bounds (individual [0.25; 1]%Q (0%Z, 0.25%Q) 0 0 embryonic 0)).
  discriminate.
Defined.

Lemma geneticDistance_nonneg (k1 k2 : OntogeneticKernel) :
  coefficients k1 ≠ [] → (0 <= OntogenesisEngine.geneticDistance k1 k2)%Q.
Proof.
  intros Hne. unfold OntogenesisEngine.geneticDistance.
  apply Qdiv_nonneg.
  - apply Qsum_nonneg. apply imap_Forall. intros i c. apply Qabs_nonneg.
  - unfold len. rewrite length_imap. apply (len_positive _ Hne).
Qed.

Lemma geneticDistance_self (k : OntogeneticKernel) :
  (OntogenesisEngine.geneticDistance k k == 0)%Q.
Proof.
  unfold OntogenesisEngine.geneticDistance.
  assert (Hzero : (Qsum (imap (fun i c =>
            Qabs (c - match coefficients k !! i with Some c2 => c2 | None => 0 end)%Q)
            (coefficients k)) == 0)%Q).
  { apply Qsum_zero. apply Forall_forall. intros x Hx.
    apply list_elem_of_lookup in Hx as [i Hi].
    rewrite list_lookup_imap in Hi.
    destruct (coefficients k !! i) as [c |] eqn:Hc; [| discriminate].
    simpl in Hi. injection Hi as <-.
    assert (Hdiff : (c - c == 0)%Q) by ring.
    apply Qabs_wd in Hdiff. exact Hdiff. }
  unfold Qdiv. rewrite Hzero. ring.
Qed.

Lemma fold_left_distance_nonneg (compared : list (OntogeneticKernel * OntogeneticKernel)) :
  Forall (fun ij => coefficients (fst ij) ≠ []) compared →
  ∀ acc, (0 <= acc)%Q →
  (0 <= fold_left (fun total ij =>
         total + OntogenesisEngine.geneticDistance (fst ij) (snd ij)) compared acc)%Q.
Proof.
  induction 1 as [| ij rest Hij _ IH]; intros acc Hacc; simpl; [exact Hacc |].
  apply IH. pose proof (geneticDistance_nonneg (fst ij) (snd ij) Hij). lra.
Qed.

Lemma pairs_first_components (population : list OntogeneticKernel)
    (P : OntogeneticKernel → Prop) :
  Forall P population →
  Forall (fun ij => P (fst ij)) (OntogenesisEngine.pairs population).
Proof.
  induction 1 as [| k rest Hk Hrest IH]; [constructor |].
  cbn [OntogenesisEngine.pairs]. apply Forall_app. split; [| exact IH].
  apply Forall_fmap, Forall_forall. intros x _. exact Hk.
Qed.

(** X17: the genetic distance is never negative and is 0 between a
    kernel and itself; the novelty of a kernel lies in [0, 1] and is 1
    when every individual of the population has the kernel's id; the
    diversity of a population is never negative and is 0 for fewer than
    two individuals.  The kernels are taken to have coefficients. *)
Theorem distances_are_bounded (population : list OntogeneticKernel)
    (kernel other : OntogeneticKernel) :
  coefficients kernel ≠ [] →
  Forall (fun k => coefficients k ≠ []) population →
  (0 <= OntogenesisEngine.geneticDistance kernel other)%Q ∧
  (OntogenesisEngine.geneticDistance kernel kernel == 0)%Q ∧
  (0 <= OntogenesisEngine.calculateNovelty kernel population)%Q ∧
  (OntogenesisEngine.calculateNovelty kernel population <= 1)%Q ∧
  (Forall (fun k => id_eqb (id (genome k)) (id (genome kernel)) = true) population →
     OntogenesisEngine.calculateNovelty kernel population = 1.0%Q) ∧
  (0 <= OntogenesisEngine.calculateDiversity population)%Q ∧
  ((length population < 2)%nat → OntogenesisEngine.calculateDiversity population = 0%Q).
Proof.
  intros Hk Hpop.
  split; [apply geneticDistance_nonneg; exact Hk |].
  split; [apply geneticDistance_self |].
  assert (Hnovelty : (0 <= OntogenesisEngine.calculateNovelty kernel population)%Q ∧
                     (OntogenesisEngine.calculateNovelty kernel population <= 1)%Q).
  { unfold OntogenesisEngine.calculateNovelty.
    destruct (List.map _ _) as [| d ds] eqn:Hds; [split; lra |].
    split; [| eapply Qle_trans; [apply Q.le_min_l | lra]].
    apply Q.min_glb; [lra |].
    apply Qdiv_nonneg; [| apply len_positive; discriminate].
    apply Qsum_nonneg. rewrite <- Hds.
    apply Forall_fmap, Forall_forall. intros x _. apply geneticDistance_nonneg. exact Hk. }
  split; [apply Hnovelty |]. split; [apply Hnovelty |].
  split.
  - intros Hsame. unfold OntogenesisEngine.calculateNovelty.
    replace (List.filter _ population) with (@nil OntogeneticKernel); [reflexivity |].
    clear Hpop Hnovelty. induction Hsame as [| x xs Hx _ IH]; [reflexivity |].
    simpl. rewrite Hx. exact IH.
  - unfold OntogenesisEngine.calculateDiversity. split.
    + destruct (len population <? 2)%Z; [lra |].
      destruct (Z.ltb_spec 0 (len (OntogenesisEngine.pairs population))) as [Hpos | _]; [| lra].
      apply Qdiv_nonneg.
      * apply fold_left_distance_nonneg; [| lra].
        apply (pairs_first_components population (fun k => coefficients k ≠ [])). exact Hpop.
      * change 0%Q with (inject_Z 0). rewrite <- Zlt_Qlt. exact Hpos.
    + intros Hlen. destruct (Z.ltb_spec (len population) 2) as [_ | Hge]; [reflexivity |].
      unfold len in Hge. lia.
Qed.

Lemma distances_are_bounded_witness :
  let a := individual [0.25; 1]%Q (0%Z, 0.25%Q) 0 0 embryonic 0 in
  let b := individual [0.5; 0.5]%Q (0%Z, 0.5%Q) 1 0 embryonic 0 in
  (0 <= OntogenesisEngine.geneticDistance a b)%Q ∧
  (OntogenesisEngine.geneticDistance a a == 0)%Q ∧
  (0 <= OntogenesisEngine.calculateNovelty a [a; b])%Q ∧
  (OntogenesisEngine.calculateNovelty a [a; b] <= 1)%Q ∧
  (Forall (fun k => id_eqb (id (genome k)) (id (genome a)) = true) [a; b] →
     OntogenesisEngine.calculateNovelty a [a; b] = 1.0%Q) ∧
  (0 <= OntogenesisEngine.calculateDiversity [a; b])%Q ∧
  ((length [a; b] < 2)%nat → OntogenesisEngine.calculateDiversity [a; b] = 0%Q).
Proof.
  cbv zeta. apply distances_are_bounded.
  - discriminate.
  - constructor; [discriminate | constructor; [discriminate | constructor]].
Defined.

(** X18: the fitness is a weighted mean with the weights 0.4, 0.2, 0.2,
    0.1, 0.1: when the five scores lie in [0, 1] so does the fitness, and
    without scores, novelty and symmetry counting 0.5 each, a grip with
    components in [0, 1] gives a fitness in [0.1, 0.9]. *)
Theorem calculateFitness_bounds (kernel : OntogeneticKernel) :
  (∀ scores,
     (0 <= score_grip scores <= 1)%Q → (0 <= score_stability scores <= 1)%Q →
     (0 <= score_efficiency scores <= 1)%Q → (0 <= score_novelty scores <= 1)%Q →
     (0 <= score_symmetry scores <= 1)%Q →
     (0 <= OntogenesisEngine.calculateFitness kernel (Some scores) <= 1)%Q) ∧
  ((0 <= overall (grip kernel) <= 1)%Q → (0 <= stability (grip kernel) <= 1)%Q →
   (0 <= efficiency (grip kernel) <= 1)%Q →
   (0.1 <= OntogenesisEngine.calculateFitness kernel None <= 0.9)%Q).
Proof.
  unfold OntogenesisEngine.calculateFitness. split.
  - intros scores Hg Hs He Hn Hy. split; lra.
  - cbn [score_grip score_stability score_efficiency score_novelty score_symmetry].
    intros Hg Hs He. split; lra.
Qed.

Lemma calculateFitness_bounds_witness :
  (0.1 <= OntogenesisEngine.calculateFitness
            (individual [0.25; 1]%Q (0%Z, 0.25%Q) 0 0 embryonic 0) None <= 0.9)%Q.
Proof.
  apply (proj2 (calculateFitness_bounds
                  (individual [0.25; 1]%Q (0%Z, 0.25%Q) 0 0 embryonic 0)));
    simpl; unfold Qle; simpl; lia.
Defined.

(** ** Genes and initialization *)

(** X19: [mergeGenes] returns as many genes as the longer parent has;
    where both parents have a gene, the merged gene has the type, value
    and mutability of the first parent's and the mean of the two
    expression strengths, and beyond the shorter parent it is the gene of
    the longer one. *)
Theorem mergeGenes_pointwise (genes1 genes2 : list KernelGene) :
  length (OntogenesisEngine.mergeGenes genes1 genes2)
    = Nat.max (length genes1) (length genes2) ∧
  ∀ i : nat,
    OntogenesisEngine.mergeGenes genes1 genes2 !! i =
    match genes1 !! i, genes2 !! i with
    | Some g1, Some g2 =>
        Some {| gene_type := gene_type g1; gene_value := gene_value g1;
                expressionStrength := (expressionStrength g1 + expressionStrength g2) / 2;
                mutable := mutable g1 |}
    | Some g1, None => Some g1
    | None, Some g2 => Some g2
    | None, None => None
    end.
Proof.
  split.
  - revert genes2. induction genes1 as [| g1 r1 IH]; intros [| g2 r2]; simpl;
      try reflexivity. rewrite IH. reflexivity.
  - revert genes2. induction genes1 as [| g1 r1 IH]; intros genes2 i.
    + destruct genes2 as [| g2 r2]; [destruct i; reflexivity |].
      cbn [OntogenesisEngine.mergeGenes]. rewrite lookup_nil.
      destruct ((g2 :: r2) !! i); reflexivity.
    + destruct genes2 as [| g2 r2].
      * cbn [OntogenesisEngine.mergeGenes]. rewrite lookup_nil.
        destruct ((g1 :: r1) !! i); reflexivity.
      * cbn [OntogenesisEngine.mergeGenes]. destruct i as [| i]; [reflexivity |].
        simpl. apply IH.
Qed.




(** ** Crossover *)

Lemma slice_prefix_take {A} (l : list A) (point : Z) :
  (0 <= point)%Z → slice l 0 point = take (Z.to_nat point) l.
Proof.
  intros Hpoint. unfold slice.
  assert (slice_index l 0 = 0%nat) as ->
    by (unfold slice_index, len; simpl; lia).
  assert (slice_index l point = Nat.min (Z.to_nat point) (length l)) as ->
    by (unfold slice_index, len; destruct (Z.ltb_spec point 0); lia).
  rewrite drop_0, Nat.sub_0_r.
  destruct (Nat.le_ge_cases (Z.to_nat point) (length l)) as [Hle | Hge].
  - rewrite Nat.min_l by exact Hle. reflexivity.
  - rewrite Nat.min_r by exact Hge. rewrite !take_ge by lia. reflexivity.
Qed.

Lemma slice_from_drop {A} (l : list A) (point : Z) :
  (0 <= point)%Z → slice_from l point = drop (Z.to_nat point) l.
Proof.
  intros Hpoint. unfold slice_from.
  assert (slice_index l point = Nat.min (Z.to_nat point) (length l)) as ->
    by (unfold slice_index, len; destruct (Z.ltb_spec point 0); lia).
  destruct (Nat.le_ge_cases (Z.to_nat point) (length l)) as [Hle | Hge].
  - rewrite Nat.min_l by exact Hle. reflexivity.
  - rewrite Nat.min_r by exact Hge. rewrite !drop_ge by lia. reflexivity.
Qed.

Lemma createOffspring_result (parent1 parent2 : OntogeneticKernel)
    (coeffs : list Q) (w : World) :
  is_Some (heap w !! bSeries parent1) →
  ∃ child w',
    OntogenesisEngine.createOffspring parent1 parent2 coeffs w = Ok child w' ∧
    same_objects w w' ∧
    coefficients child = coeffs ∧
    bSeries child = bSeries parent1 ∧
    lineage (genome child) = [id (genome parent1); id (genome parent2)] ∧
    generation (genome child)
      = (Z.max (generation (genome parent1)) (generation (genome parent2)) + 1)%Z ∧
    age (genome child) = 0%Z ∧
    ontogeneticState child = OntogenesisEngine.createInitialState ∧
    genes (genome child)
      = OntogenesisEngine.mergeGenes (genes (genome parent1)) (genes (genome parent2)).
Proof.
  intros [bs Hbs].
  unfold OntogenesisEngine.createOffspring, OntogenesisEngine.generateId. run_js.
  cbn [bSeries heap]. rewrite Hbs.
  eexists _, _. split; [reflexivity |].
  cbn [coefficients bSeries genome lineage generation age ontogeneticState genes].
  split; [| repeat split].
  split; [reflexivity |]. intros l. cbn [heap].
  destruct (decide (l = bSeries parent1)) as [-> | Hneq].
  - rewrite lookup_insert_eq, Hbs. split; intros _; eexists; reflexivity.
  - rewrite lookup_insert_ne by congruence. reflexivity.
Qed.

(** X21: crossover is a splice, not a blend.  With the draw in [0, 1)
    and a first parent that has coefficients, there is a cut point below
    the length of the first parent's array such that the first offspring
    has the first parent's coefficients before the cut and the second
    parent's from the cut on, and the second offspring the converse; both
    have the lineage of the two parents' ids, the generation one above
    the later parent's, age 0 and a fresh state.  For parents of one
    length every coefficient of the first offspring is, at its index, a
    coefficient of one of the parents. *)
Theorem crossover_splices (parent1 parent2 : OntogeneticKernel) (w : World) :
  random_in_unit w →
  coefficients parent1 ≠ [] →
  is_Some (heap w !! bSeries parent1) →
  ∃ (point : nat) c1 c2 w',
    OntogenesisEngine.crossover parent1 parent2 w = Ok [c1; c2] w' ∧
    (point < length (coefficients parent1))%nat ∧
    coefficients c1 = take point (coefficients parent1) ++ drop point (coefficients parent2) ∧
    coefficients c2 = take point (coefficients parent2) ++ drop point (coefficients parent1) ∧
    Forall (fun c =>
      lineage (genome c) = [id (genome parent1); id (genome parent2)] ∧
      generation (genome c)
        = (Z.max (generation (genome parent1)) (generation (genome parent2)) + 1)%Z ∧
      age (genome c) = 0%Z ∧
      ontogeneticState c = OntogenesisEngine.createInitialState) [c1; c2] ∧
    (length (coefficients parent2) = length (coefficients parent1) →
       length (coefficients c1) = length (coefficients parent1) ∧
       ∀ i : nat, coefficients c1 !! i = coefficients parent1 !! i ∨
                  coefficients c1 !! i = coefficients parent2 !! i).
Proof.
  intros Hrand Hne Hheap.
  destruct (Hrand (drawn w)) as [Hr0 Hr1].
  destruct (random_index_in_range (coefficients parent1) _ Hne Hr0 Hr1) as (x & Hget & Hnth).
  set (point := Qfloor (random_source w (drawn w) * inject_Z (len (coefficients parent1)))) in *.
  assert (Hpoint : (0 <= point)%Z)
    by (unfold array_get in Hget; destruct (Z.ltb_spec point 0); [discriminate | assumption]).
  apply lookup_lt_Some in Hnth.
  destruct (Math_random_run w) as (w0 & Hrun0 & Hobj0).
  destruct (createOffspring_result parent1 parent2
              (slice (coefficients parent1) 0 point ++ slice_from (coefficients parent2) point)
              w0 ltac:(apply Hobj0; exact Hheap))
    as (c1 & w1 & Hrun1 & Hobj1 & Hc1 & _ & Hl1 & Hg1 & Ha1 & Hs1 & _).
  destruct (createOffspring_result parent1 parent2
              (slice (coefficients parent2) 0 point ++ slice_from (coefficients parent1) point)
              w1 ltac:(apply Hobj1, Hobj0; exact Hheap))
    as (c2 & w2 & Hrun2 & Hobj2 & Hc2 & _ & Hl2 & Hg2 & Ha2 & Hs2 & _).
  rewrite !slice_prefix_take, !slice_from_drop in Hc1, Hc2 by exact Hpoint.
  exists (Z.to_nat point), c1, c2, w2. split.
  - unfold OntogenesisEngine.crossover.
    rewrite (bind_run _ _ w w0 _ Hrun0). fold point.
    rewrite (bind_run _ _ w0 w1 c1 Hrun1), (bind_run _ _ w1 w2 c2 Hrun2). reflexivity.
  - split; [exact Hnth |]. split; [exact Hc1 |]. split; [exact Hc2 |].
    split; [repeat constructor; assumption |].
    intros Hlen. split.
    + rewrite Hc1, length_app, length_take, length_drop. lia.
    + intros i. rewrite Hc1.
      destruct (Nat.lt_ge_cases i (Z.to_nat point)) as [Hlt | Hge].
      * left. rewrite lookup_app_l by (rewrite length_take; lia).
        apply lookup_take_lt. exact Hlt.
      * right. rewrite lookup_app_r by (rewrite length_take; lia).
        rewrite length_take, lookup_drop. f_equal. lia.
Qed.

Lemma crossover_splices_witness :
  let p1 := individual [0.25; 1]%Q (0%Z, 0.25%Q) 0 0 embryonic 0 in
  let p2 := individual [0.5; 0.5]%Q (0%Z, 0.5%Q) 1 0 embryonic 0 in
  ∃ (point : nat) c1 c2 w',
    OntogenesisEngine.crossover p1 p2 (constantWorld 0.75) = Ok [c1; c2] w' ∧
    (point < length (coefficients p1))%nat ∧
    coefficients c1 = take point (coefficients p1) ++ drop point (coefficients p2) ∧
    coefficients c2 = take point (coefficients p2) ++ drop point (coefficients p1) ∧
    Forall (fun c =>
      lineage (genome c) = [id (genome p1); id (genome p2)] ∧
      generation (genome c)
        = (Z.max (generation (genome p1)) (generation (genome p2)) + 1)%Z ∧
      age (genome c) = 0%Z ∧
      ontogeneticState c = OntogenesisEngine.createInitialState) [c1; c2] ∧
    (length (coefficients p2) = length (coefficients p1) →
       length (coefficients c1) = length (coefficients p1) ∧
       ∀ i : nat, coefficients c1 !! i = coefficients p1 !! i ∨
                  coefficients c1 !! i = coefficients p2 !! i).
Proof.
  cbv zeta. apply crossover_splices.
  - intros n. simpl. unfold Qle, Qlt. simpl. lia.
  - discriminate.
  - exists halfExpansion. reflexivity.
Defined.

(** ** Lines of descent *)

Lemma selfGenerate_child (parent : OntogeneticKernel) (w : World) :
  is_Some (heap w !! bSeries parent) →
  ∃ child w',
    OntogenesisEngine.selfGenerate parent w = Ok child w' ∧
    is_Some (heap w' !! bSeries child) ∧
    heap w !! bSeries child = None ∧
    generation (genome child) = (generation (genome parent) + 1)%Z ∧
    lineage (genome child) = [id (genome parent)] ∧
    domain child = domain parent ∧
    order child = order parent ∧
    ontogeneticState child = OntogenesisEngine.createInitialState ∧
    age (genome child) = 0%Z.
Proof.
  intros [bs Hbs].
  unfold OntogenesisEngine.selfGenerate, OntogenesisEngine.asGenerated,
    OntogenesisEngine.initialize, OntogenesisEngine.extractGenome,
    OntogenesisEngine.generateId, OntogenesisEngine.recordOperation.
  run_js. rewrite Hbs. cbn [clock heap random_source drawn operationHistory].
  eexists _, _. split; [reflexivity |].
  cbn [bSeries heap genome generation lineage domain order ontogeneticState age].
  split; [rewrite lookup_insert_eq; eexists; reflexivity |].
  split; [apply not_elem_of_dom, is_fresh |].
  split; [reflexivity |]. split; [reflexivity |].
  split; [| split; [| split; reflexivity]].
  - destruct (OntogenesisEngine.selectOperator parent); reflexivity.
  - destruct (OntogenesisEngine.selectOperator parent); cbn; lia.
Qed.

(** X22: a line of self-generated offspring never fails and counts its
    generations.  From a parent whose expansion is allocated, [n]
    successive calls of [selfGenerate], each on the offspring of the call
    before, return an individual of the parent's domain and order whose
    generation is the parent's plus [n]; for [n] above 0 it is embryonic
    with age 0, its lineage holds one id, and its expansion is an object
    that did not exist before the calls. *)
Theorem selfGenerate_line_of_descent (n : nat) (parent : OntogeneticKernel) (w : World) :
  is_Some (heap w !! bSeries parent) →
  ∃ descendant w',
    descend n parent w = Ok descendant w' ∧
    is_Some (heap w' !! bSeries descendant) ∧
    generation (genome descendant) = (generation (genome parent) + Z.of_nat n)%Z ∧
    domain descendant = domain parent ∧
    order descendant = order parent ∧
    ((0 < n)%nat →
       length (lineage (genome descendant)) = 1%nat ∧
       ontogeneticState descendant = OntogenesisEngine.createInitialState ∧
       age (genome descendant) = 0%Z ∧
       heap w !! bSeries descendant = None).
Proof.
  revert parent w. induction n as [| n IH]; intros parent w Hheap.
  - exists parent, w. simpl. split; [reflexivity |]. split; [exact Hheap |].
    split; [lia |]. split; [reflexivity |]. split; [reflexivity |]. lia.
  - destruct (selfGenerate_child parent w Hheap)
      as (child & w1 & Hrun & Hchild & Hnew & Hgen & Hlin & Hdom & Hord & Hstate & Hage).
    destruct (IH child w1 Hchild) as (d & w2 & Hrun2 & Hd & Hgen2 & Hdom2 & Hord2 & Hrest).
    exists d, w2. simpl descend. rewrite (bind_run _ _ w w1 child Hrun).
    split; [exact Hrun2 |]. split; [exact Hd |].
    split; [rewrite Hgen2, Hgen; lia |].
    split; [congruence |]. split; [congruence |].
    intros _. destruct n as [| n'].
    + simpl in Hrun2. injection Hrun2 as -> ->.
      rewrite Hlin. repeat split; assumption.
    + destruct (Hrest ltac:(lia)) as (Hl & Hs & Ha & Hfresh).
      split; [exact Hl |]. split; [exact Hs |]. split; [exact Ha |].
      destruct (heap w !! bSeries d) eqn:Hold; [| reflexivity].
      exfalso.
      assert (Hsub : ∀ l, is_Some (heap w !! l) → is_Some (heap w1 !! l)).
      { clear - Hrun Hheap. destruct Hheap as [bs Hbs]. revert Hrun.
        unfold OntogenesisEngine.selfGenerate, OntogenesisEngine.asGenerated,
          OntogenesisEngine.initialize, OntogenesisEngine.extractGenome,
          OntogenesisEngine.generateId, OntogenesisEngine.recordOperation.
        run_js. rewrite Hbs. cbn [clock heap random_source drawn operationHistory].
        intros [= <- <-] l [x Hx]. cbn [heap].
        destruct (decide (l = fresh (dom (heap w)))) as [-> | Hneq].
        - rewrite lookup_insert_eq. eexists; reflexivity.
        - rewrite lookup_insert_ne by congruence. eexists; exact Hx. }
      destruct (Hsub (bSeries d) ltac:(eexists; exact Hold)) as [x Hx].
      congruence.
Qed.

Lemma selfGenerate_line_of_descent_witness :
  let parent := individual [0.25; 1]%Q (0%Z, 0.25%Q) 0 0 embryonic 0 in
  ∃ descendant w',
    descend 3 parent (constantWorld 0.5) = Ok descendant w' ∧
    is_Some (heap w' !! bSeries descendant) ∧
    generation (genome descendant) = (generation (genome parent) + Z.of_nat 3)%Z ∧
    domain descendant = domain parent ∧
    order descendant = order parent ∧
    ((0 < 3)%nat →
       length (lineage (genome descendant)) = 1%nat ∧
       ontogeneticState descendant = OntogenesisEngine.createInitialState ∧
       age (genome descendant) = 0%Z ∧
       heap (constantWorld 0.5) !! bSeries descendant = None).
Proof.
  cbv zeta. apply selfGenerate_line_of_descent.
  exists halfExpansion. reflexivity.
Defined.


(** ** The operation history *)

Lemma recordAll_history (operations : list OntogeneticOperation) (w : World) :
  (length (operationHistory w) <= 1000)%nat →
  ∃ w',
    recordAll operations w = Ok tt w' ∧
    heap w' = heap w ∧ drawn w' = drawn w ∧ clock w' = clock w ∧
    operationHistory w' =
      drop (length (operationHistory w ++ operations) - 1000)
           (operationHistory w ++ operations).
Proof.
  revert w. induction operations as [| op rest IH]; intros w Hlen.
  - exists w. split; [reflexivity |]. repeat split.
    rewrite app_nil_r. replace (_ - 1000)%nat with 0%nat by lia. reflexivity.
  - cbn [recordAll]. unfold OntogenesisEngine.recordOperation at 1.
    cbv [mbind M_bind]. unfold len.
    set (pushed := operationHistory w ++ [op]).
    assert (Hpushed : length pushed = S (length (operationHistory w)))
      by (unfold pushed; rewrite length_app; simpl; lia).
    destruct (Z.ltb_spec 1000 (Z.of_nat (length pushed))) as [Hover | Hfits].
    + match goal with |- ∃ w', recordAll rest ?w1 = _ ∧ _ => destruct (IH w1) as (w' & Hrun & Hh & Hd & Hc & Hhist) end.
      { cbn [operationHistory]. rewrite length_drop. lia. }
      exists w'. split; [exact Hrun |]. cbn [heap drawn clock operationHistory] in *.
      split; [exact Hh |]. split; [exact Hd |]. split; [exact Hc |].
      rewrite Hhist.
      assert (Hshift : drop 1 pushed ++ rest = drop 1 (operationHistory w ++ op :: rest)).
      { unfold pushed. destruct (operationHistory w) as [| first h]; [reflexivity |].
        simpl. rewrite !drop_0, <- app_assoc. reflexivity. }
      rewrite Hshift, drop_drop, length_drop. f_equal.
      rewrite !length_app. simpl. lia.
    + match goal with |- ∃ w', recordAll rest ?w1 = _ ∧ _ => destruct (IH w1) as (w' & Hrun & Hh & Hd & Hc & Hhist) end.
      { cbn [operationHistory]. lia. }
      exists w'. split; [exact Hrun |]. cbn [heap drawn clock operationHistory] in *.
      split; [exact Hh |]. split; [exact Hd |]. split; [exact Hc |].
      rewrite Hhist. unfold pushed.
      replace ((operationHistory w ++ [op]) ++ rest)
        with (operationHistory w ++ op :: rest)
        by (rewrite <- app_assoc; reflexivity).
      reflexivity.
Qed.

(** X23: the history holds the last thousand operations.  After
    [reset], recording any list of operations leaves in the history,
    which [getOperationHistory] returns, the last 1000 of them in the
    order recorded (all of them when there are at most 1000); the
    recording touches neither the objects nor the clock. *)
Theorem history_holds_last_thousand (operations : list OntogeneticOperation) (w : World) :
  ∃ w0 w',
    Lifecycle.reset w = Ok tt w0 ∧
    recordAll operations w0 = Ok tt w' ∧
    Lifecycle.getOperationHistory w' =
      Ok (drop (length operations - 1000) operations) w' ∧
    (length (operationHistory w') <= 1000)%nat ∧
    heap w' = heap w ∧ clock w' = clock w.
Proof.
  eexists. destruct (recordAll_history operations
    {| heap := heap w; random_source := random_source w; drawn := drawn w;
       clock := clock w; operationHistory := [] |}) as (w' & Hrun & Hh & _ & Hc & Hhist).
  { simpl. lia. }
  exists w'. split; [reflexivity |]. split; [exact Hrun |].
  cbn [operationHistory heap clock app] in *.
  split; [unfold Lifecycle.getOperationHistory; rewrite Hhist; reflexivity |].
  split; [rewrite Hhist, length_drop; lia |]. split; assumption.
Qed.

(** ** Selection *)

(** X24: what a tournament returns.  On no evaluations the selection
    throws a [TypeError], whatever the draws.  On some evaluations and
    draws in [0, 1) the tournament holds the evaluations at the indices
    [floor(r * length)] for the next three draws [r]; the selection
    returns the first of the three that no other of them exceeds in
    [overall], so an earlier entry wins a tie; and it makes the three
    draws and nothing else: no object, the clock and the history are
    what they were. *)
Theorem tournamentSelect_picks_best_of_three (evaluations : list FitnessEvaluation)
    (w : World) :
  OntogenesisEngine.tournamentSelect [] 3 w = Abort TypeError ∧
  (evaluations ≠ [] → random_in_unit w →
   let entry := fun n : nat =>
     array_get evaluations
       (Qfloor (random_source w (n + drawn w)%nat * inject_Z (len evaluations))) in
   ∃ tournament best w' (first : nat),
     tournament = [entry 0%nat; entry 1%nat; entry 2%nat] ∧
     OntogenesisEngine.drawTournament 3 evaluations w = Ok tournament w' ∧
     OntogenesisEngine.tournamentSelect evaluations 3 w = Ok (Some best) w' ∧
     tournament !! first = Some (Some best) ∧
     In best evaluations ∧
     Forall (fun entry => ∃ e, entry = Some e ∧ In e evaluations ∧
                               (fe_overall e <= fe_overall best)%Q) tournament ∧
     (∀ (n : nat) e, (n < first)%nat → tournament !! n = Some (Some e) →
        (fe_overall e < fe_overall best)%Q) ∧
     heap w' = heap w ∧ random_source w' = random_source w ∧
     clock w' = clock w ∧ operationHistory w' = operationHistory w ∧
     drawn w' = (3 + drawn w)%nat).
Proof.
  split.
  { assert (Hnone : ∀ i : Z, array_get (@nil FitnessEvaluation) i = None)
      by (intros i; unfold array_get; destruct (i <? 0)%Z; reflexivity).
    unfold OntogenesisEngine.tournamentSelect. change (Z.to_nat 3) with 3%nat.
    cbn [OntogenesisEngine.drawTournament]. run_js. rewrite !Hnone. reflexivity. }
  intros Hne Hrand. cbv zeta.
  destruct (Hrand (0 + drawn w)%nat) as [Ha0 Ha1].
  destruct (Hrand (1 + drawn w)%nat) as [Hb0 Hb1].
  destruct (Hrand (2 + drawn w)%nat) as [Hc0 Hc1].
  destruct (random_index_in_range evaluations _ Hne Ha0 Ha1) as (e0 & Hget0 & Hnth0).
  destruct (random_index_in_range evaluations _ Hne Hb0 Hb1) as (e1 & Hget1 & Hnth1).
  destruct (random_index_in_range evaluations _ Hne Hc0 Hc1) as (e2 & Hget2 & Hnth2).
  assert (Hin0 : In e0 evaluations)
    by (apply list_elem_of_In; eapply list_elem_of_lookup_2; exact Hnth0).
  assert (Hin1 : In e1 evaluations)
    by (apply list_elem_of_In; eapply list_elem_of_lookup_2; exact Hnth1).
  assert (Hin2 : In e2 evaluations)
    by (apply list_elem_of_In; eapply list_elem_of_lookup_2; exact Hnth2).
  rewrite Hget0, Hget1, Hget2.
  assert (Hdraw : OntogenesisEngine.drawTournament 3 evaluations w
                  = Ok [Some e0; Some e1; Some e2]
                       {| heap := heap w; random_source := random_source w;
                          drawn := (3 + drawn w)%nat; clock := clock w;
                          operationHistory := operationHistory w |}).
  { cbn [OntogenesisEngine.drawTournament]. run_js.
    cbn [heap random_source drawn clock operationHistory].
    cbn [Nat.add] in Hget0, Hget1, Hget2. rewrite Hget0, Hget1, Hget2. reflexivity. }
  assert (Hlt : ∀ a b : FitnessEvaluation,
            Qltb (fe_overall a) (fe_overall b) = true → (fe_overall a < fe_overall b)%Q).
  { intros a b Hcmp. unfold Qltb in Hcmp. apply Qnot_le_lt. intros Hge.
    apply Qle_bool_iff in Hge. rewrite Hge in Hcmp. discriminate. }
  assert (Hge : ∀ a b : FitnessEvaluation,
            Qltb (fe_overall a) (fe_overall b) = false → (fe_overall b <= fe_overall a)%Q).
  { intros a b Hcmp. unfold Qltb in Hcmp. apply Qle_bool_iff.
    destruct (Qle_bool (fe_overall b) (fe_overall a)); [reflexivity | discriminate]. }
  assert (Hselect : ∀ best,
            OntogenesisEngine.reduceBest [Some e0; Some e1; Some e2]
              {| heap := heap w; random_source := random_source w;
                 drawn := (3 + drawn w)%nat; clock := clock w;
                 operationHistory := operationHistory w |}
            = Ok (Some best) {| heap := heap w; random_source := random_source w;
                                drawn := (3 + drawn w)%nat; clock := clock w;
                                operationHistory := operationHistory w |} →
            OntogenesisEngine.tournamentSelect evaluations 3 w
            = Ok (Some best) {| heap := heap w; random_source := random_source w;
                                drawn := (3 + drawn w)%nat; clock := clock w;
                                operationHistory := operationHistory w |}).
  { intros best Hbest. unfold OntogenesisEngine.tournamentSelect.
    change (Z.to_nat 3) with 3%nat. rewrite (bind_run _ _ _ _ _ Hdraw). exact Hbest. }
  assert (Hentries : ∀ best,
            (fe_overall e0 <= fe_overall best)%Q → (fe_overall e1 <= fe_overall best)%Q →
            (fe_overall e2 <= fe_overall best)%Q →
            Forall (fun entry => ∃ e, entry = Some e ∧ In e evaluations ∧
                                      (fe_overall e <= fe_overall best)%Q)
                   [Some e0; Some e1; Some e2]).
  { intros best H0 H1 H2.
    constructor; [exists e0; repeat split; assumption |].
    constructor; [exists e1; repeat split; assumption |].
    constructor; [exists e2; repeat split; assumption | constructor]. }
  destruct (Qltb (fe_overall e0) (fe_overall e1)) eqn:H01.
  - destruct (Qltb (fe_overall e1) (fe_overall e2)) eqn:H12.
    + pose proof (Hlt _ _ H01) as L01. pose proof (Hlt _ _ H12) as L12.
      eexists _, e2, _, 2%nat. split; [reflexivity |]. split; [exact Hdraw |].
      split; [apply Hselect; cbn [OntogenesisEngine.reduceBest fold_left]; run_js; rewrite H01, H12; reflexivity |].
      split; [reflexivity |]. split; [exact Hin2 |].
      split; [apply Hentries; lra |].
      split; [| repeat split].
      intros [| [| n]] e Hn He; [injection He as <-; lra | injection He as <-; lra | lia].
    + pose proof (Hlt _ _ H01) as L01. pose proof (Hge _ _ H12) as L12.
      eexists _, e1, _, 1%nat. split; [reflexivity |]. split; [exact Hdraw |].
      split; [apply Hselect; cbn [OntogenesisEngine.reduceBest fold_left]; run_js; rewrite H01, H12; reflexivity |].
      split; [reflexivity |]. split; [exact Hin1 |].
      split; [apply Hentries; lra |].
      split; [| repeat split].
      intros [| n] e Hn He; [injection He as <-; lra | lia].
  - destruct (Qltb (fe_overall e0) (fe_overall e2)) eqn:H02.
    + pose proof (Hge _ _ H01) as L01. pose proof (Hlt _ _ H02) as L02.
      eexists _, e2, _, 2%nat. split; [reflexivity |]. split; [exact Hdraw |].
      split; [apply Hselect; cbn [OntogenesisEngine.reduceBest fold_left]; run_js; rewrite H01, H02; reflexivity |].
      split; [reflexivity |]. split; [exact Hin2 |].
      split; [apply Hentries; lra |].
      split; [| repeat split].
      intros [| [| n]] e Hn He; [injection He as <-; lra | injection He as <-; lra | lia].
    + pose proof (Hge _ _ H01) as L01. pose proof (Hge _ _ H02) as L02.
      eexists _, e0, _, 0%nat. split; [reflexivity |]. split; [exact Hdraw |].
      split; [apply Hselect; cbn [OntogenesisEngine.reduceBest fold_left]; run_js; rewrite H01, H02; reflexivity |].
      split; [reflexivity |]. split; [exact Hin0 |].
      split; [apply Hentries; lra |].
      split; [| repeat split].
      intros n e Hn. lia.
Qed.

Lemma insert_by_overall_Permutation (x : FitnessEvaluation) (l : list FitnessEvaluation) :
  Permutation (OntogenesisEngine.insert_by_overall x l) (x :: l).
Proof.
  induction l as [| y rest IH]; [reflexivity |]. simpl.
  destruct (Qle_bool (fe_overall y) (fe_overall x)); [reflexivity |].
  rewrite IH. apply perm_swap.
Qed.

Lemma insert_by_overall_filter (q : Q) (x : FitnessEvaluation) (l : list FitnessEvaluation) :
  List.filter (fun e => Qeq_bool (fe_overall e) q) (OntogenesisEngine.insert_by_overall x l)
  = List.filter (fun e => Qeq_bool (fe_overall e) q) (x :: l).
Proof.
  induction l as [| y rest IH]; [reflexivity |]. cbn [OntogenesisEngine.insert_by_overall].
  destruct (Qle_bool (fe_overall y) (fe_overall x)) eqn:Hcmp; [reflexivity |].
  cbn [List.filter] in *. rewrite IH.
  destruct (Qeq_bool (fe_overall x) q) eqn:Hx; [| reflexivity].
  destruct (Qeq_bool (fe_overall y) q) eqn:Hy; [| reflexivity].
  apply Qeq_bool_iff in Hx, Hy.
  assert (Hle : (fe_overall y <= fe_overall x)%Q) by lra.
  apply Qle_bool_iff in Hle. congruence.
Qed.

(** X25: the ranking of [evolve].  Sorting the evaluations by
    [b.overall - a.overall] returns the same evaluations, none lost and
    none twice, in an order where no evaluation has an [overall] above
    that of one before it; evaluations of equal [overall] keep the order
    they had, so among equals the elite places go to the earlier
    individuals of the population. *)
Theorem sort_by_overall_ranks (l : list FitnessEvaluation) :
  Permutation (OntogenesisEngine.sort_by_overall l) l ∧
  StronglySorted (fun a b => (fe_overall b <= fe_overall a)%Q)
                 (OntogenesisEngine.sort_by_overall l) ∧
  ∀ q : Q,
    List.filter (fun e => Qeq_bool (fe_overall e) q) (OntogenesisEngine.sort_by_overall l)
    = List.filter (fun e => Qeq_bool (fe_overall e) q) l.
Proof.
  unfold OntogenesisEngine.sort_by_overall.
  split; [| split].
  - induction l as [| x rest IH]; [reflexivity |]. simpl.
    rewrite insert_by_overall_Permutation, IH. reflexivity.
  - induction l as [| x rest IH]; [constructor |]. simpl.
    generalize dependent (fold_right OntogenesisEngine.insert_by_overall [] rest).
    intros sorted. induction 1 as [| y tail Htail IHtail Hy]; simpl.
    + constructor; constructor.
    + destruct (Qle_bool (fe_overall y) (fe_overall x)) eqn:Hcmp.
      * apply Qle_bool_iff in Hcmp. constructor.
        -- constructor; assumption.
        -- constructor; [exact Hcmp |].
           eapply Forall_impl; [exact Hy |]. simpl. intros e He. lra.
      * assert (Hlt : (fe_overall x < fe_overall y)%Q).
        { apply Qnot_le_lt. intros Hle. apply Qle_bool_iff in Hle. congruence. }
        constructor; [exact IHtail |].
        rewrite insert_by_overall_Permutation.
        constructor; [lra | exact Hy].
  - intros q. induction l as [| x rest IH]; [reflexivity |].
    cbn [fold_right]. rewrite insert_by_overall_filter.
    cbn [List.filter]. rewrite IH. reflexivity.
Qed.

(** ** Self-optimization *)

Section SelfOptimization.
Context `{MathLib} `{MathPow}.

(** The grip of the expansion is only what [optimize] returns when no
    iteration runs. *)
Lemma optimize_grip_irrelevant (e : BSeriesExpansion) (g g' : GripMetric) :
  let r := GradientAscent.optimizeDefault (with_grip g e) in
  let r' := GradientAscent.optimizeDefault (with_grip g' e) in
  opt_coefficients r' = opt_coefficients r ∧
  opt_iterations r' = opt_iterations r ∧
  ((opt_grip r = g ∧ opt_grip r' = g') ∨ opt_grip r' = opt_grip r).
Proof.
  cbv zeta. unfold GradientAscent.optimizeDefault, GradientAscent.optimize.
  cbn [bs_domain bs_terms bs_grip with_grip].
  destruct (Z.to_nat 100) as [| fuel]; cbn [GradientAscent.optimizeLoop].
  - destruct (0 <? 100)%Z; cbn; auto.
  - destruct (0 <? 100)%Z; [| cbn; auto].
    destruct (Qltb _ _); cbn; auto.
Qed.

Lemma optimize_again (e : BSeriesExpansion) (g : GripMetric) :
  let r := GradientAscent.optimizeDefault (with_grip g e) in
  let r' := GradientAscent.optimizeDefault (with_grip (opt_grip r) e) in
  opt_coefficients r' = opt_coefficients r ∧ opt_grip r' = opt_grip r.
Proof.
  cbv zeta.
  destruct (optimize_grip_irrelevant e g
              (opt_grip (GradientAscent.optimizeDefault (with_grip g e))))
    as (Hc & _ & [[_ Hg] | Hg]); split; assumption.
Qed.

Lemma alloc_keeps (heap0 : gmap nat BSeriesExpansion) (y x : BSeriesExpansion) (l : nat) :
  heap0 !! l = Some x → <[fresh (dom heap0) := y]> heap0 !! l = Some x.
Proof.
  intros Hx. rewrite lookup_insert_ne; [exact Hx |].
  intros <-. pose proof (is_fresh (dom heap0)) as Hfresh.
  apply not_elem_of_dom in Hfresh. congruence.
Qed.

Lemma Qmin_cases (a b : Q) :
  ∃ c : Q, Qmin a b = c ∧ ((a < b ∧ c == a) ∨ (b <= a ∧ c == b))%Q.
Proof. exists (Qmin a b). split; [reflexivity | apply Q.min_spec]. Qed.

Lemma inject_Z_succ (n : nat) :
  (inject_Z (Z.of_nat (S n)) == inject_Z (Z.of_nat n) + 1)%Q.
Proof. rewrite Nat2Z.inj_succ. unfold Qeq, Qplus, inject_Z. simpl. lia. Qed.

Lemma selfOptimizeLoop_result (p : nat) (i : Z) (original current : OntogeneticKernel)
    (w : World) (e : BSeriesExpansion) (g : GripMetric) :
  heap w !! bSeries current = Some (with_grip g e) →
  let o := GradientAscent.optimizeDefault (with_grip g e) in
  ∃ result w' events,
    Lifecycle.selfOptimizeLoop (S p) i original current w = Ok result w' ∧
    random_source w' = random_source w ∧
    (∀ l x, heap w !! l = Some x → heap w' !! l = Some x) ∧
    operationHistory w' = operationHistory w ∧
    heap w' !! bSeries result = Some (with_grip (opt_grip o) e) ∧
    coefficients result = opt_coefficients o ∧
    grip result = opt_grip o ∧
    domain result = domain current ∧ order result = order current ∧
    trees result = trees current ∧ genome result = genome current ∧
    optimizationIterations (metadata result)
      = (optimizationIterations (metadata current) + Z.of_nat (S p))%Z ∧
    stage (ontogeneticState result) = stage (ontogeneticState current) ∧
    (maturity (ontogeneticState result)
       == Qmin 1 (maturity (ontogeneticState current) + inject_Z (Z.of_nat (S p)) / 10))%Q ∧
    developmentHistory (ontogeneticState result)
      = developmentHistory (ontogeneticState current) ++ events ∧
    length events = S p ∧
    Forall (fun ev => ev_type ev = ev_optimization ∧
                      fitnessChange ev = (overall (opt_grip o) - overall (grip original))%Q)
           events.
Proof.
  revert i current w g. induction p as [| p IH]; intros i current w g Hheap o.
  - cbn [Lifecycle.selfOptimizeLoop]. run_js. rewrite Hheap.
    cbn [heap random_source drawn clock operationHistory]. fold o.
    eexists _, _, [_]. split; [reflexivity |].
    cbn [heap random_source operationHistory bSeries coefficients grip domain order trees
         genome metadata optimizationIterations ontogeneticState stage maturity
         developmentHistory].
    split; [reflexivity |].
    split; [intros l x Hx; apply alloc_keeps; exact Hx |].
    split; [reflexivity |]. split; [rewrite lookup_insert_eq; reflexivity |].
    do 6 (split; [reflexivity |]). split; [reflexivity |]. split; [reflexivity |].
    split.
    { generalize (maturity (ontogeneticState current)). intros m.
      change (inject_Z (Z.of_nat 1)) with 1%Q.
      destruct (Qmin_cases 1.0 (m + 0.1)) as (c1 & -> & [[? ?] | [? ?]]);
        destruct (Qmin_cases 1 (m + 1 / 10)) as (c2 & -> & [[? ?] | [? ?]]);
        unfold Qdiv in *;
        change (/ 10)%Q with (1 # 10)%Q in *; lra. }
    split; [reflexivity |]. split; [reflexivity |].
    constructor; [| constructor]. split; reflexivity.
  - remember (S p) as passes eqn:Hpasses.
    cbn [Lifecycle.selfOptimizeLoop]. run_js. rewrite Hheap.
    cbn [heap random_source drawn clock operationHistory]. fold o.
    match goal with
    | |- ∃ r w' ev, Lifecycle.selfOptimizeLoop passes ?i' original ?c ?wn = _ ∧ _ =>
        set (c1 := c); set (w1 := wn);
        destruct (IH i' c1 w1 (opt_grip o)) as (result & w' & events & Hrun & Hrs & Hsub & Hhist &
          Hbs & Hco & Hgr & Hdom & Hord & Htr & Hgen & Hit & Hst & Hmat & Hdev & Hlen & Hev)
    end.
    { unfold c1, w1. cbn [bSeries heap]. rewrite lookup_insert_eq. reflexivity. }
    destruct (optimize_again e g) as [Hsamec Hsameg]. fold o in Hsamec, Hsameg.
    cbv zeta in *. rewrite Hsamec in Hco. rewrite Hsameg in Hbs, Hgr, Hev.
    subst passes.
    eexists result, w', (_ :: events). split; [exact Hrun |].
    unfold c1 in Hdom, Hord, Htr, Hgen, Hit, Hst, Hmat, Hdev.
    cbn [domain order trees genome metadata optimizationIterations ontogeneticState
         stage maturity developmentHistory] in Hdom, Hord, Htr, Hgen, Hit, Hst, Hmat, Hdev.
    split; [exact Hrs |].
    split; [intros l x Hx; apply Hsub; unfold w1; cbn [heap]; apply alloc_keeps; exact Hx |].
    split; [exact Hhist |]. split; [exact Hbs |]. split; [exact Hco |].
    split; [exact Hgr |]. split; [exact Hdom |]. split; [exact Hord |].
    split; [exact Htr |]. split; [exact Hgen |].
    split; [rewrite Hit; lia |]. split; [exact Hst |].
    split.
    { generalize (inject_Z_succ (S p)). revert Hmat.
      generalize (maturity (ontogeneticState result)).
      generalize (maturity (ontogeneticState current)).
      generalize (inject_Z (Z.of_nat (S (S p)))).
      assert (Hpos : (0 <= inject_Z (Z.of_nat (S p)))%Q)
        by (change 0%Q with (inject_Z 0); rewrite <- Zle_Qle; lia).
      revert Hpos. generalize (inject_Z (Z.of_nat (S p))).
      intros k Hk k' m r.
      destruct (Qmin_cases 1.0 (m + 0.1)) as (q1 & -> & [[? ?] | [? ?]]);
        destruct (Qmin_cases 1 (q1 + k / 10)) as (q2 & -> & [[? ?] | [? ?]]);
        destruct (Qmin_cases 1 (m + k' / 10)) as (q3 & -> & [[? ?] | [? ?]]);
        intros Hmat Hsucc; unfold Qdiv in *;
        change (/ 10)%Q with (1 # 10)%Q in *; lra. }
    split; [rewrite Hdev, <- app_assoc; reflexivity |].
    split; [simpl; rewrite Hlen; reflexivity |].
    constructor; [split; reflexivity | exact Hev].
Qed.

(** X26: [selfOptimize] over [iterations >= 1] passes, on a kernel whose
    expansion is allocated.  It never fails.  Every pass optimizes the
    same terms, so the coefficients and the grip returned are those of
    ONE call of [optimize] on the kernel's expansion, however many passes
    are asked for; what the passes add up is the bookkeeping: the
    optimization count grows by [iterations], the maturity becomes
    [min(1, maturity + iterations / 10)], and the development history
    gains [iterations] optimization events that all report the same
    fitness change.  The stage and the genome (with its fitness) are not
    updated.  One operation is recorded, whose input shows the state
    after the passes, the state object being shared. *)
Theorem selfOptimize_repeats_one_optimization (kernel : OntogeneticKernel)
    (iterations : Z) (w : World) (e : BSeriesExpansion) :
  (0 < iterations)%Z →
  heap w !! bSeries kernel = Some e →
  let o := GradientAscent.optimizeDefault e in
  ∃ result w' events operation,
    Lifecycle.selfOptimize kernel iterations w = Ok result w' ∧
    coefficients result = opt_coefficients o ∧
    grip result = opt_grip o ∧
    heap w' !! bSeries result = Some (with_grip (opt_grip o) e) ∧
    heap w' !! bSeries kernel = Some e ∧
    optimizationIterations (metadata result)
      = (optimizationIterations (metadata kernel) + iterations)%Z ∧
    (maturity (ontogeneticState result)
       == Qmin 1 (maturity (ontogeneticState kernel) + inject_Z iterations / 10))%Q ∧
    stage (ontogeneticState result) = stage (ontogeneticState kernel) ∧
    genome result = genome kernel ∧
    developmentHistory (ontogeneticState result)
      = developmentHistory (ontogeneticState kernel) ++ events ∧
    Z.of_nat (length events) = iterations ∧
    Forall (fun ev => ev_type ev = ev_optimization ∧
                      fitnessChange ev = (overall (opt_grip o) - overall (grip kernel))%Q)
           events ∧
    last (operationHistory w') = Some operation ∧
    op_type operation = self_optimize ∧
    op_output operation = [result] ∧
    ontogeneticState (op_input operation) = ontogeneticState result.
Proof.
  intros Hpos Hheap o.
  destruct (Z.to_nat iterations) as [| p] eqn:Hp; [lia |].
  assert (He : e = with_grip (bs_grip e) e) by (destruct e; reflexivity).
  destruct (selfOptimizeLoop_result p 0 kernel kernel w e (bs_grip e))
    as (result & w1 & events & Hrun & _ & Hsub & Hhist & Hbs & Hco & Hgr & _ & _ & _ &
        Hgen & Hit & Hst & Hmat & Hdev & Hlen & Hev).
  { rewrite <- He. exact Hheap. }
  cbv zeta in *. rewrite <- He in *. fold o in Hbs, Hco, Hgr, Hev.
  eexists result, _, events, _. split.
  { unfold Lifecycle.selfOptimize. rewrite Hp.
    rewrite (bind_run _ _ w w1 result Hrun).
    unfold OntogenesisEngine.recordOperation. run_js. reflexivity. }
  cbn [heap operationHistory].
  split; [exact Hco |]. split; [exact Hgr |]. split; [exact Hbs |].
  split; [apply Hsub; exact Hheap |].
  split; [rewrite Hit; lia |].
  split; [replace iterations with (Z.of_nat (S p)) by lia; exact Hmat |].
  split; [exact Hst |]. split; [exact Hgen |]. split; [exact Hdev |].
  split; [lia |]. split; [exact Hev |].
  split.
  { destruct (operationHistory w1) as [| first history]; [reflexivity |].
    destruct (1000 <? _)%Z.
    - cbn [app drop]. rewrite drop_0, last_snoc. reflexivity.
    - rewrite last_snoc. reflexivity. }
  split; [reflexivity |]. split; reflexivity.
Qed.

End SelfOptimization.

Lemma selfOptimize_repeats_one_optimization_witness :
  let kernel := individual [0.25; 1]%Q (0%Z, 0.25%Q) 0 0.25 embryonic 0 in
  ∃ result w',
    Lifecycle.selfOptimize (H := approxMath) (H0 := stepPow) kernel 3 (constantWorld 0.5)
      = Ok result w' ∧
    coefficients result
      = opt_coefficients
          (GradientAscent.optimizeDefault (H := approxMath) (H0 := stepPow) halfExpansion) ∧
    optimizationIterations (metadata result)
      = (optimizationIterations (metadata kernel) + 3)%Z ∧
    (maturity (ontogeneticState result) == Qmin 1 (0.25 + inject_Z 3 / 10))%Q.
Proof.
  cbv zeta.
  destruct (@selfOptimize_repeats_one_optimization approxMath stepPow
              (individual [0.25; 1]%Q (0%Z, 0.25%Q) 0 0.25 embryonic 0) 3
              (constantWorld 0.5) halfExpansion ltac:(lia) ltac:(reflexivity))
    as (result & w' & events & operation & Hrun & Hco & _ & _ & _ & Hit & Hmat & _).
  exists result, w'. split; [exact Hrun |]. split; [exact Hco |].
  split; [exact Hit | exact Hmat].
Defined.

(** ** Seeding the first generation *)

Lemma grows_refl (w : World) : grows w w.
Proof. split; [reflexivity | intros l Hl; exact Hl]. Qed.

Lemma grows_trans (w1 w2 w3 : World) : grows w1 w2 → grows w2 w3 → grows w1 w3.
Proof.
  intros [Hs1 Hh1] [Hs2 Hh2]. split; [congruence |]. intros l Hl. apply Hh2, Hh1, Hl.
Qed.

Lemma same_objects_grows (w w' : World) : same_objects w w' → grows w w'.
Proof. intros [Hs Hh]. split; [exact Hs |]. intros l Hl. apply Hh. exact Hl. Qed.

Lemma usable_grows (w w' : World) (k : OntogeneticKernel) :
  grows w w' → usable w k → usable w' k.
Proof. intros [_ Hh] [Hc Hk]. split; [exact Hc | apply Hh; exact Hk]. Qed.

Lemma random_in_unit_grows (w w' : World) :
  grows w w' → random_in_unit w → random_in_unit w'.
Proof. intros [Hs _] Hr n. rewrite Hs. apply Hr. Qed.

Lemma Forall_usable_grows (w w' : World) (ks : list OntogeneticKernel) :
  grows w w' → Forall (usable w) ks → Forall (usable w') ks.
Proof.
  intros Hg Hus. eapply Forall_impl; [exact Hus |]. intros k. apply usable_grows. exact Hg.
Qed.

Lemma initialize_usable (kernel : GeneratedKernel) (w : World) :
  k_coefficients kernel ≠ [] →
  ∃ k w',
    OntogenesisEngine.initialize kernel w = Ok k w' ∧
    grows w w' ∧ usable w' k ∧
    coefficients k = k_coefficients kernel ∧
    generation (genome k) = 0%Z ∧ lineage (genome k) = [].
Proof.
  intros Hne.
  unfold OntogenesisEngine.initialize, OntogenesisEngine.extractGenome,
    OntogenesisEngine.generateId. run_js.
  cbn [heap random_source drawn clock operationHistory].
  eexists _, _. split; [reflexivity |].
  cbn [coefficients genome generation lineage].
  split; [| split; [| repeat split]].
  - split; [reflexivity |]. intros l [x Hx]. cbn [heap].
    destruct (decide (l = fresh (dom (heap w)))) as [-> | Hneq].
    + rewrite lookup_insert_eq. eexists; reflexivity.
    + rewrite lookup_insert_ne by congruence. eexists; exact Hx.
  - split; [exact Hne |]. cbn [bSeries heap]. rewrite lookup_insert_eq. eexists; reflexivity.
Qed.

Lemma mutate_keeps_genome (kernel : OntogeneticKernel) (w : World) :
  random_in_unit w → usable w kernel →
  ∃ child w',
    OntogenesisEngine.mutate kernel w = Ok child w' ∧
    same_objects w w' ∧ usable w' child ∧ genome child = genome kernel.
Proof.
  intros Hrand Hus.
  destruct (mutate_usable kernel w Hrand Hus) as (child & w' & Hrun & Hobj & Hchild).
  exists child, w'. split; [exact Hrun |]. split; [exact Hobj |]. split; [exact Hchild |].
  destruct Hus as [Hne [bs Hbs]].
  destruct (Hrand (drawn w)) as [Hr0 Hr1].
  destruct (random_index_in_range (coefficients kernel) _ Hne Hr0 Hr1) as (old & Hget & _).
  destruct (mutate_result kernel w old bs Hget Hbs)
    as (c & w2 & Hrun2 & _ & _ & _ & _ & _ & _ & _ & _ & _ & Hgen).
  rewrite Hrun in Hrun2. injection Hrun2 as -> ->. exact Hgen.
Qed.

Section Seeding.
Context `{MathLib} `{MathPow}.

Lemma consciousness_kernel_has_coefficients (stamp : Z) :
  ∃ kernel,
    KernelGeneration.generateConsciousnessKernel stamp 4 = inl kernel ∧
    k_coefficients kernel ≠ [].
Proof.
  unfold KernelGeneration.generateConsciousnessKernel, KernelGeneration.generate.
  assert (Hvalid : DomainAnalyzer.validateDomain
                     (ctx_domain (KernelGeneration.consciousnessContext 4)) = true)
    by reflexivity.
  rewrite Hvalid. cbn [negb]. eexists. split; [reflexivity |].
  cbn [k_coefficients]. unfold GradientAscent.optimizeDefault, GradientAscent.optimize.
  destruct (optimizeLoop_result (Z.to_nat 100)
              (bs_domain (BSeriesEngine.generateExpansion
                 (ctx_domain (KernelGeneration.consciousnessContext 4))
                 (UniversalKernelGenerator.initializeGrip
                    (ctx_optimizationGoal (KernelGeneration.consciousnessContext 4)))))
              100 1e-6
              (List.map term_coefficient (bs_terms (BSeriesEngine.generateExpansion
                 (ctx_domain (KernelGeneration.consciousnessContext 4))
                 (UniversalKernelGenerator.initializeGrip
                    (ctx_optimizationGoal (KernelGeneration.consciousnessContext 4))))))
              (bs_grip (BSeriesEngine.generateExpansion
                 (ctx_domain (KernelGeneration.consciousnessContext 4))
                 (UniversalKernelGenerator.initializeGrip
                    (ctx_optimizationGoal (KernelGeneration.consciousnessContext 4)))))
              0 ltac:(lia)) as (Hlen & _).
  intros Hnil. rewrite Hnil in Hlen. discriminate Hlen.
Qed.

Lemma initializeSeeds_usable (seeds : list GeneratedKernel) (w : World) :
  Forall (fun seed => k_coefficients seed ≠ []) seeds →
  ∃ ks w',
    Lifecycle.initializeSeeds seeds w = Ok ks w' ∧
    grows w w' ∧ Forall (usable w') ks ∧
    List.map coefficients ks = List.map k_coefficients seeds ∧
    Forall (fun k => generation (genome k) = 0%Z ∧ lineage (genome k) = []) ks.
Proof.
  intros Hseeds. revert w. induction Hseeds as [| seed rest Hseed Hrest IH]; intros w.
  - exists [], w. split; [reflexivity |]. split; [apply grows_refl |].
    split; [constructor |]. split; [reflexivity | constructor].
  - destruct (initialize_usable seed w Hseed) as (k & w1 & Hrun1 & Hg1 & Hu1 & Hc1 & Hgen1).
    destruct (IH w1) as (ks & w2 & Hrun2 & Hg2 & Hu2 & Hc2 & Hgen2).
    exists (k :: ks), w2. cbn [Lifecycle.initializeSeeds].
    rewrite (bind_run _ _ w w1 k Hrun1), (bind_run _ _ w1 w2 ks Hrun2).
    split; [reflexivity |]. split; [eapply grows_trans; eassumption |].
    split; [constructor; [eapply usable_grows; eassumption | exact Hu2] |].
    split; [simpl; rewrite Hc1, Hc2; reflexivity |].
    constructor; assumption.
Qed.

(** The filling loop from a population that has an individual: every
    pass appends a mutant of an individual of the population so far,
    which carries the genome of its parent. *)
Lemma fillPopulation_mutants (fuel : nat) (size : Z)
    (population : list OntogeneticKernel) (w : World) :
  random_in_unit w → population ≠ [] → Forall (usable w) population →
  (size - len population <= Z.of_nat fuel)%Z →
  ∃ added w',
    Lifecycle.fillPopulation fuel size population w = Ok (population ++ added) w' ∧
    same_objects w w' ∧ Forall (usable w') (population ++ added) ∧
    len (population ++ added) = Z.max size (len population) ∧
    Forall (fun k => ∃ p, In p population ∧ genome k = genome p) added.
Proof.
  revert population w. induction fuel as [| fuel IH]; intros population w Hrand Hne Hus Hfuel.
  - exists [], w. cbn [Lifecycle.fillPopulation].
    destruct (Z.ltb_spec (len population) size); [lia |].
    rewrite app_nil_r. split; [reflexivity |]. split; [apply same_objects_refl |].
    split; [exact Hus |]. split; [lia | constructor].
  - cbn [Lifecycle.fillPopulation].
    destruct (Z.ltb_spec (len population) size) as [Hlt | Hge].
    2: { exists [], w. rewrite app_nil_r. split; [reflexivity |].
         split; [apply same_objects_refl |]. split; [exact Hus |]. split; [lia | constructor]. }
    assert (Hpos : (0 <? len population)%Z = true).
    { apply Z.ltb_lt. unfold len. destruct population; [congruence | simpl; lia]. }
    rewrite Hpos.
    destruct (Hrand (drawn w)) as [Hr0 Hr1].
    destruct (random_index_in_range population _ Hne Hr0 Hr1) as (parent & Hget & Hnth).
    destruct (Math_random_run w) as (w0 & Hrun0 & Hobj0).
    pose proof (random_in_unit_same_objects _ _ Hobj0 Hrand) as Hrand0.
    assert (Hin : In parent population)
      by (apply list_elem_of_In; eapply list_elem_of_lookup_2; exact Hnth).
    assert (Hparent : usable w0 parent).
    { eapply usable_same_objects; [exact Hobj0 |].
      rewrite List.Forall_forall in Hus. apply Hus. exact Hin. }
    destruct (mutate_keeps_genome parent w0 Hrand0 Hparent)
      as (child & w1 & Hrun1 & Hobj1 & Hchild & Hgenome).
    pose proof (same_objects_trans _ _ _ Hobj0 Hobj1) as Hobj01.
    destruct (IH (population ++ [child]) w1) as (added & w2 & Hrun2 & Hobj2 & Hus2 & Hlen2 & Hfrom).
    + eapply random_in_unit_same_objects; eassumption.
    + destruct population; discriminate.
    + apply Forall_app. split.
      * eapply Forall_impl; [exact Hus |]. intros k. apply usable_same_objects. exact Hobj01.
      * constructor; [exact Hchild | constructor].
    + unfold len in *. rewrite length_app. simpl. lia.
    + exists (child :: added), w2.
      replace (population ++ child :: added) with ((population ++ [child]) ++ added)
        by (rewrite <- app_assoc; reflexivity).
      split.
      { rewrite (bind_run _ _ w w1 child); [exact Hrun2 |].
        rewrite (bind_run _ _ w w0 _ Hrun0). rewrite Hget. exact Hrun1. }
      split; [eapply same_objects_trans; eassumption |].
      split; [exact Hus2 |].
      split; [rewrite Hlen2; unfold len in *; rewrite length_app; simpl; lia |].
      constructor; [exists parent; split; assumption |].
      eapply Forall_impl; [exact Hfrom |]. intros k (p & Hp & Hk).
      apply in_app_or in Hp as [Hp | [<- | []]].
      * exists p. split; assumption.
      * exists parent. split; [exact Hin | congruence].
Qed.

Lemma fillPopulation_result (size : Z) (seeded : list OntogeneticKernel) (w : World) :
  random_in_unit w → Forall (usable w) seeded → (1 <= size)%Z →
  ∃ founders added w',
    Lifecycle.fillPopulation (Z.to_nat (size - len seeded)) size seeded w
      = Ok (founders ++ added) w' ∧
    grows w w' ∧ Forall (usable w') (founders ++ added) ∧
    len (founders ++ added) = Z.max size (len seeded) ∧
    (seeded ≠ [] → founders = seeded) ∧
    (seeded = [] → ∃ first kernel,
                   founders = [first] ∧
                   generation (genome first) = 0%Z ∧ lineage (genome first) = [] ∧
                   KernelGeneration.generateConsciousnessKernel (clock w) 4 = inl kernel ∧
                   coefficients first = k_coefficients kernel) ∧
    Forall (fun k => ∃ p, In p founders ∧ genome k = genome p) added.
Proof.
  intros Hrand Hus Hsize. destruct seeded as [| seed rest].
  - change (len (@nil OntogeneticKernel)) with 0%Z. rewrite Z.sub_0_r.
    destruct (Z.to_nat size) as [| fuel] eqn:Hfuel; [lia |].
    cbn [Lifecycle.fillPopulation].
    change (len (@nil OntogeneticKernel)) with 0%Z.
    destruct (Z.ltb_spec 0 size) as [_ | ?]; [| lia].
    change (0 <? 0)%Z with false. cbv iota.
    destruct (consciousness_kernel_has_coefficients (clock w)) as (kernel & Hgen & Hne).
    destruct (initialize_usable kernel w Hne) as (first & w1 & Hrun1 & Hg1 & Hu1 & Hc0 & Hg0 & Hl0).
    destruct (fillPopulation_mutants fuel size [first] w1)
      as (added & w2 & Hrun2 & Hobj2 & Hus2 & Hlen2 & Hfrom).
    + eapply random_in_unit_grows; eassumption.
    + discriminate.
    + constructor; [exact Hu1 | constructor].
    + unfold len. simpl. lia.
    + exists [first], added, w2. split.
      { rewrite (bind_run _ _ w w1 first); [exact Hrun2 |].
        rewrite (bind_run _ _ w w (clock w)) by reflexivity.
        rewrite Hgen. exact Hrun1. }
      split; [eapply grows_trans; [exact Hg1 | apply same_objects_grows; exact Hobj2] |].
      split; [exact Hus2 |].
      split; [rewrite Hlen2; unfold len; simpl; lia |].
      split; [congruence |].
      split; [intros _; exists first, kernel; repeat split; assumption | exact Hfrom].
  - destruct (fillPopulation_mutants (Z.to_nat (size - len (seed :: rest))) size
                (seed :: rest) w Hrand ltac:(discriminate) Hus ltac:(lia))
      as (added & w2 & Hrun2 & Hobj2 & Hus2 & Hlen2 & Hfrom).
    exists (seed :: rest), added, w2. split; [exact Hrun2 |].
    split; [apply same_objects_grows; exact Hobj2 |].
    split; [exact Hus2 |]. split; [exact Hlen2 |].
    split; [reflexivity |]. split; [discriminate | exact Hfrom].
Qed.

Lemma initializePopulation_result (config : OntogenesisConfig) (w : World) :
  let seeds := default [] (seedKernels config) in
  random_in_unit w →
  (1 <= populationSize (evolution config))%Z →
  Forall (fun seed => k_coefficients seed ≠ []) seeds →
  ∃ population founders mutants w',
    Lifecycle.initializePopulation config w = Ok population w' ∧
    individuals population = founders ++ mutants ∧
    pop_generation population = 0%Z ∧
    pop_populationSize population = len (founders ++ mutants) ∧
    len (founders ++ mutants)
      = Z.max (populationSize (evolution config)) (len seeds) ∧
    length founders = Nat.max 1 (length seeds) ∧
    (seeds ≠ [] → List.map coefficients founders = List.map k_coefficients seeds) ∧
    Forall (fun k => ∃ p, In p founders ∧ genome k = genome p) mutants ∧
    Forall (fun k => generation (genome k) = 0%Z ∧ lineage (genome k) = [])
           (founders ++ mutants) ∧
    Forall (usable w') (founders ++ mutants) ∧
    grows w w' ∧
    (seeds = [] → ∃ kernel,
       KernelGeneration.generateConsciousnessKernel (clock w) 4 = inl kernel ∧
       List.map coefficients founders = [k_coefficients kernel]).
Proof.
  cbv zeta. intros Hrand Hsize Hseeds.
  destruct (initializeSeeds_usable (default [] (seedKernels config)) w Hseeds)
    as (seeded & w1 & Hrun1 & Hg1 & Hu1 & Hc1 & Hgen1).
  assert (Hseeded :
    (match seedKernels config with
     | Some (seed :: rest) => Lifecycle.initializeSeeds (seed :: rest)
     | _ => mret []
     end) w = Ok seeded w1).
  { destruct (seedKernels config) as [[| seed rest] |]; exact Hrun1. }
  assert (Hlen1 : length seeded = length (default [] (seedKernels config))).
  { rewrite <- (length_map coefficients), Hc1, length_map. reflexivity. }
  destruct (fillPopulation_result (populationSize (evolution config)) seeded w1
              (random_in_unit_grows _ _ Hg1 Hrand) Hu1 Hsize)
    as (founders & added & w2 & Hrun2 & Hg2 & Hu2 & Hlen2 & Hsome & Hnone & Hfrom).
  eexists _, founders, added, w2. split.
  { unfold Lifecycle.initializePopulation.
    rewrite (bind_run _ _ w w1 seeded Hseeded).
    rewrite (bind_run _ _ w1 w2 (founders ++ added) Hrun2). reflexivity. }
  cbn [individuals pop_generation pop_populationSize].
  do 3 (split; [reflexivity |]).
  split; [rewrite Hlen2; unfold len; rewrite Hlen1; reflexivity |].
  assert (Hfounders : Forall (fun k => generation (genome k) = 0%Z ∧ lineage (genome k) = [])
                             founders).
  { destruct seeded as [| s r].
    - destruct (Hnone eq_refl) as (first & kernel & -> & Hg0 & Hl0 & _).
      constructor; [split; assumption | constructor].
    - rewrite (Hsome ltac:(discriminate)). exact Hgen1. }
  split.
  { destruct seeded as [| s r].
    - destruct (Hnone eq_refl) as (first & kernel & -> & _). rewrite <- Hlen1. reflexivity.
    - rewrite (Hsome ltac:(discriminate)), Hlen1.
      rewrite <- Hlen1. simpl. lia. }
  split.
  { intros Hne. destruct seeded as [| s r].
    - destruct (default [] (seedKernels config)); [congruence | discriminate].
    - rewrite (Hsome ltac:(discriminate)). exact Hc1. }
  split; [exact Hfrom |].
  split; [| split; [exact Hu2 | split; [eapply grows_trans; eassumption |]]].
  - apply Forall_app. split; [exact Hfounders |].
    rewrite List.Forall_forall in Hfounders.
    eapply Forall_impl; [exact Hfrom |]. intros k (p & Hp & ->). apply Hfounders. exact Hp.
  - intros Hnil. rewrite Hnil in Hrun1. cbn [Lifecycle.initializeSeeds] in Hrun1.
    injection Hrun1 as <- <-.
    destruct (Hnone eq_refl) as (first & kernel & -> & _ & _ & Hkernel & Hcoeffs).
    exists kernel. split; [exact Hkernel |]. simpl. rewrite Hcoeffs. reflexivity.
Qed.

(** X27: the first generation.  With draws in [0, 1), a population size
    of at least 1 and seed kernels that have coefficients,
    [initializePopulation] returns generation 0 with
    [max(populationSize, number of seeds)] individuals: first the seeds,
    initialized in their order (or, without seeds, one kernel from the
    consciousness preset of order 4), then mutants.  Every mutant carries
    the genome record of one of those founders, so ids repeat in the
    first generation as soon as it is larger than the seeds; all
    individuals are of generation 0 with an empty lineage. *)
Theorem initializePopulation_founders_and_mutants (config : OntogenesisConfig) (w : World) :
  let seeds := default [] (seedKernels config) in
  random_in_unit w →
  (1 <= populationSize (evolution config))%Z →
  Forall (fun seed => k_coefficients seed ≠ []) seeds →
  ∃ population founders mutants w',
    Lifecycle.initializePopulation config w = Ok population w' ∧
    individuals population = founders ++ mutants ∧
    pop_generation population = 0%Z ∧
    pop_populationSize population = len (individuals population) ∧
    len (individuals population)
      = Z.max (populationSize (evolution config)) (len seeds) ∧
    length founders = Nat.max 1 (length seeds) ∧
    (seeds ≠ [] → List.map coefficients founders = List.map k_coefficients seeds) ∧
    (seeds = [] → ∃ kernel,
       KernelGeneration.generateConsciousnessKernel (clock w) 4 = inl kernel ∧
       List.map coefficients founders = [k_coefficients kernel]) ∧
    Forall (fun k => ∃ p, In p founders ∧ genome k = genome p) mutants ∧
    Forall (fun k => generation (genome k) = 0%Z ∧ lineage (genome k) = [])
           (individuals population).
Proof.
  cbv zeta. intros Hrand Hsize Hseeds.
  destruct (initializePopulation_result config w Hrand Hsize Hseeds)
    as (population & founders & mutants & w' & Hrun & Hind & Hgen & Hps & Hlen & Hf & Hc &
        Hm & Hg0 & _ & _ & Hfallback).
  exists population, founders, mutants, w'.
  split; [exact Hrun |]. split; [exact Hind |]. rewrite Hind.
  split; [exact Hgen |]. split; [exact Hps |]. split; [exact Hlen |].
  split; [exact Hf |]. split; [exact Hc |]. split; [exact Hfallback |].
  split; [exact Hm | exact Hg0].
Qed.

End Seeding.

Lemma initializePopulation_founders_and_mutants_witness :
  let config :=
    {| evolution := parametersOf 4 0.5 0.5 0.5;
       seedKernels := Some [UniversalKernelGenerator.generateRungeKutta 0 4] |} in
  ∃ population w',
    Lifecycle.initializePopulation (H := approxMath) (H0 := stepPow) config (constantWorld 0.5)
      = Ok population w' ∧
    pop_generation population = 0%Z ∧
    len (individuals population) = 4%Z.
Proof.
  cbv zeta.
  destruct (@initializePopulation_founders_and_mutants approxMath stepPow
              {| evolution := parametersOf 4 0.5 0.5 0.5;
                 seedKernels := Some [UniversalKernelGenerator.generateRungeKutta 0 4] |}
              (constantWorld 0.5))
    as (population & founders & mutants & w' & Hrun & _ & Hgen & _ & Hlen & _).
  - intros n. simpl. unfold Qle, Qlt. simpl. lia.
  - simpl. lia.
  - constructor; [vm_compute; discriminate | constructor].
  - exists population, w'. split; [exact Hrun |]. split; [exact Hgen | exact Hlen].
Defined.

(** ** Generations *)

Lemma updateDevelopmentStage_usable (w : World) (stamp : Z) (k : OntogeneticKernel) :
  usable w k → usable w (OntogenesisEngine.updateDevelopmentStage stamp k).
Proof.
  intros Hus. unfold usable, OntogenesisEngine.updateDevelopmentStage in *. cbv zeta.
  destruct (_ && _); [exact Hus |]. destruct (_ && _); [exact Hus |].
  destruct (_ <=? _)%Z; exact Hus.
Qed.

Lemma evolve_step (pop : KernelPopulation) (params : EvolutionParameters) (w : World) :
  (1 <= populationSize params)%Z →
  (0 <= elitismRate params)%Q → (elitismRate params <= 1)%Q →
  random_in_unit w →
  individuals pop ≠ [] →
  Forall (usable w) (individuals pop) →
  (Qfloor (inject_Z (populationSize params) * elitismRate params)
   <= len (individuals pop))%Z →
  let eliteCount := Z.to_nat (Qfloor (inject_Z (populationSize params) * elitismRate params)) in
  ∃ next w',
    OntogenesisEngine.evolve pop params w = Ok next w' ∧
    same_objects w w' ∧
    Forall (usable w') (individuals next) ∧
    len (individuals next) = populationSize params ∧
    pop_populationSize next = populationSize params ∧
    pop_generation next = (pop_generation pop + 1)%Z ∧
    take eliteCount (individuals next)
      = List.map (fun e => OntogenesisEngine.updateDevelopmentStage (clock w') (fe_kernel e))
          (take eliteCount
             (OntogenesisEngine.sort_by_overall
                (OntogenesisEngine.evaluateFitness (individuals pop)))).
Proof.
  intros Hsize Hlo Hhi Hrand Hne Hus Helite.
  pose proof (eliteCount_bounds _ _ Hsize Hlo Hhi) as [He0 He1].
  unfold OntogenesisEngine.evolve. cbv zeta.
  set (eliteCount := Qfloor (inject_Z (populationSize params) * elitismRate params)) in *.
  set (sorted := OntogenesisEngine.sort_by_overall
                   (OntogenesisEngine.evaluateFitness (individuals pop))).
  assert (Hlen_sorted : length sorted = length (individuals pop)).
  { subst sorted. rewrite sort_by_overall_length.
    unfold OntogenesisEngine.evaluateFitness. apply length_imap. }
  assert (Hsorted_ne : sorted ≠ []).
  { intros Hnil. rewrite Hnil in Hlen_sorted.
    destruct (individuals pop); [congruence | discriminate]. }
  assert (Hsorted_us : Forall (fun e => usable w (fe_kernel e)) sorted).
  { subst sorted. apply sort_by_overall_Forall, evaluateFitness_usable. exact Hus. }
  destruct (evolveLoop_fills (Z.to_nat (populationSize params - eliteCount)) sorted params
              eliteCount [] w Hsorted_ne Hsorted_us Hrand (List.Forall_nil _))
    as (children & w' & Hrun & Hobj & Hchildren & Hfilled).
  { unfold len. simpl. lia. }
  eexists _, w'. split.
  { rewrite (bind_run _ _ w w' children) by exact Hrun.
    rewrite (bind_run _ _ w' w' (clock w')) by reflexivity. reflexivity. }
  cbn [individuals pop_populationSize pop_generation].
  rewrite !slice_prefix_take by lia.
  assert (Helite_len : length (List.map fe_kernel (take (Z.to_nat eliteCount) sorted))
                       = Z.to_nat eliteCount).
  { rewrite length_map, length_take. unfold len in *. lia. }
  assert (Hnext : len (List.map (OntogenesisEngine.updateDevelopmentStage (clock w'))
                    (take (Z.to_nat (populationSize params))
                       (List.map fe_kernel (take (Z.to_nat eliteCount) sorted) ++ children)))
                  = populationSize params).
  { unfold len in *. rewrite length_map, length_take, length_app, Helite_len. lia. }
  split; [exact Hobj |].
  split.
  { apply Forall_map. apply Forall_take. apply Forall_app. split.
    - apply Forall_map. apply Forall_take.
      eapply Forall_impl; [exact Hsorted_us |]. intros e He. simpl.
      apply updateDevelopmentStage_usable. eapply usable_same_objects; eassumption.
    - eapply Forall_impl; [exact Hchildren |]. intros k. apply updateDevelopmentStage_usable. }
  split; [exact Hnext |]. split; [exact Hnext |]. split; [reflexivity |].
  rewrite firstn_map, take_take, Nat.min_l by lia.
  rewrite take_app_le by lia. rewrite take_ge by lia.
  rewrite map_map. reflexivity.
Qed.




Section Run.
Context `{MathLib} `{MathPow}.

Lemma runLoop_result (passes : nat) (params : EvolutionParameters)
    (population : KernelPopulation) (generations : list KernelPopulation) (w : World) :
  (1 <= populationSize params)%Z →
  (0 <= elitismRate params)%Q → (elitismRate params <= 1)%Q →
  random_in_unit w →
  individuals population ≠ [] →
  Forall (usable w) (individuals population) →
  (populationSize params <= len (individuals population))%Z →
  ∃ later w',
    Lifecycle.runLoop passes params population generations w
      = Ok (generations ++ later) w' ∧
    (length later <= passes)%nat ∧
    (∀ (j : nat) p, later !! j = Some p →
       pop_generation p = (pop_generation population + 1 + Z.of_nat j)%Z ∧
       len (individuals p) = populationSize params ∧
       pop_populationSize p = populationSize params ∧
       ((S j < length later)%nat →
          Lifecycle.reached p (fitnessThreshold params) = false)) ∧
    ((length later < passes)%nat →
       ∃ final, last later = Some final ∧
                Lifecycle.reached final (fitnessThreshold params) = true).
Proof.
  intros Hsize Hlo Hhi. revert population generations w.
  pose proof (eliteCount_bounds _ _ Hsize Hlo Hhi) as [He0 He1].
  induction passes as [| passes IH]; intros population generations w Hrand Hne Hus Hlen.
  - exists [], w. rewrite app_nil_r. split; [reflexivity |]. split; [simpl; lia |].
    split; [intros j p Hj; discriminate | simpl; lia].
  - destruct (evolve_step population params w Hsize Hlo Hhi Hrand Hne Hus ltac:(lia))
      as (next & w1 & Hrun & Hobj & Hus1 & Hlen1 & Hps1 & Hgen1 & _).
    cbn [Lifecycle.runLoop]. rewrite (bind_run _ _ w w1 next Hrun).
    destruct (Lifecycle.reached next (fitnessThreshold params)) eqn:Hreached.
    + exists [next], w1. split; [reflexivity |]. split; [simpl; lia |].
      split.
      * intros [| j] p Hj; [| destruct j; discriminate]. injection Hj as <-.
        split; [lia |]. split; [exact Hlen1 |]. split; [exact Hps1 | simpl; lia].
      * intros _. exists next. split; [reflexivity | exact Hreached].
    + destruct (IH next (generations ++ [next]) w1)
        as (later & w2 & Hrun2 & Hcount & Heach & Hstop).
      * eapply random_in_unit_same_objects; eassumption.
      * intros Hnil. rewrite Hnil in Hlen1. unfold len in Hlen1. simpl in Hlen1. lia.
      * exact Hus1.
      * lia.
      * exists (next :: later), w2.
        split; [rewrite Hrun2, <- app_assoc; reflexivity |].
        split; [simpl; lia |].
        split.
        -- intros [| j] p Hj.
           ++ injection Hj as <-. split; [lia |]. split; [exact Hlen1 |].
              split; [exact Hps1 |]. intros _. exact Hreached.
           ++ destruct (Heach j p Hj) as (Hg & Hl & Hp & Hr).
              split; [lia |]. split; [exact Hl |]. split; [exact Hp |].
              intros Hmore. apply Hr. simpl in Hmore. lia.
        -- intros Hshort. destruct (Hstop ltac:(simpl in Hshort; lia)) as (final & Hlast & Hfinal).
           exists final. split; [| exact Hfinal].
           rewrite last_cons, Hlast. reflexivity.
Qed.

(** X29: a whole run.  With draws in [0, 1), a population size of at
    least 1, an elitism rate in [0, 1] and seeds that have coefficients,
    [runOntogenesis] returns; it does not run out of individuals or
    expansions.  The list it returns starts with generation 0, of
    [max(populationSize, number of seeds)] individuals, followed by at
    most [maxGenerations] generations numbered 1, 2, ... of exactly
    [populationSize] individuals each.  No generation but the last has a
    best fitness at or above the threshold, and when fewer than
    [maxGenerations] were evolved the last one has: generation 0 is never
    tested against the threshold. *)
Theorem runOntogenesis_generations (config : OntogenesisConfig) (w : World) :
  let params := evolution config in
  let seeds := default [] (seedKernels config) in
  random_in_unit w →
  (1 <= populationSize params)%Z →
  (0 <= elitismRate params)%Q → (elitismRate params <= 1)%Q →
  Forall (fun seed => k_coefficients seed ≠ []) seeds →
  ∃ first later w',
    Lifecycle.runOntogenesis config w = Ok (first :: later) w' ∧
    pop_generation first = 0%Z ∧
    len (individuals first) = Z.max (populationSize params) (len seeds) ∧
    (length later <= Z.to_nat (maxGenerations params))%nat ∧
    (∀ (j : nat) p, later !! j = Some p →
       pop_generation p = (1 + Z.of_nat j)%Z ∧
       len (individuals p) = populationSize params ∧
       pop_populationSize p = populationSize params ∧
       ((S j < length later)%nat →
          Lifecycle.reached p (fitnessThreshold params) = false)) ∧
    ((length later < Z.to_nat (maxGenerations params))%nat →
       ∃ final, last later = Some final ∧
                Lifecycle.reached final (fitnessThreshold params) = true).
Proof.
  cbv zeta. intros Hrand Hsize Hlo Hhi Hseeds.
  destruct (initializePopulation_result config w Hrand Hsize Hseeds)
    as (first & founders & mutants & w1 & Hrun1 & Hind & Hgen & _ & Hlen & _ & _ &
        _ & _ & Hus & Hgrow & _).
  destruct (runLoop_result (Z.to_nat (maxGenerations (evolution config))) (evolution config)
              first [first] w1 Hsize Hlo Hhi)
    as (later & w2 & Hrun2 & Hcount & Heach & Hstop).
  - eapply random_in_unit_grows; eassumption.
  - rewrite Hind. intros Hnil. rewrite Hnil in Hlen. unfold len in Hlen. simpl in Hlen. lia.
  - rewrite Hind. exact Hus.
  - rewrite Hind, Hlen. lia.
  - exists first, later, w2. split.
    { unfold Lifecycle.runOntogenesis. rewrite (bind_run _ _ w w1 first Hrun1). exact Hrun2. }
    split; [exact Hgen |]. split; [rewrite Hind; exact Hlen |].
    split; [exact Hcount |]. split; [| exact Hstop].
    intros j p Hj. destruct (Heach j p Hj) as (Hg & Hrest). split; [lia | exact Hrest].
Qed.

End Run.

Lemma runOntogenesis_generations_witness :
  let config :=
    {| evolution := parametersOf 4 0.5 0.5 0.5;
       seedKernels := Some [UniversalKernelGenerator.generateRungeKutta 0 4] |} in
  ∃ first later w',
    Lifecycle.runOntogenesis (H := approxMath) (H0 := stepPow) config (constantWorld 0.5)
      = Ok (first :: later) w' ∧
    pop_generation first = 0%Z ∧
    (length later <= 1)%nat.
Proof.
  cbv zeta.
  destruct (@runOntogenesis_generations approxMath stepPow
              {| evolution := parametersOf 4 0.5 0.5 0.5;
                 seedKernels := Some [UniversalKernelGenerator.generateRungeKutta 0 4] |}
              (constantWorld 0.5))
    as (first & later & w' & Hrun & Hgen & _ & Hcount & _).
  - intros n. simpl. unfold Qle, Qlt. simpl. lia.
  - simpl. lia.
  - unfold Qle. simpl. lia.
  - unfold Qle. simpl. lia.
  - constructor; [vm_compute; discriminate | constructor].
  - exists first, later, w'. split; [exact Hrun |]. split; [exact Hgen | exact Hcount].
Defined.

Lemma tournamentSelect_picks_best_of_three_witness :
  let k := individual [0.25; 1]%Q (0%Z, 0.25%Q) 0 0 embryonic 0 in
  let evaluations := [evaluationOf k 0.3; evaluationOf k 0.7; evaluationOf k 0.5] in
  let w := drawingWorld [0.1; 0.5; 0.9]%Q in
  ∃ w',
    OntogenesisEngine.drawTournament 3 evaluations w
      = Ok [Some (evaluationOf k 0.3); Some (evaluationOf k 0.7); Some (evaluationOf k 0.5)] w' ∧
    OntogenesisEngine.tournamentSelect evaluations 3 w = Ok (Some (evaluationOf k 0.7)) w' ∧
    heap w' = heap w ∧ drawn w' = 3%nat.
Proof.
  cbv zeta.
  destruct (proj2 (tournamentSelect_picks_best_of_three
              [ evaluationOf (individual [0.25; 1]%Q (0%Z, 0.25%Q) 0 0 embryonic 0) 0.3;
                evaluationOf (individual [0.25; 1]%Q (0%Z, 0.25%Q) 0 0 embryonic 0) 0.7;
                evaluationOf (individual [0.25; 1]%Q (0%Z, 0.25%Q) 0 0 embryonic 0) 0.5 ]
              (drawingWorld [0.1; 0.5; 0.9]%Q)))
    as (tournament & best & w' & first & Htour & Hdraw & Hselect & _ & _ & _ & _ &
        Hheap & _ & _ & _ & Hdrawn).
  - discriminate.
  - intros n. do 4 (destruct n as [| n]; [simpl; unfold Qle, Qlt; simpl; lia |]).
    simpl. destruct n; unfold Qle, Qlt; simpl; lia.
  - exists w'.
    assert (Hbest : Some best
              = Some (evaluationOf (individual [0.25; 1]%Q (0%Z, 0.25%Q) 0 0 embryonic 0) 0.7)).
    { vm_compute in Hselect. injection Hselect as Hbest _. rewrite <- Hbest. reflexivity. }
    split; [rewrite Hdraw, Htour; reflexivity |].
    split; [rewrite Hselect, Hbest; reflexivity |].
    split; [exact Hheap | exact Hdrawn].
Defined.

(** ** A call of [updateDevelopmentStage] *)

Lemma updateDevelopmentStage_history (stamp : Z) (k : OntogeneticKernel) :
  let k' := OntogenesisEngine.updateDevelopmentStage stamp k in
  developmentHistory (ontogeneticState k') =
    developmentHistory (ontogeneticState k) ++
    (if OntogenesisEngine.stage_eqb (stage (ontogeneticState k'))
                                    (stage (ontogeneticState k))
     then []
     else [ {| ev_timestamp := stamp; ev_type := ev_stage_transition;
               description := "Transitioned to "
                              +:+ OntogenesisEngine.stage_name (stage (ontogeneticState k'));
               fitnessChange := 0 |} ]).
Proof.
  cbv zeta. unfold OntogenesisEngine.updateDevelopmentStage. cbv zeta.
  destruct (_ && _);
    [| destruct (_ && _); [| destruct (_ <=? _)%Z]];
    cbn [ontogeneticState stage developmentHistory];
    destruct (OntogenesisEngine.stage_eqb _ _); cbn [negb];
    rewrite ?app_nil_r; reflexivity.
Qed.

Lemma Qgeb_spec (a b : Q) : Qgeb a b = true ↔ (b <= a)%Q.
Proof. unfold Qgeb. apply Qle_bool_iff. Qed.

(** X30: a call of [updateDevelopmentStage] on an individual that is not
    senescent and whose stage agrees with its maturity and age does not
    move the stage backward along embryonic, juvenile, mature,
    senescent, and leaves a stage that agrees again.  The call adds one
    to the age, leaves the maturity, and appends one stage-transition
    event to the development history when it changes the stage and none
    when it does not. *)
Theorem stage_moves_forward_until_senescence (stamp : Z) (k : OntogeneticKernel) :
  stage_agrees k →
  stage (ontogeneticState k) ≠ senescent →
  let k' := OntogenesisEngine.updateDevelopmentStage stamp k in
  stage_le (stage (ontogeneticState k)) (stage (ontogeneticState k')) ∧
  stage_agrees k' ∧
  age (genome k') = (age (genome k) + 1)%Z ∧
  maturity (ontogeneticState k') = maturity (ontogeneticState k) ∧
  developmentHistory (ontogeneticState k') =
    developmentHistory (ontogeneticState k) ++
    (if OntogenesisEngine.stage_eqb (stage (ontogeneticState k'))
                                    (stage (ontogeneticState k))
     then []
     else [ {| ev_timestamp := stamp; ev_type := ev_stage_transition;
               description := "Transitioned to "
                              +:+ OntogenesisEngine.stage_name (stage (ontogeneticState k'));
               fitnessChange := 0 |} ]).
Proof.
  intros Hagrees Hsen. cbv zeta.
  split; [| split; [| split; [apply updateDevelopmentStage_age |
                              split; [apply updateDevelopmentStage_maturity |
                                      apply updateDevelopmentStage_history]]]].
  - (* forward *)
    rewrite updateDevelopmentStage_stage. cbv zeta. unfold stage_le, stage_agrees in *.
    destruct (Qgeb (maturity (ontogeneticState k)) 0.8 && (5 <=? age (genome k) + 1)%Z)
      eqn:Hmature.
    { destruct (stage (ontogeneticState k)); cbn [stage_rank]; [lia | lia | lia | congruence]. }
    destruct (Qgeb (maturity (ontogeneticState k)) 0.5 && (3 <=? age (genome k) + 1)%Z).
    { destruct (stage (ontogeneticState k)); cbn [stage_rank]; [lia | lia | | congruence].
      destruct Hagrees as [Hm Ha]. apply Qgeb_spec in Hm.
      rewrite Hm in Hmature. cbn [andb] in Hmature. apply Z.leb_gt in Hmature. lia. }
    destruct (20 <=? age (genome k) + 1)%Z; [| lia].
    destruct (stage (ontogeneticState k)); cbn [stage_rank]; lia.
  - (* the new stage agrees *)
    unfold stage_agrees in *.
    rewrite updateDevelopmentStage_stage, updateDevelopmentStage_age,
      updateDevelopmentStage_maturity. cbv zeta.
    destruct (Qgeb (maturity (ontogeneticState k)) 0.8 && (5 <=? age (genome k) + 1)%Z)
      eqn:Hmature.
    { apply andb_true_iff in Hmature as [Hm Ha].
      apply Qgeb_spec in Hm. apply Z.leb_le in Ha. split; assumption. }
    destruct (Qgeb (maturity (ontogeneticState k)) 0.5 && (3 <=? age (genome k) + 1)%Z)
      eqn:Hjuvenile.
    { apply andb_true_iff in Hjuvenile as [Hm Ha].
      apply Qgeb_spec in Hm. apply Z.leb_le in Ha. split; assumption. }
    destruct (20 <=? age (genome k) + 1)%Z; [exact I |].
    destruct (stage (ontogeneticState k)); [exact I | | | exact I];
      destruct Hagrees as [Hm Ha]; (split; [exact Hm | lia]).
Qed.

Lemma stage_moves_forward_until_senescence_witness :
  let k := individual [1]%Q (0%Z, 0.5%Q) 0 0.9 juvenile 4 in
  let k' := OntogenesisEngine.updateDevelopmentStage 0 k in
  stage_le (stage (ontogeneticState k)) (stage (ontogeneticState k')) ∧
  stage (ontogeneticState k') = mature ∧
  stage_agrees k' ∧
  length (developmentHistory (ontogeneticState k')) = 1%nat.
Proof.
  cbv zeta.
  destruct (stage_moves_forward_until_senescence 0
              (individual [1]%Q (0%Z, 0.5%Q) 0 0.9 juvenile 4))
    as (Hle & Hagrees & _ & _ & Hhistory).
  - unfold stage_agrees. cbn. split; [unfold Qle; simpl; lia | lia].
  - discriminate.
  - split; [exact Hle |]. split; [reflexivity |]. split; [exact Hagrees |].
    rewrite Hhistory. reflexivity.
Defined.
